(** * The test-run registration / execution pair

    A shallow embedding of the two tool handlers of the repository:

    - the Registrar ([register_test_command], the third program of
      [run-mcps.go]): [validateCommand], [validateEnv], [configPath],
      [writeConfig] and the handler installed by [registerRegisterTool];
    - the Verifier ([run_tests], [test-verifier-mcp/main.go]):
      [validateCommand], [validateEnv], [configPath], [loadConfig] and the
      handler installed by [registerRunTool].

    Modelling conventions.

    - A Go [string] is the list of its Unicode code points.  Every string the
      handlers see was decoded from JSON, hence is valid UTF-8, and the only
      string functions used ([strings.TrimSpace], [strings.SplitN]) work rune
      by rune on such strings.
    - A Go slice is a list; [nil] and the empty slice are identified, since
      the code only inspects slices through [len], [range], [append] and the
      [omitempty] tag.  The one place where [nil] matters, [exec.Cmd.Env],
      is an [option]; the one place where the backing array of a slice
      matters, [json.Unmarshal] decoding a repeated key, carries it along.
    - The file system is a finite map from paths to nodes, the paths
      clean and slash-separated as [filepath.Abs] and [filepath.Dir] return
      them.  The mutating system calls may fail for reasons outside the
      model, so each takes an injected outcome from a fault plan.
    - The child process is an oracle from the prepared [exec.Cmd] to what
      [Start] and [Wait] report. *)

From Stdlib Require Import ZArith NArith List String Ascii Bool Lia.
From Stdlib Require Import DecimalString.
From stdpp Require Import gmap list.

Set Warnings "-register-all".
Local Open Scope N_scope.

(** ** Strings *)

Definition rune := N.
Abbreviation gostring := (list rune).

(** An ASCII literal as a Go string. *)
Definition lit (s : string) : gostring :=
  map N_of_ascii (list_ascii_of_string s).

(** [unicode.IsSpace]: the Latin-1 switch, then the [White_Space] table. *)
Definition isSpace (r : rune) : bool :=
  if r <=? 0xFF then
    (r =? 0x09) || (r =? 0x0A) || (r =? 0x0B) || (r =? 0x0C) || (r =? 0x0D)
    || (r =? 0x20) || (r =? 0x85) || (r =? 0xA0)
  else
    (r =? 0x1680) || ((0x2000 <=? r) && (r <=? 0x200A))
    || (r =? 0x2028) || (r =? 0x2029) || (r =? 0x202F) || (r =? 0x205F)
    || (r =? 0x3000).

(** [strings.TrimLeftFunc s unicode.IsSpace]. *)
Fixpoint TrimLeft (s : gostring) : gostring :=
  match s with
  | [] => []
  | r :: s' => if isSpace r then TrimLeft s' else s
  end.

(** [strings.TrimRightFunc s unicode.IsSpace]. *)
Definition TrimRight (s : gostring) : gostring := rev (TrimLeft (rev s)).

(** [strings.TrimSpace]: leading and trailing white space removed. *)
Definition TrimSpace (s : gostring) : gostring := TrimRight (TrimLeft s).

(** The rune ['=']. *)
Definition eq_sign : rune := 61.

(** [strings.Index s "="] together with the two slices around the match:
    [Some (s[:m], s[m+1:])] at the first ['='], [None] when there is none. *)
Fixpoint cutEq (s : gostring) : option (gostring * gostring) :=
  match s with
  | [] => None
  | r :: s' =>
      if r =? eq_sign then Some ([], s')
      else match cutEq s' with
           | Some (k, v) => Some (r :: k, v)
           | None => None
           end
  end.

(** [strings.SplitN s "=" 2]: at most one split, at the first ['=']. *)
Definition SplitN2 (s : gostring) : list gostring :=
  match cutEq s with
  | Some (k, v) => [k; v]
  | None => [s]
  end.

(** [fmt.Sprintf "%d"]. *)
Definition fmtInt (z : Z) : gostring :=
  lit (NilZero.string_of_int (Z.to_int z)).

(** ** Errors

    Go errors are values built by [fmt.Errorf]; one constructor per message
    of the two programs, wrapped causes ([%w]) kept as arguments. *)

Inductive error :=
| ECommandEmpty                      (* command must contain at least one element *)
| ECommandBlankEntry                 (* command entries cannot be empty *)
| EEnvEntry (entry : gostring)       (* env entries must be KEY=VALUE, got %q *)
| EWorkingDirStat (cause : error)    (* working_dir does not exist: %w *)
| EWorkingDirNotDir (dir : gostring) (* working_dir is not a directory: %s *)
| EExtraArgs (cause : error)         (* extra_args: %w *)
| EReadConfig (cause : error)        (* failed to read config: %w *)
| EParseConfig (cause : error)       (* failed to parse config: %w *)
| EConfigCommand (cause : error)     (* invalid command in config: %w *)
| EConfigEnv (cause : error)         (* invalid env in config: %w *)
| ESerialize (cause : error)         (* failed to serialize config: %w *)
| EMkdir (cause : error)             (* failed to create config dir: %w *)
| EWriteTemp (cause : error)         (* failed to write temp config: %w *)
| EMoveConfig (cause : error)        (* failed to move config into place: %w *)
| ESys (msg : gostring)              (* an error of the Go runtime or the OS *)
| EPanic.                            (* a run-time panic: index out of range *)

Inductive result (A : Type) :=
| Ok (a : A)
| Err (e : error).
Arguments Ok {A} a.
Arguments Err {A} e.

(** The error monad: [x ← r; k] returns early on [Err], as
    [if err != nil { return ..., err }] does. *)
#[global] Instance result_bind : MBind result :=
  fun A B (k : A -> result B) (r : result A) =>
    match r with
    | Ok a => k a
    | Err e => Err e
    end.

#[global] Instance result_fmap : FMap result :=
  fun A B (f : A -> B) (r : result A) =>
    match r with
    | Ok a => Ok (f a)
    | Err e => Err e
    end.

(** What a call into the runtime gives: a value, or an error with its
    text. *)
Inductive syscall (A : Type) :=
| Done (a : A)
| Failed (text : gostring).
Arguments Done {A} a.
Arguments Failed {A} text.

Definition sys {A} (c : syscall A) : result A :=
  match c with
  | Done a => Ok a
  | Failed text => Err (ESys text)
  end.

(** [fmt.Errorf "...: %w"] applied on the error path only. *)
Definition wrapErr {A} (w : error -> error) (r : result A) : result A :=
  match r with
  | Ok a => Ok a
  | Err e => Err (w e)
  end.

(** The error classes of the specification. *)
Definition isCommandError (e : error) : bool :=
  match e with
  | ECommandEmpty | ECommandBlankEntry => true
  | _ => false
  end.

Definition isValidationError (e : error) : bool :=
  match e with
  | ECommandEmpty | ECommandBlankEntry | EEnvEntry _
  | EWorkingDirStat _ | EWorkingDirNotDir _ => true
  | _ => false
  end.

Definition isIOError (e : error) : bool :=
  match e with
  | EMkdir _ | EWriteTemp _ | EMoveConfig _ => true
  | _ => false
  end.

(** ** JSON documents and file contents

    [encoding/json] is used through [json.MarshalIndent] and
    [json.Unmarshal] only.  The text syntax is the library's business: a
    well-formed text is represented by the document it denotes. *)

Inductive json :=
| JNull
| JBool (b : bool)
| JNumber (text : gostring)
| JString (s : gostring)
| JArray (items : list json)
| JObject (members : list (gostring * json)).

(** What a file holds: the complete text of a document, or the first [n]
    bytes of one, [n] smaller than its length, as an interrupted write
    leaves it.  The documents written here are objects, whose strict
    prefixes are never well-formed. *)
Inductive bytes :=
| JsonText (doc : json)
| Truncated (doc : json) (n : nat).

Definition truncate (n : nat) (data : bytes) : bytes :=
  match data with
  | JsonText doc => Truncated doc n
  | Truncated doc m => Truncated doc (Nat.min n m)
  end.

(** ** The file system *)

Inductive node :=
| File (data : bytes)
| Directory.

Abbreviation filesystem := (gmap gostring node).

Definition IsDir (info : node) : bool :=
  match info with
  | Directory => true
  | File _ => false
  end.

Definition ENOENT : error := ESys (lit "no such file or directory").
Definition EEXIST : error := ESys (lit "file exists").
Definition EISDIR : error := ESys (lit "is a directory").
Definition ENOTDIR : error := ESys (lit "not a directory").
Definition ENOTEMPTY : error := ESys (lit "directory not empty").
Definition EIO : error := ESys (lit "input/output error").

(** [os.PathSeparator] and [os.IsPathSeparator]. *)
Definition PathSeparator : rune := 47.
Definition IsPathSeparator (c : rune) : bool := c =? PathSeparator.

(** [os.Stat]. *)
Definition os_Stat (fs : filesystem) (name : gostring) : result node :=
  match fs !! name with
  | Some info => Ok info
  | None => Err ENOENT
  end.

(** [os.ReadFile]. *)
Definition os_ReadFile (fs : filesystem) (name : gostring) : result bytes :=
  match fs !! name with
  | Some (File data) => Ok data
  | Some Directory => Err EISDIR
  | None => Err ENOENT
  end.

(** The two backward scans of [os.MkdirAll], on the reversed path: over the
    trailing separators, then over the last element. *)
Fixpoint skipSeparators (reversed : gostring) : gostring :=
  match reversed with
  | [] => []
  | c :: rest => if IsPathSeparator c then skipSeparators rest else reversed
  end.

Fixpoint skipElement (reversed : gostring) : gostring :=
  match reversed with
  | [] => []
  | c :: rest => if IsPathSeparator c then reversed else skipElement rest
  end.

(** The parent [os.MkdirAll] recurses on: the path without its last
    element and the separator before it.  There is none for a single
    element and for an element right under the root, whose parent, the
    working directory or the root, is there. *)
Definition mkdirParent (path : gostring) : option gostring :=
  match skipElement (skipSeparators (rev path)) with
  | _ :: (_ :: _) as parent => Some (rev parent)
  | _ => None
  end.

(** [os.Mkdir], of a directory whose parent is there; [fails] injects any
    other failure. *)
Definition os_Mkdir (fails : bool) (fs : filesystem) (name : gostring)
  : filesystem * result unit :=
  match fs !! name with
  | Some _ => (fs, Err EEXIST)
  | None => if fails then (fs, Err EIO) else (<[name := Directory]> fs, Ok tt)
  end.

(** The last step of [os.MkdirAll]: [Mkdir], whose failure is no error
    when the directory is there after all. *)
Definition mkdirLast (fails : bool) (fs : filesystem) (path : gostring)
  : filesystem * result unit :=
  match os_Mkdir fails fs path with
  | (fs, Ok _) => (fs, Ok tt)
  | (fs, Err err) =>
      match fs !! path with
      | Some Directory => (fs, Ok tt)
      | _ => (fs, Err err)
      end
  end.

(** [os.MkdirAll]: nothing to do on a directory, an error on a file;
    otherwise the parent is made first, with its own missing parents, then
    the directory itself.  [fails] tells which [Mkdir] fails.  The
    recursion is on a path that gets shorter: [fuel] bounds its depth. *)
Fixpoint mkdirAll (fuel : nat) (fails : gostring -> bool) (fs : filesystem)
    (path : gostring) : filesystem * result unit :=
  match fs !! path with
  | Some Directory => (fs, Ok tt)
  | Some (File _) => (fs, Err ENOTDIR)
  | None =>
      match fuel, mkdirParent path with
      | S fuel, Some parent =>
          match mkdirAll fuel fails fs parent with
          | (fs, Err err) => (fs, Err err)
          | (fs, Ok _) => mkdirLast (fails path) fs path
          end
      | _, _ => mkdirLast (fails path) fs path
      end
  end.

Definition os_MkdirAll (fails : gostring -> bool) (fs : filesystem)
    (dir : gostring) : filesystem * result unit :=
  mkdirAll (length dir) fails fs dir.

(** How [os.WriteFile] (open with create and truncate, write, close) ends. *)
Inductive writeOutcome :=
| WriteCompletes
| WriteOpenFails               (* nothing created, nothing truncated *)
| WriteStopsAfter (n : nat)    (* the write fails, [n] bytes are on disk *)
| WriteCloseFails.             (* all bytes written, close reports an error *)

Definition os_WriteFile (how : writeOutcome) (fs : filesystem)
    (name : gostring) (data : bytes) : filesystem * result unit :=
  match fs !! name with
  | Some Directory => (fs, Err EISDIR)
  | _ =>
      match how with
      | WriteCompletes => (<[name := File data]> fs, Ok tt)
      | WriteOpenFails => (fs, Err EIO)
      | WriteStopsAfter n => (<[name := File (truncate n data)]> fs, Err EIO)
      | WriteCloseFails => (<[name := File data]> fs, Err EIO)
      end
  end.

(** [os.Rename], after rename(2). *)
Definition os_Rename (fails : bool) (fs : filesystem) (oldpath newpath : gostring)
  : filesystem * result unit :=
  if fails then (fs, Err EIO)
  else
    match fs !! oldpath with
    | None => (fs, Err ENOENT)
    | Some src =>
        if decide (oldpath = newpath) then (fs, Ok tt)
        else
          match src, fs !! newpath with
          | File _, Some Directory => (fs, Err EISDIR)
          | Directory, Some (File _) => (fs, Err ENOTDIR)
          | _, _ => (<[newpath := src]> (delete oldpath fs), Ok tt)
          end
    end.

(** A directory name as the prefix of what it holds. *)
Definition withSeparator (dir : gostring) : gostring :=
  match last dir with
  | Some c => if IsPathSeparator c then dir else dir ++ [PathSeparator]
  | None => [PathSeparator]
  end.

(** [name] is a path inside the directory [dir], at any depth. *)
Definition inside (dir name : gostring) : Prop :=
  name ≠ dir ∧ withSeparator dir `prefix_of` name.

(** The directory [dir] holds an entry. *)
Definition hasEntries (fs : filesystem) (dir : gostring) : bool :=
  bool_decide (map_Exists (λ name _, inside dir name) fs).

(** [os.Remove]: of a file, or of a directory that holds nothing; [fails]
    injects any other failure. *)
Definition os_Remove (fails : bool) (fs : filesystem) (name : gostring)
  : filesystem * result unit :=
  if fails then (fs, Err EIO)
  else
    match fs !! name with
    | None => (fs, Err ENOENT)
    | Some (File _) => (delete name fs, Ok tt)
    | Some Directory =>
        if hasEntries fs name then (fs, Err ENOTEMPTY)
        else (delete name fs, Ok tt)
    end.

(** The outcomes injected into the system calls of one [writeConfig];
    [mkdirFails] tells which directory cannot be made. *)
Record faults := {
  mkdirFails : gostring -> bool;
  tempWrite : writeOutcome;
  renameFails : bool;
  removeDestFails : bool;
  retryFails : bool;
  removeTempFails : bool
}.

(** ** The process context

    What a handler reads from its process and from pure library functions
    of [os], [path/filepath] and [time]. *)
Record process := {
  os_Getenv : gostring -> gostring;
  os_Getwd : syscall gostring;
  os_Environ : list gostring;
  filepath_Join : list gostring -> gostring;
  filepath_Abs : gostring -> syscall gostring;
  filepath_Dir : gostring -> gostring;
  time_Now : gostring           (* time.Now().UTC().Format(time.RFC3339) *)
}.

Definition configEnvVar : gostring := lit "TEST_VERIFIER_CONFIG".

(** [mcp.CallToolResult] with its text contents. *)
Record CallToolResult := {
  IsError : bool;
  Content : list gostring
}.

(** ** The Registrar: [register_test_command] *)

Module Registrar.

Record storedConfig := {
  Command : list gostring;     (* json:"command" *)
  WorkingDir : gostring;       (* json:"working_dir,omitempty" *)
  Env : list gostring;         (* json:"env,omitempty" *)
  UpdatedAt : gostring         (* json:"updated_at,omitempty" *)
}.

Module registerArgs.
Record t := {
  Command : list gostring;
  WorkingDir : gostring;
  Env : list gostring
}.
End registerArgs.

Module registerResult.
Record t := {
  ConfigPath : gostring;
  Command : list gostring;
  WorkingDir : gostring;
  Env : list gostring;
  UpdatedAt : gostring;
  Message : gostring
}.
End registerResult.

(** The [for _, part := range command] loop of [validateCommand],
    [clean] being the slice built so far. *)
Fixpoint validateCommand_loop (command clean : list gostring)
  : result (list gostring) :=
  match command with
  | [] => Ok clean
  | part :: rest =>
      let trimmed := TrimSpace part in
      if decide (trimmed = []) then Err ECommandBlankEntry
      else validateCommand_loop rest (clean ++ [trimmed])
  end.

Definition validateCommand (command : list gostring) : result (list gostring) :=
  if decide (length command = 0%nat) then Err ECommandEmpty
  else validateCommand_loop command [].

(** The [for _, entry := range env] loop of [validateEnv]. *)
Fixpoint validateEnv_loop (env clean : list gostring) : result (list gostring) :=
  match env with
  | [] => Ok clean
  | entry :: rest =>
      let trimmed := TrimSpace entry in
      if decide (trimmed = []) then validateEnv_loop rest clean
      else
        let parts := SplitN2 trimmed in
        if negb (length parts =? 2)%nat || bool_decide (parts !! 0%nat = Some [])
        then Err (EEnvEntry entry)
        else validateEnv_loop rest (clean ++ [trimmed])
  end.

Definition validateEnv (env : list gostring) : result (list gostring) :=
  if decide (length env = 0%nat) then Ok []
  else validateEnv_loop env [].

Definition configPath (rt : process) : result gostring :=
  let path := TrimSpace (os_Getenv rt configEnvVar) in
  path ← (if decide (path = []) then
            cwd ← sys (os_Getwd rt);
            Ok (filepath_Join rt [cwd; lit ".test-verifier"; lit "command.json"])
          else Ok path);
  abs ← sys (filepath_Abs rt path);
  Ok abs.

(** A string field tagged [omitempty]. *)
Definition stringMember (name : string) (v : gostring) : list (gostring * json) :=
  if decide (v = []) then [] else [(lit name, JString v)].

(** A [[]string] field tagged [omitempty]. *)
Definition stringsMember (name : string) (v : list gostring)
  : list (gostring * json) :=
  if decide (length v = 0%nat) then [] else [(lit name, JArray (map JString v))].

(** The document [encoding/json] builds for a [storedConfig], from its
    struct tags.  A nil [Command] is encoded as [null]. *)
Definition marshalConfig (cfg : storedConfig) : json :=
  JObject
    ([(lit "command",
       if decide (Command cfg = []) then JNull
       else JArray (map JString (Command cfg)))]
     ++ stringMember "working_dir" (WorkingDir cfg)
     ++ stringsMember "env" (Env cfg)
     ++ stringMember "updated_at" (UpdatedAt cfg)).

(** [json.MarshalIndent cfg "" "  "]; it has no error on this type. *)
Definition json_MarshalIndent (cfg : storedConfig) : result bytes :=
  Ok (JsonText (marshalConfig cfg)).

Definition writeConfig (rt : process) (flt : faults) (fs : filesystem)
    (path : gostring) (cfg : storedConfig) : filesystem * result unit :=
  match json_MarshalIndent cfg with
  | Err err => (fs, Err (ESerialize err))
  | Ok data =>
      let dir := filepath_Dir rt path in
      match os_MkdirAll (mkdirFails flt) fs dir with
      | (fs, Err err) => (fs, Err (EMkdir err))
      | (fs, Ok _) =>
          let tmp := path ++ lit ".tmp" in
          match os_WriteFile (tempWrite flt) fs tmp data with
          | (fs, Err err) => (fs, Err (EWriteTemp err))
          | (fs, Ok _) =>
              match os_Rename (renameFails flt) fs tmp path with
              | (fs, Ok _) => (fs, Ok tt)
              | (fs, Err err) =>
                  let '(fs, _) := os_Remove (removeDestFails flt) fs path in
                  match os_Rename (retryFails flt) fs tmp path with
                  | (fs, Ok _) => (fs, Ok tt)
                  | (fs, Err renameErr) =>
                      let '(fs, _) := os_Remove (removeTempFails flt) fs tmp in
                      (fs, Err (EMoveConfig err))
                  end
              end
          end
      end
  end.

Definition message : gostring :=
  lit "Test command registered. The test-verifier MCP can now run tests.".

(** The handler of [register_test_command], up to the write: the checks
    and the config to persist.  Nothing is written here. *)
Definition checks (rt : process) (fs : filesystem) (args : registerArgs.t)
  : result (gostring * storedConfig) :=
  command ← validateCommand (registerArgs.Command args);
  env ← validateEnv (registerArgs.Env args);
  _ ← (if decide (registerArgs.WorkingDir args = []) then Ok tt
       else
         match os_Stat fs (registerArgs.WorkingDir args) with
         | Err statErr => Err (EWorkingDirStat statErr)
         | Ok info =>
             if IsDir info then Ok tt
             else Err (EWorkingDirNotDir (registerArgs.WorkingDir args))
         end);
  cfgPath ← configPath rt;
  Ok (cfgPath,
      {| Command := command;
         WorkingDir := registerArgs.WorkingDir args;
         Env := env;
         UpdatedAt := time_Now rt |}).

(** The handler of [register_test_command]. *)
Definition register (rt : process) (flt : faults) (fs : filesystem)
    (args : registerArgs.t)
  : filesystem * result (CallToolResult * registerResult.t) :=
  match checks rt fs args with
  | Err err => (fs, Err err)
  | Ok (cfgPath, cfg) =>
      match writeConfig rt flt fs cfgPath cfg with
      | (fs, Err err) => (fs, Err err)
      | (fs, Ok _) =>
          (fs,
           Ok ({| IsError := false; Content := [message] |},
               {| registerResult.ConfigPath := cfgPath;
                  registerResult.Command := Command cfg;
                  registerResult.WorkingDir := WorkingDir cfg;
                  registerResult.Env := Env cfg;
                  registerResult.UpdatedAt := UpdatedAt cfg;
                  registerResult.Message := message |}))
      end
  end.

End Registrar.

(** ** The child process *)

(** The [exec.Cmd] prepared by [run_tests].  [Args] holds the whole command
    line, [Args[0]] being the name given to [exec.CommandContext]; a [nil]
    [Env] is [None]; [Timeout] is the duration given to
    [context.WithTimeout], in nanoseconds. *)
Module exec.
Record Cmd := {
  Path : gostring;
  Args : list gostring;
  Dir : gostring;
  Env : option (list gostring);
  Timeout : option Z
}.
End exec.

(** What [cmd.Wait] returns when it fails: an [*exec.ExitError] with its
    [ExitCode()], or some other error with its text. *)
Inductive waitError :=
| ExitError (code : Z)
| WaitFailure (text : gostring).

(** One execution, as the handler observes it. *)
Record execution := {
  startErr : option gostring;    (* the text of the error of cmd.Start() *)
  waitErr : option waitError;    (* the error of cmd.Wait() *)
  deadlineExceeded : bool;       (* errors.Is(runCtx.Err(), context.DeadlineExceeded) *)
  processState : option Z;       (* cmd.ProcessState.ExitCode(), nil as None *)
  elapsedMs : Z;                 (* time.Since(start).Milliseconds() *)
  stdout : gostring;
  stderr : gostring
}.

(** The environment the child runs in: [os/exec] passes the parent's
    environment when [Env] is nil. *)
Definition childEnviron (rt : process) (cmd : exec.Cmd) : list gostring :=
  match exec.Env cmd with
  | Some env => env
  | None => os_Environ rt
  end.

(** The value of [key] in an environment list.  On duplicate keys [os/exec]
    keeps the last entry of the slice; an entry without ['='] defines
    nothing. *)
Fixpoint lookupEnv (env : list gostring) (key : gostring) : option gostring :=
  match env with
  | [] => None
  | entry :: rest =>
      match lookupEnv rest key with
      | Some v => Some v
      | None =>
          match cutEq entry with
          | Some (k, v) => if decide (k = key) then Some v else None
          | None => None
          end
      end
  end.

(** [int64] wrap-around, for [time.Duration(timeoutSeconds) * time.Second]. *)
Definition wrap64 (z : Z) : Z :=
  ((z + 2 ^ 63) mod 2 ^ 64 - 2 ^ 63)%Z.

(** ** The Verifier: [run_tests] *)

Module Verifier.

Definition defaultTimeoutSeconds : Z := 600.

Record storedConfig := {
  Command : list gostring;     (* json:"command" *)
  WorkingDir : gostring;       (* json:"working_dir,omitempty" *)
  Env : list gostring;         (* json:"env,omitempty" *)
  UpdatedAt : gostring         (* json:"updated_at,omitempty" *)
}.

Module runArgs.
Record t := {
  ExtraArgs : list gostring;
  TimeoutSeconds : Z;
  Env : list gostring
}.
End runArgs.

Module runResult.
Record t := {
  ConfigPath : gostring;
  Command : list gostring;
  WorkingDir : gostring;
  ExitCode : Z;
  DurationMs : Z;
  Stdout : gostring;
  Stderr : gostring;
  Success : bool;
  TimedOut : bool;
  Error : gostring;
  UpdatedAt : gostring
}.
End runResult.

Fixpoint validateCommand_loop (command clean : list gostring)
  : result (list gostring) :=
  match command with
  | [] => Ok clean
  | part :: rest =>
      let trimmed := TrimSpace part in
      if decide (trimmed = []) then Err ECommandBlankEntry
      else validateCommand_loop rest (clean ++ [trimmed])
  end.

Definition validateCommand (command : list gostring) : result (list gostring) :=
  if decide (length command = 0%nat) then Err ECommandEmpty
  else validateCommand_loop command [].

Fixpoint validateEnv_loop (env clean : list gostring) : result (list gostring) :=
  match env with
  | [] => Ok clean
  | entry :: rest =>
      let trimmed := TrimSpace entry in
      if decide (trimmed = []) then validateEnv_loop rest clean
      else
        let parts := SplitN2 trimmed in
        if negb (length parts =? 2)%nat || bool_decide (parts !! 0%nat = Some [])
        then Err (EEnvEntry entry)
        else validateEnv_loop rest (clean ++ [trimmed])
  end.

Definition validateEnv (env : list gostring) : result (list gostring) :=
  if decide (length env = 0%nat) then Ok []
  else validateEnv_loop env [].

Definition configPath (rt : process) : result gostring :=
  let path := TrimSpace (os_Getenv rt configEnvVar) in
  path ← (if decide (path = []) then
            cwd ← sys (os_Getwd rt);
            Ok (filepath_Join rt [cwd; lit ".test-verifier"; lit "command.json"])
          else Ok path);
  abs ← sys (filepath_Abs rt path);
  Ok abs.

(** *** [json.Unmarshal] into a [storedConfig] *)

Definition unmarshalTypeError : error :=
  ESys (lit "json: cannot unmarshal value into Go struct field").
Definition syntaxError : error :=
  ESys (lit "unexpected end of JSON input").

(** Object keys are matched to the tagged field names exactly, else
    ignoring case: by [foldName], which maps every rune to the least rune
    of its case-folding orbit.  The orbits that hold an ASCII rune are the
    two cases of a letter, with the Kelvin sign beside [K] and [k] and the
    long s beside [S] and [s]; no other rune folds to an ASCII one, and the
    four field names are ASCII, so [foldRune] is left the identity
    elsewhere.  The folded names differ, so an exact match is a folded
    one of the same field. *)
Definition foldRune (r : rune) : rune :=
  if (97 <=? r) && (r <=? 122) then r - 32
  else if r =? 0x212A then 75
  else if r =? 0x17F then 83
  else r.
Definition foldName (key : gostring) : gostring := map foldRune key.
Definition equalFold (key : gostring) (name : string) : bool :=
  bool_decide (foldName key = foldName (lit name)).

(** A JSON value into a [string]: [null] leaves the old value. *)
Definition decodeString (v : json) (old : gostring) : result gostring :=
  match v with
  | JString s => Ok s
  | JNull => Ok old
  | _ => Err unmarshalTypeError
  end.

(** The elements of an array into a slice, each into the element the
    backing array holds at its index: the empty string where nothing was
    ever decoded. *)
Fixpoint decodeElements (items : list json) (backing : list gostring)
  : result (list gostring) :=
  match items with
  | [] => Ok []
  | v :: rest =>
      s ← decodeString v (default [] (head backing));
      l ← decodeElements rest (tail backing);
      Ok (s :: l)
  end.

(** A [[]string] while it is decoded: its elements, and what its backing
    array holds beyond them. *)
Record slice := {
  elements : list gostring;
  spare : list gostring
}.

Definition nilSlice : slice := {| elements := []; spare := [] |}.

(** A JSON value into a [[]string]: [null] sets it to nil; an array is
    decoded into the slice that is there, which is cut or grown to the
    length of the array, and replaced by a fresh one when the array is
    empty. *)
Definition decodeStrings (v : json) (old : slice) : result slice :=
  match v with
  | JNull => Ok nilSlice
  | JArray [] => Ok nilSlice
  | JArray items =>
      let backing := elements old ++ spare old in
      decoded ← decodeElements items backing;
      Ok {| elements := decoded; spare := drop (length items) backing |}
  | _ => Err unmarshalTypeError
  end.

(** The [cfg] that is filled in, with its two slices. *)
Record target := {
  command : slice;
  working_dir : gostring;
  env : slice;
  updated_at : gostring
}.

Definition decodeMember (cfg : target) (m : gostring * json) : result target :=
  let '(key, v) := m in
  if equalFold key "command" then
    decoded ← decodeStrings v (command cfg);
    Ok {| command := decoded; working_dir := working_dir cfg;
          env := env cfg; updated_at := updated_at cfg |}
  else if equalFold key "working_dir" then
    dir ← decodeString v (working_dir cfg);
    Ok {| command := command cfg; working_dir := dir;
          env := env cfg; updated_at := updated_at cfg |}
  else if equalFold key "env" then
    decoded ← decodeStrings v (env cfg);
    Ok {| command := command cfg; working_dir := working_dir cfg;
          env := decoded; updated_at := updated_at cfg |}
  else if equalFold key "updated_at" then
    at_ ← decodeString v (updated_at cfg);
    Ok {| command := command cfg; working_dir := working_dir cfg;
          env := env cfg; updated_at := at_ |}
  else Ok cfg.   (* unknown keys are ignored *)

(** Members are decoded in order, a repeated key into the same field. *)
Fixpoint decodeMembers (members : list (gostring * json)) (cfg : target)
  : result target :=
  match members with
  | [] => Ok cfg
  | m :: rest =>
      cfg ← decodeMember cfg m;
      decodeMembers rest cfg
  end.

Definition config (cfg : target) : storedConfig :=
  {| Command := elements (command cfg); WorkingDir := working_dir cfg;
     Env := elements (env cfg); UpdatedAt := updated_at cfg |}.

(** [var cfg storedConfig; json.Unmarshal(data, &cfg)]. *)
Definition json_Unmarshal (data : bytes) : result storedConfig :=
  let cfg := {| command := nilSlice; working_dir := [];
                env := nilSlice; updated_at := [] |} in
  match data with
  | Truncated _ _ => Err syntaxError
  | JsonText (JObject members) => config <$> decodeMembers members cfg
  | JsonText JNull => Ok (config cfg)
  | JsonText _ => Err unmarshalTypeError
  end.

(** [loadConfig]; the path it also returns on failure is dropped by its
    only caller. *)
Definition loadConfig (rt : process) (fs : filesystem)
  : result (storedConfig * gostring) :=
  path ← configPath rt;
  data ← wrapErr EReadConfig (os_ReadFile fs path);
  cfg ← wrapErr EParseConfig (json_Unmarshal data);
  command ← wrapErr EConfigCommand (validateCommand (Command cfg));
  env ← wrapErr EConfigEnv (validateEnv (Env cfg));
  _ ← (if decide (WorkingDir cfg = []) then Ok tt
       else
         match os_Stat fs (WorkingDir cfg) with
         | Err statErr => Err (EWorkingDirStat statErr)
         | Ok info =>
             if IsDir info then Ok tt
             else Err (EWorkingDirNotDir (WorkingDir cfg))
         end);
  Ok ({| Command := command; WorkingDir := WorkingDir cfg;
         Env := env; UpdatedAt := UpdatedAt cfg |}, path).

(** Everything the handler does before [cmd.Start]: it yields the loaded
    config, its path, the command line, the effective timeout in seconds
    and the prepared [exec.Cmd]. *)
Definition prepare (rt : process) (fs : filesystem) (args : runArgs.t)
  : result (storedConfig * gostring * list gostring * Z * exec.Cmd) :=
  '(cfg, cfgPath) ← loadConfig rt fs;
  extraArgs ← match validateCommand (runArgs.ExtraArgs args) with
              | Ok extraArgs => Ok extraArgs
              | Err err =>
                  if (0 <? length (runArgs.ExtraArgs args))%nat
                  then Err (EExtraArgs err)
                  else Ok []
              end;
  let cmdline := [] ++ Command cfg in
  let cmdline :=
    if (0 <? length extraArgs)%nat then cmdline ++ extraArgs else cmdline in
  runEnv ← validateEnv (runArgs.Env args);
  let timeoutSeconds := runArgs.TimeoutSeconds args in
  let timeoutSeconds :=
    if (timeoutSeconds <=? 0)%Z then defaultTimeoutSeconds else timeoutSeconds in
  let timeout :=
    if (0 <? timeoutSeconds)%Z
    then Some (wrap64 (timeoutSeconds * 1000000000))
    else None in
  match cmdline with
  | [] => Err EPanic          (* cmdline[0] *)
  | name :: _ =>
      Ok (cfg, cfgPath, cmdline, timeoutSeconds,
          {| exec.Path := name;
             exec.Args := cmdline;
             exec.Dir :=
               if decide (WorkingDir cfg = []) then [] else WorkingDir cfg;
             exec.Env :=
               if (0 <? length (Env cfg))%nat || (0 <? length runEnv)%nat
               then Some ((os_Environ rt ++ Env cfg) ++ runEnv)
               else None;
             exec.Timeout := timeout |})
  end.

(** The handler from [cmd.Start] on, [ex] being what the child did. *)
Definition finish (cfg : storedConfig) (cfgPath : gostring)
    (cmdline : list gostring) (timeoutSeconds : Z) (ex : execution)
  : CallToolResult * runResult.t :=
  match startErr ex with
  | Some text =>
      ({| IsError := true; Content := [text] |},
       {| runResult.ConfigPath := cfgPath;
          runResult.Command := cmdline;
          runResult.WorkingDir := WorkingDir cfg;
          runResult.ExitCode := -1;
          runResult.DurationMs := elapsedMs ex;
          runResult.Stdout := stdout ex;
          runResult.Stderr := stderr ex;
          runResult.Success := false;
          runResult.TimedOut := false;
          runResult.Error := text;
          runResult.UpdatedAt := UpdatedAt cfg |})
  | None =>
      let '(success, timedOut, error, exitCode) :=
        match waitErr ex with
        | Some err =>
            let '(timedOut, error) :=
              if deadlineExceeded ex
              then (true,
                    lit "timed out after " ++ fmtInt timeoutSeconds
                    ++ lit " seconds")
              else (false, []) in
            match err with
            | ExitError code => (false, timedOut, error, code)
            | WaitFailure text =>
                (false, timedOut,
                 if decide (error = []) then text else error, (-1)%Z)
            end
        | None =>
            match processState ex with
            | Some code =>
                (if decide (code = 0%Z) then true else false, false, [], code)
            | None => (true, false, [], 0%Z)
            end
        end in
      let summary :=
        if timedOut then
          lit "Test run timed out after " ++ fmtInt timeoutSeconds
          ++ lit " seconds."
        else if negb success && bool_decide (exitCode = (-1)%Z)
                && negb (bool_decide (error = [])) then
          lit "Test run failed to start: " ++ error
        else
          lit "Test run finished with exit code " ++ fmtInt exitCode ++ lit "." in
      ({| IsError := bool_decide (exitCode = (-1)%Z)
                     && negb (bool_decide (error = []));
          Content := [summary] |},
       {| runResult.ConfigPath := cfgPath;
          runResult.Command := cmdline;
          runResult.WorkingDir := WorkingDir cfg;
          runResult.ExitCode := exitCode;
          runResult.DurationMs := elapsedMs ex;
          runResult.Stdout := stdout ex;
          runResult.Stderr := stderr ex;
          runResult.Success := success;
          runResult.TimedOut := timedOut;
          runResult.Error := error;
          runResult.UpdatedAt := UpdatedAt cfg |})
  end.

(** The handler of [run_tests].  Besides the tool response it returns the
    commands it started: none when it fails before [cmd.Start]. *)
Definition run (rt : process) (child : exec.Cmd -> execution)
    (fs : filesystem) (args : runArgs.t)
  : list exec.Cmd * result (CallToolResult * runResult.t) :=
  match prepare rt fs args with
  | Err err => ([], Err err)
  | Ok (cfg, cfgPath, cmdline, timeoutSeconds, cmd) =>
      ([cmd], Ok (finish cfg cfgPath cmdline timeoutSeconds (child cmd)))
  end.

End Verifier.

(** ** The launcher: [run-mcps.go]

    The program that starts the six proxied servers, the Registrar and the
    Verifier among them.  What it reads besides the [process] context: *)
Record platform := {
  GOOS : gostring;                                  (* runtime.GOOS *)
  exec_LookPath : gostring -> syscall gostring;
  os_UserHomeDir : syscall gostring;
  os_Executable : syscall gostring;
  filepath_EvalSymlinks : gostring -> syscall gostring
}.

(** The command-line flags that were given; a flag left out takes its
    default. *)
Record flags := {
  flag_tavily : option gostring;
  flag_context7 : option gostring;
  flag_github : option gostring;
  flag_host : option gostring;
  flag_port : option Z
}.

(** What the launcher does to its children, in order. *)
Inductive event :=
| EvStart (cmd : exec.Cmd)         (* cmd.Start() succeeded *)
| EvInterrupt (cmd : exec.Cmd)     (* cmd.Process.Signal(os.Interrupt) *)
| EvSleep (seconds : Z)            (* time.Sleep *)
| EvKill (cmd : exec.Cmd).         (* cmd.Process.Kill() *)

(** How [main] ends: one of its [log.Fatal] calls, or the shutdown that
    follows the interrupt it waits for. *)
Inductive ending :=
| FatalMissingKeys
| FatalNoGithubBinary
| FatalStart (name : gostring)
| IndexPanic                       (* spec.cmd[0] on an empty command *)
| ShutDown.

Module Launcher.

Record procSpec := {
  name : gostring;
  cmd : list gostring;
  env : list gostring
}.

Definition githubBinary (rt : process) (pf : platform) (fs : filesystem)
  : gostring :=
  let name := lit "github-mcp-server" in
  let name :=
    if decide (GOOS pf = lit "windows") then name ++ lit ".exe" else name in
  match exec_LookPath pf name with
  | Done p => p
  | Failed _ =>
      let home := match os_UserHomeDir pf with
                  | Done home => home
                  | Failed _ => []
                  end in
      let fallback := filepath_Join rt [home; lit "bin"; name] in
      match os_Stat fs fallback with
      | Ok _ => fallback
      | Err _ => []
      end
  end.

(** Go's [int] addition wraps around. *)
Definition portFor (name : gostring) (base : Z) : Z :=
  if decide (name = lit "tavily") then base
  else if decide (name = lit "context7") then wrap64 (base + 1)
  else if decide (name = lit "playwright") then wrap64 (base + 2)
  else if decide (name = lit "github") then wrap64 (base + 3)
  else if decide (name = lit "test-verifier") then wrap64 (base + 4)
  else if decide (name = lit "test-registrar") then wrap64 (base + 5)
  else base.

Definition context7Command (host : gostring) (port : Z) (key : gostring)
  : list gostring :=
  let base :=
    [lit "pnpm"; lit "dlx"; lit "mcp-proxy"; lit "--host"; host; lit "--port";
     fmtInt port; lit "--"; lit "pnpm"; lit "dlx"; lit "@upstash/context7-mcp"] in
  if decide (key = []) then base
  else base ++ [lit "--api-key"; key].

Definition githubEnvToken (rt : process) : gostring :=
  let v := os_Getenv rt (lit "GITHUB_PERSONAL_ACCESS_TOKEN") in
  if decide (v = []) then os_Getenv rt (lit "GITHUB_API_KEY") else v.

Definition testVerifierConfigPath (rt : process) (repoRoot : gostring)
  : gostring :=
  if decide (repoRoot = []) then
    filepath_Join rt [lit ".test-verifier"; lit "command.json"]
  else filepath_Join rt [repoRoot; lit ".test-verifier"; lit "command.json"].

Definition testVerifierEnv (rt : process) (repoRoot : gostring)
  : list gostring :=
  let path := testVerifierConfigPath rt repoRoot in
  [lit "TEST_VERIFIER_CONFIG=" ++ path].

Definition dirExists (fs : filesystem) (path : gostring) : bool :=
  match os_Stat fs path with
  | Err _ => false
  | Ok info => IsDir info
  end.

(** The [for _, dir := range candidates] loop of [resolveRepoRoot]: the
    first candidate holding both server folders. *)
Fixpoint resolveRepoRoot_loop (rt : process) (fs : filesystem)
    (candidates : list gostring) : option gostring :=
  match candidates with
  | [] => None
  | dir :: rest =>
      if decide (dir = []) then resolveRepoRoot_loop rt fs rest
      else if dirExists fs (filepath_Join rt [dir; lit "test-verifier-mcp"])
              && dirExists fs (filepath_Join rt [dir; lit "test-registrar-mcp"])
      then Some dir
      else resolveRepoRoot_loop rt fs rest
  end.

(** The candidates of [resolveRepoRoot]: the folder of the executable,
    then the working directory. *)
Definition candidates (rt : process) (pf : platform) : list gostring :=
  let candidates :=
    match os_Executable pf with
    | Done exe =>
        if decide (exe = []) then []
        else
          let exe := match filepath_EvalSymlinks pf exe with
                     | Done resolved => resolved
                     | Failed _ => exe
                     end in
          [filepath_Dir rt exe]
    | Failed _ => []
    end in
  match os_Getwd rt with
  | Done cwd => if decide (cwd = []) then candidates else candidates ++ [cwd]
  | Failed _ => candidates
  end.

Definition resolveRepoRoot (rt : process) (pf : platform) (fs : filesystem)
  : gostring :=
  let candidates := candidates rt pf in
  match resolveRepoRoot_loop rt fs candidates with
  | Some dir => dir
  | None =>
      match candidates with
      | first :: _ => first
      | [] => []
      end
  end.

(** The [specs] of [main]. *)
Definition specs (rt : process) (host : gostring) (basePort : Z)
    (tavilyKey context7Key githubToken githubPath repoRoot : gostring)
  : list procSpec :=
  let testVerifierEnv := testVerifierEnv rt repoRoot in
  let testVerifierPath := filepath_Join rt [repoRoot; lit "test-verifier-mcp"] in
  let testRegistrarPath := filepath_Join rt [repoRoot; lit "test-registrar-mcp"] in
  [ {| name := lit "tavily";
       cmd := [lit "pnpm"; lit "dlx"; lit "mcp-proxy"; lit "--host"; host;
               lit "--port"; fmtInt basePort; lit "--"; lit "pnpm"; lit "dlx";
               lit "tavily-mcp@latest"];
       env := [lit "TAVILY_API_KEY=" ++ tavilyKey] |};
    {| name := lit "context7";
       cmd := context7Command host (wrap64 (basePort + 1)) context7Key;
       env := [] |};
    {| name := lit "playwright";
       cmd := [lit "pnpm"; lit "dlx"; lit "mcp-proxy"; lit "--host"; host;
               lit "--port"; fmtInt (wrap64 (basePort + 2)); lit "--";
               lit "pnpm"; lit "dlx"; lit "@playwright/mcp@latest"];
       env := [] |};
    {| name := lit "github";
       cmd := [lit "pnpm"; lit "dlx"; lit "mcp-proxy"; lit "--host"; host;
               lit "--port"; fmtInt (wrap64 (basePort + 3)); lit "--";
               githubPath; lit "stdio"];
       env := [lit "GITHUB_PERSONAL_ACCESS_TOKEN=" ++ githubToken] |};
    {| name := lit "test-verifier";
       cmd := [lit "pnpm"; lit "dlx"; lit "mcp-proxy"; lit "--host"; host;
               lit "--port"; fmtInt (wrap64 (basePort + 4)); lit "--";
               lit "go"; lit "-C"; testVerifierPath; lit "run"; lit "."];
       env := testVerifierEnv |};
    {| name := lit "test-registrar";
       cmd := [lit "pnpm"; lit "dlx"; lit "mcp-proxy"; lit "--host"; host;
               lit "--port"; fmtInt (wrap64 (basePort + 5)); lit "--";
               lit "go"; lit "-C"; testRegistrarPath; lit "run"; lit "."];
       env := testVerifierEnv |} ].

(** [exec.Command(spec.cmd[0], spec.cmd[1:]...)] with
    [cmd.Env = append(os.Environ(), spec.env...)]; [None] is the panic of
    [spec.cmd[0]] on an empty command. *)
Definition command (rt : process) (spec : procSpec) : option exec.Cmd :=
  match cmd spec with
  | [] => None
  | exe :: _ =>
      Some {| exec.Path := exe;
              exec.Args := cmd spec;
              exec.Dir := [];
              exec.Env := Some (os_Environ rt ++ env spec);
              exec.Timeout := None |}
  end.

(** The [for _, spec := range specs] loop of [main]: [procs] are the
    children started so far; the loop ends early, with how the program
    ends, at the first child that does not start. *)
Fixpoint startAll (rt : process) (starts : exec.Cmd -> bool)
    (specs : list procSpec) (procs : list exec.Cmd)
  : list exec.Cmd * option ending :=
  match specs with
  | [] => (procs, None)
  | spec :: rest =>
      match command rt spec with
      | None => (procs, Some IndexPanic)
      | Some cmd =>
          if starts cmd then startAll rt starts rest (procs ++ [cmd])
          else (procs, Some (FatalStart (name spec)))
      end
  end.

(** [main], [starts] telling which children start.  The interrupt it
    waits for is taken to arrive. *)
Definition main (rt : process) (pf : platform) (fs : filesystem)
    (fl : flags) (starts : exec.Cmd -> bool) : list event * ending :=
  let tavilyKey := default (os_Getenv rt (lit "TAVILY_API_KEY")) (flag_tavily fl) in
  let context7Key :=
    default (os_Getenv rt (lit "CONTEXT7_API_KEY")) (flag_context7 fl) in
  let githubToken := default (githubEnvToken rt) (flag_github fl) in
  let host := default (lit "127.0.0.1") (flag_host fl) in
  let basePort := default 7010%Z (flag_port fl) in
  if bool_decide (tavilyKey = []) || bool_decide (githubToken = [])
  then ([], FatalMissingKeys)
  else
    let githubPath := githubBinary rt pf fs in
    if decide (githubPath = []) then ([], FatalNoGithubBinary)
    else
      let repoRoot := resolveRepoRoot rt pf fs in
      let specs := specs rt host basePort tavilyKey context7Key githubToken
                     githubPath repoRoot in
      match startAll rt starts specs [] with
      | (procs, Some fatal) => (map EvStart procs, fatal)
      | (procs, None) =>
          (map EvStart procs ++ map EvInterrupt procs ++ [EvSleep 2]
           ++ map EvKill procs,
           ShutDown)
      end.

End Launcher.

(** ** Vocabulary of the specification *)

(** An entry that is blank after trimming. *)
Definition blank (s : gostring) : Prop := TrimSpace s = [].

(** A trimmed entry that splits, at its first ['='], into a non-empty key
    and a value, which may be empty and may itself contain ['=']. *)
Definition keyValue (t : gostring) : Prop :=
  ∃ key value, t = key ++ eq_sign :: value ∧ key ≠ [] ∧ eq_sign ∉ key.

(** The entries of an env list as they are kept: each trimmed, the blank
    ones dropped, the others in their order. *)
Definition keptEntries (env : list gostring) : list gostring :=
  filter (λ t, t ≠ []) (map TrimSpace env).

(** The persisted entity as the Verifier declares it. *)
Definition toVerifier (cfg : Registrar.storedConfig) : Verifier.storedConfig :=
  {| Verifier.Command := Registrar.Command cfg;
     Verifier.WorkingDir := Registrar.WorkingDir cfg;
     Verifier.Env := Registrar.Env cfg;
     Verifier.UpdatedAt := Registrar.UpdatedAt cfg |}.

(** The config a registration persists, in the words of the specification:
    the command trimmed element by element, the working directory as given,
    the kept env entries, the time of the call. *)
Definition registeredConfig (rt : process) (args : Registrar.registerArgs.t)
  : Registrar.storedConfig :=
  {| Registrar.Command := map TrimSpace (Registrar.registerArgs.Command args);
     Registrar.WorkingDir := Registrar.registerArgs.WorkingDir args;
     Registrar.Env := keptEntries (Registrar.registerArgs.Env args);
     Registrar.UpdatedAt := time_Now rt |}.

(** The working directory check of both programs: unset, or a directory. *)
Definition workingDirOk (fs : filesystem) (dir : gostring) : Prop :=
  dir = [] ∨ fs !! dir = Some Directory.

(** The effective timeout, in the words of the specification: the caller's
    [timeout_seconds] when positive, else the default of 600 seconds. *)
Definition effectiveTimeout (timeoutSeconds : Z) : Z :=
  if (0 <? timeoutSeconds)%Z then timeoutSeconds else 600%Z.

(** ** Sample data

    A process in [/srv/app] with [TEST_VERIFIER_CONFIG] unset, a file system
    holding that directory, and the calls made on them below. *)

Definition slash : rune := 47.

(** [filepath.Join] on clean elements. *)
Definition sampleJoin (elems : list gostring) : gostring :=
  match elems with
  | [] => []
  | first :: rest => first ++ flat_map (λ elem, slash :: elem) rest
  end.

Fixpoint afterSlash (reversed : gostring) : gostring :=
  match reversed with
  | [] => []
  | r :: rest => if r =? slash then rest else afterSlash rest
  end.

(** [filepath.Dir] on a clean absolute path. *)
Definition sampleDir (path : gostring) : gostring := rev (afterSlash (rev path)).

Definition sample_rt : process :=
  {| os_Getenv := λ _, [];
     os_Getwd := Done (lit "/srv/app");
     os_Environ := [lit "PATH=/usr/bin"; lit "LANG=C"];
     filepath_Join := sampleJoin;
     filepath_Abs := Done;
     filepath_Dir := sampleDir;
     time_Now := lit "2026-01-01T00:00:00Z" |}.

Definition sample_path : gostring := lit "/srv/app/.test-verifier/command.json".

Definition sample_fs : filesystem := {[ lit "/srv/app" := Directory ]}.

Definition no_faults : faults :=
  {| mkdirFails := λ _, false; tempWrite := WriteCompletes;
     renameFails := false; removeDestFails := false; retryFails := false;
     removeTempFails := false |}.

(** Both renames fail; the two removals go through. *)
Definition rename_faults : faults :=
  {| mkdirFails := λ _, false; tempWrite := WriteCompletes;
     renameFails := true; removeDestFails := false; retryFails := true;
     removeTempFails := false |}.

(** The write of the temporary file stops after 10 bytes. *)
Definition write_faults : faults :=
  {| mkdirFails := λ _, false; tempWrite := WriteStopsAfter 10;
     renameFails := false; removeDestFails := false; retryFails := false;
     removeTempFails := false |}.

Definition sample_args : Registrar.registerArgs.t :=
  {| Registrar.registerArgs.Command := [lit " go "; lit "test"; lit "./..."];
     Registrar.registerArgs.WorkingDir := lit "/srv/app";
     Registrar.registerArgs.Env :=
       [lit " LANG=en_US.UTF-8 "; lit "  "; lit "GOFLAGS=-count=1"] |}.

(** A well-formed command with an env entry that has no ['=']. *)
Definition bad_env_args : Registrar.registerArgs.t :=
  {| Registrar.registerArgs.Command := [lit "go"; lit "test"];
     Registrar.registerArgs.WorkingDir := [];
     Registrar.registerArgs.Env := [lit "VERBOSE"] |}.

Definition sample_config : Registrar.storedConfig :=
  {| Registrar.Command := [lit "go"; lit "test"; lit "./..."];
     Registrar.WorkingDir := lit "/srv/app";
     Registrar.Env := [lit "LANG=en_US.UTF-8"; lit "GOFLAGS=-count=1"];
     Registrar.UpdatedAt := lit "2026-01-01T00:00:00Z" |}.

Definition sample_result : Registrar.registerResult.t :=
  {| Registrar.registerResult.ConfigPath := sample_path;
     Registrar.registerResult.Command := Registrar.Command sample_config;
     Registrar.registerResult.WorkingDir := Registrar.WorkingDir sample_config;
     Registrar.registerResult.Env := Registrar.Env sample_config;
     Registrar.registerResult.UpdatedAt := Registrar.UpdatedAt sample_config;
     Registrar.registerResult.Message := Registrar.message |}.

Definition sample_tool : CallToolResult :=
  {| IsError := false; Content := [Registrar.message] |}.

(** The file system after the sample registration. *)
Definition sample_fs_registered : filesystem :=
  <[ sample_path := File (JsonText (Registrar.marshalConfig sample_config)) ]>
    (<[ lit "/srv/app/.test-verifier" := Directory ]> sample_fs).

(** An earlier registration, of [make check]. *)
Definition old_config : Registrar.storedConfig :=
  {| Registrar.Command := [lit "make"; lit "check"];
     Registrar.WorkingDir := [];
     Registrar.Env := [];
     Registrar.UpdatedAt := lit "2025-12-31T00:00:00Z" |}.

Definition old_fs : filesystem :=
  <[ sample_path := File (JsonText (Registrar.marshalConfig old_config)) ]>
    (<[ lit "/srv/app/.test-verifier" := Directory ]> sample_fs).

Definition sample_run_args : Verifier.runArgs.t :=
  {| Verifier.runArgs.ExtraArgs := [lit " -run "; lit "TestLoad"];
     Verifier.runArgs.TimeoutSeconds := 30;
     Verifier.runArgs.Env := [lit "LANG=C.UTF-8"] |}.

Definition plain_run_args : Verifier.runArgs.t :=
  {| Verifier.runArgs.ExtraArgs := [];
     Verifier.runArgs.TimeoutSeconds := 0;
     Verifier.runArgs.Env := [] |}.

(** A child killed at its deadline: [Wait] reports an exit error, the
    exit code of a signalled process being -1. *)
Definition killed_child (cmd : exec.Cmd) : execution :=
  {| startErr := None;
     waitErr := Some (ExitError (-1));
     deadlineExceeded := true;
     processState := Some (-1)%Z;
     elapsedMs := 30001;
     stdout := lit "=== RUN   TestLoad";
     stderr := [] |}.

(** A child that cannot be started. *)
Definition missing_child (cmd : exec.Cmd) : execution :=
  {| startErr := Some (lit "exec: no such file or directory");
     waitErr := None;
     deadlineExceeded := false;
     processState := None;
     elapsedMs := 1;
     stdout := [];
     stderr := [] |}.

(** ** Further vocabulary and sample data *)

(** A string with no white space at either end. *)
Definition trimmed (s : gostring) : Prop :=
  ∀ r, head s = Some r ∨ last s = Some r → isSpace r = false.


(** The directories above [path], nearest first, up to the one right
    under the root: those [os.MkdirAll] makes when they are missing. *)
Fixpoint parents (fuel : nat) (path : gostring) : list gostring :=
  match fuel, mkdirParent path with
  | S fuel, Some parent => parent :: parents fuel parent
  | _, _ => []
  end.

Definition ancestors (path : gostring) : list gostring :=
  parents (length path) path.


(** The largest number of seconds whose nanoseconds fit an [int64]. *)
Definition maxTimeoutSeconds : Z := 9223372036.

(** The command of the sample run, and what the run returns when its
    child is killed at the deadline. *)
Definition sample_cmd : exec.Cmd :=
  {| exec.Path := lit "go";
     exec.Args := [lit "go"; lit "test"; lit "./..."; lit "-run"; lit "TestLoad"];
     exec.Dir := lit "/srv/app";
     exec.Env :=
       Some [lit "PATH=/usr/bin"; lit "LANG=C"; lit "LANG=en_US.UTF-8";
             lit "GOFLAGS=-count=1"; lit "LANG=C.UTF-8"];
     exec.Timeout := Some 30000000000%Z |}.

Definition killed_tool : CallToolResult :=
  {| IsError := true;
     Content := [lit "Test run timed out after 30 seconds."] |}.

Definition killed_result : Verifier.runResult.t :=
  {| Verifier.runResult.ConfigPath := sample_path;
     Verifier.runResult.Command := exec.Args sample_cmd;
     Verifier.runResult.WorkingDir := lit "/srv/app";
     Verifier.runResult.ExitCode := -1;
     Verifier.runResult.DurationMs := 30001;
     Verifier.runResult.Stdout := lit "=== RUN   TestLoad";
     Verifier.runResult.Stderr := [];
     Verifier.runResult.Success := false;
     Verifier.runResult.TimedOut := true;
     Verifier.runResult.Error := lit "timed out after 30 seconds";
     Verifier.runResult.UpdatedAt := lit "2026-01-01T00:00:00Z" |}.

(** A child whose tests fail: exit status 1. *)
Definition failing_child (cmd : exec.Cmd) : execution :=
  {| startErr := None;
     waitErr := Some (ExitError 1);
     deadlineExceeded := false;
     processState := Some 1%Z;
     elapsedMs := 1200;
     stdout := lit "--- FAIL: TestLoad";
     stderr := [];
  |}.

(** A child that started, after which [Wait] fails on its output pipe. *)
Definition broken_pipe_child (cmd : exec.Cmd) : execution :=
  {| startErr := None;
     waitErr := Some (WaitFailure (lit "read |0: file already closed"));
     deadlineExceeded := false;
     processState := Some 0%Z;
     elapsedMs := 15;
     stdout := [];
     stderr := [];
  |}.

(** The names of the six servers, in the order [main] starts them. *)
Definition serverNames : list gostring :=
  [lit "tavily"; lit "context7"; lit "playwright"; lit "github";
   lit "test-verifier"; lit "test-registrar"].

(** The proxy part of a server's command line. *)
Definition proxyPrefix (host : gostring) (port : Z) : list gostring :=
  [lit "pnpm"; lit "dlx"; lit "mcp-proxy"; lit "--host"; host; lit "--port";
   fmtInt port; lit "--"].

(** An [int] of Go. *)
Definition isInt (z : Z) : Prop := (- 2 ^ 63 ≤ z < 2 ^ 63)%Z.

(** A launcher in [/srv/app], where both server folders are, with the
    Tavily key and the GitHub token in its environment, the latter under
    its second name. *)
Definition launcher_rt : process :=
  {| os_Getenv := λ name,
       if decide (name = lit "TAVILY_API_KEY") then lit "tvly-1"
       else if decide (name = lit "GITHUB_API_KEY") then lit "ghp-2"
       else [];
     os_Getwd := Done (lit "/srv/app");
     os_Environ := [lit "PATH=/usr/bin"; lit "TAVILY_API_KEY=tvly-1";
                    lit "GITHUB_API_KEY=ghp-2"];
     filepath_Join := sampleJoin;
     filepath_Abs := Done;
     filepath_Dir := sampleDir;
     time_Now := lit "2026-01-01T00:00:00Z" |}.

Definition sample_platform : platform :=
  {| GOOS := lit "linux";
     exec_LookPath := λ name, Done (lit "/usr/local/bin/" ++ name);
     os_UserHomeDir := Done (lit "/home/dev");
     os_Executable := Done (lit "/opt/tools/run-mcps");
     filepath_EvalSymlinks := Done |}.

Definition launcher_fs : filesystem :=
  {[ lit "/srv/app" := Directory;
     lit "/srv/app/test-verifier-mcp" := Directory;
     lit "/srv/app/test-registrar-mcp" := Directory;
     lit "/opt/tools" := Directory ]}.

Definition no_flags : flags :=
  {| flag_tavily := None; flag_context7 := None; flag_github := None;
     flag_host := None; flag_port := None |}.

(** The specs of the sample launch. *)
Definition sample_specs : list Launcher.procSpec :=
  Launcher.specs launcher_rt (lit "127.0.0.1") 7010 (lit "tvly-1") []
    (lit "ghp-2") (lit "/usr/local/bin/github-mcp-server") (lit "/srv/app").

(** The playwright proxy is the only child that does not start. *)
Definition playwright_fails (cmd : exec.Cmd) : bool :=
  negb (bool_decide (exec.Args cmd !! 10%nat = Some (lit "@playwright/mcp@latest"))).

(** A folder that holds both server folders, as [resolveRepoRoot] tests
    it. *)
Definition holdsServers (rt : process) (fs : filesystem) (dir : gostring) : bool :=
  Launcher.dirExists fs (filepath_Join rt [dir; lit "test-verifier-mcp"])
  && Launcher.dirExists fs (filepath_Join rt [dir; lit "test-registrar-mcp"]).

(** * Properties *)

(** ** Trimming *)

Section Trimming.

Implicit Types s t : gostring.

(** What [TrimLeft] drops is white space, and it stops at a rune that is
    not. *)
Lemma TrimLeft_split s :
  ∃ p, s = p ++ TrimLeft s ∧ forallb isSpace p = true.
Proof.
  induction s as [|r s [p [Hs Hp]]]; simpl.
  - by exists [].
  - destruct (isSpace r) eqn:Hr.
    + exists (r :: p). simpl. rewrite Hr, Hp. split; [by f_equal | done].
    + by exists [].
Qed.

Lemma TrimLeft_head s r t : TrimLeft s = r :: t → isSpace r = false.
Proof.
  induction s as [|a s IH]; simpl; [done |].
  destruct (isSpace a) eqn:Ha; [done |].
  intros [= -> _]. done.
Qed.

Lemma TrimLeft_fixed r t : isSpace r = false → TrimLeft (r :: t) = r :: t.
Proof. intros Hr. simpl. by rewrite Hr. Qed.

Lemma TrimLeft_idem s : TrimLeft (TrimLeft s) = TrimLeft s.
Proof.
  destruct (TrimLeft s) as [|r t] eqn:E; [done |].
  apply TrimLeft_fixed. by eapply TrimLeft_head.
Qed.

Lemma TrimRight_idem s : TrimRight (TrimRight s) = TrimRight s.
Proof. unfold TrimRight. by rewrite rev_involutive, TrimLeft_idem. Qed.

(** Trimming on the right keeps a first rune that is not white space. *)
Lemma TrimRight_keeps_head r t :
  isSpace r = false → ∃ t', TrimRight (r :: t) = r :: t'.
Proof.
  intros Hr. unfold TrimRight.
  destruct (TrimLeft_split (rev (r :: t))) as [p [Hs Hp]].
  destruct (TrimLeft (rev (r :: t))) as [|a u] eqn:E.
  - (* everything was dropped, but [r] is not a space *)
    rewrite app_nil_r in Hs.
    assert (Hin : In r p) by (rewrite <- Hs, <- in_rev; by left).
    rewrite forallb_forall in Hp. rewrite (Hp r Hin) in Hr. done.
  - apply (f_equal (@rev rune)) in Hs.
    rewrite rev_involutive, rev_app_distr in Hs.
    destruct (rev (a :: u)) as [|b w] eqn:Eu.
    + apply (f_equal (@length rune)) in Eu.
      rewrite length_rev in Eu. done.
    + simpl in Hs. injection Hs as -> _. by exists w.
Qed.

Lemma TrimSpace_head s r t : TrimSpace s = r :: t → isSpace r = false.
Proof.
  unfold TrimSpace. intros E.
  destruct (TrimLeft s) as [|a u] eqn:El.
  - done.
  - pose proof (TrimLeft_head _ _ _ El) as Ha.
    destruct (TrimRight_keeps_head a u Ha) as [t' Ht'].
    rewrite Ht' in E. by injection E as -> _.
Qed.

(** [strings.TrimSpace] is idempotent. *)
Lemma TrimSpace_idem s : TrimSpace (TrimSpace s) = TrimSpace s.
Proof.
  destruct (TrimSpace s) as [|r t] eqn:E; [done |].
  pose proof (TrimSpace_head _ _ _ E) as Hr.
  unfold TrimSpace in *.
  rewrite (TrimLeft_fixed _ _ Hr), <- E.
  apply TrimRight_idem.
Qed.

Lemma cutEq_Some s k v :
  cutEq s = Some (k, v) → s = k ++ eq_sign :: v ∧ eq_sign ∉ k.
Proof.
  revert k. induction s as [|r s IH]; intros k; simpl; [done |].
  destruct (N.eqb_spec r eq_sign) as [-> | Hne].
  - intros [= <- <-]. split; [done | apply not_elem_of_nil].
  - destruct (cutEq s) as [[k' v']|]; [| done].
    intros [= <- <-]. destruct (IH k' eq_refl) as [-> Hk].
    split; [done |]. rewrite elem_of_cons. intros [? | ?]; congruence.
Qed.

Lemma cutEq_None s : cutEq s = None → eq_sign ∉ s.
Proof.
  induction s as [|r s IH]; simpl; [intros _; apply not_elem_of_nil |].
  destruct (N.eqb_spec r eq_sign) as [-> | Hne]; [done |].
  destruct (cutEq s) as [[k' v']|]; [done |].
  intros _. rewrite elem_of_cons. intros [? | ?]; [congruence | by apply IH].
Qed.

Lemma cutEq_app k v : eq_sign ∉ k → cutEq (k ++ eq_sign :: v) = Some (k, v).
Proof.
  induction k as [|r k IH]; simpl; intros Hk.
  - done.
  - rewrite not_elem_of_cons in Hk. destruct Hk as [Hr Hk].
    destruct (N.eqb_spec r eq_sign); [congruence |].
    by rewrite (IH Hk).
Qed.

End Trimming.

(** ** The validators *)

Section Validators.

Implicit Types command env clean : list gostring.

Lemma blank_TrimSpace s : blank (TrimSpace s) ↔ blank s.
Proof. unfold blank. by rewrite TrimSpace_idem. Qed.

(** The test [len(parts) != 2 || parts[0] == ""] rejects exactly the
    entries that are not [KEY=VALUE]. *)
Lemma envEntry_test t :
  negb (length (SplitN2 t) =? 2)%nat
  || bool_decide (SplitN2 t !! 0%nat = Some []) = false
  ↔ keyValue t.
Proof.
  unfold SplitN2, keyValue.
  destruct (cutEq t) as [[k v]|] eqn:E; simpl.
  - destruct (cutEq_Some _ _ _ E) as [-> Hk]. split.
    + intros Hb. exists k, v. split; [done |]. split; [| done].
      intros ->. by rewrite bool_decide_eq_true_2 in Hb.
    + intros (k' & v' & Ht & Hne & Hk').
      rewrite Ht, (cutEq_app _ _ Hk') in E. injection E as -> ->.
      apply bool_decide_eq_false_2. congruence.
  - split; [done |].
    intros (k' & v' & -> & _ & Hk'). by rewrite (cutEq_app _ _ Hk') in E.
Qed.

Lemma keptEntries_cons_blank entry env :
  blank entry → keptEntries (entry :: env) = keptEntries env.
Proof.
  intros Hb. unfold keptEntries. simpl. rewrite filter_cons.
  destruct (decide (TrimSpace entry ≠ [])); [done | done].
Qed.

Lemma keptEntries_cons_kept entry env :
  ¬ blank entry → keptEntries (entry :: env) = TrimSpace entry :: keptEntries env.
Proof.
  intros Hb. unfold keptEntries. simpl. rewrite filter_cons.
  destruct (decide (TrimSpace entry ≠ [])); [done | done].
Qed.

(** The env loop: it succeeds exactly on lists whose non-blank entries are
    all [KEY=VALUE], with the kept entries appended to [clean]; it fails on
    an entry that is neither blank nor [KEY=VALUE]. *)
Lemma Registrar_validateEnv_loop_spec env clean :
  match Registrar.validateEnv_loop env clean with
  | Ok l =>
      Forall (λ entry, blank entry ∨ keyValue (TrimSpace entry)) env
      ∧ l = clean ++ keptEntries env
  | Err err =>
      ∃ entry, err = EEnvEntry entry ∧ entry ∈ env
               ∧ ¬ blank entry ∧ ¬ keyValue (TrimSpace entry)
  end.
Proof.
  revert clean. induction env as [|entry env IH]; intros clean; simpl.
  - split; [constructor | by rewrite app_nil_r].
  - destruct (decide (TrimSpace entry = [])) as [Hb | Hb].
    + specialize (IH clean).
      destruct (Registrar.validateEnv_loop env clean) as [l | err].
      * destruct IH as [Hall ->]. split.
        -- constructor; [by left | done].
        -- by rewrite keptEntries_cons_blank.
      * destruct IH as (e & -> & Hin & Hnb & Hnk).
        exists e. repeat split; try done. apply elem_of_cons; by right.
    + destruct (negb (length (SplitN2 (TrimSpace entry)) =? 2)%nat
                || bool_decide (SplitN2 (TrimSpace entry) !! 0%nat = Some []))
        eqn:Htest.
      * exists entry. repeat split; try done.
        -- apply elem_of_cons; by left.
        -- intros Hk. apply envEntry_test in Hk. congruence.
      * apply envEntry_test in Htest.
        specialize (IH (clean ++ [TrimSpace entry])).
        destruct (Registrar.validateEnv_loop env (clean ++ [TrimSpace entry]))
          as [l | err].
        -- destruct IH as [Hall ->]. split.
           ++ constructor; [by right | done].
           ++ rewrite keptEntries_cons_kept by done.
              by rewrite <- app_assoc.
        -- destruct IH as (e & -> & Hin & Hnb & Hnk).
           exists e. repeat split; try done. apply elem_of_cons; by right.
Qed.

Lemma Registrar_validateEnv_spec env :
  match Registrar.validateEnv env with
  | Ok clean =>
      Forall (λ entry, blank entry ∨ keyValue (TrimSpace entry)) env
      ∧ clean = keptEntries env
  | Err err =>
      ∃ entry, err = EEnvEntry entry ∧ entry ∈ env
               ∧ ¬ blank entry ∧ ¬ keyValue (TrimSpace entry)
  end.
Proof.
  unfold Registrar.validateEnv.
  destruct (decide (length env = 0%nat)) as [Hlen | Hlen].
  - destruct env; [| done]. split; [constructor | done].
  - apply (Registrar_validateEnv_loop_spec env []).
Qed.

(** The two programs carry the same validators. *)
Lemma Verifier_validateEnv_loop_eq env clean :
  Verifier.validateEnv_loop env clean = Registrar.validateEnv_loop env clean.
Proof.
  revert clean. induction env as [|entry env IH]; intros clean; simpl; [done |].
  rewrite !IH. done.
Qed.

Lemma Verifier_validateEnv_eq env :
  Verifier.validateEnv env = Registrar.validateEnv env.
Proof.
  unfold Verifier.validateEnv, Registrar.validateEnv.
  by rewrite Verifier_validateEnv_loop_eq.
Qed.

Lemma Verifier_validateCommand_loop_eq command clean :
  Verifier.validateCommand_loop command clean
  = Registrar.validateCommand_loop command clean.
Proof.
  revert clean. induction command as [|part rest IH]; intros clean; simpl; [done |].
  by rewrite IH.
Qed.

Lemma Verifier_validateCommand_eq command :
  Verifier.validateCommand command = Registrar.validateCommand command.
Proof.
  unfold Verifier.validateCommand, Registrar.validateCommand.
  by rewrite Verifier_validateCommand_loop_eq.
Qed.

Lemma Registrar_validateCommand_loop_spec command clean :
  match Registrar.validateCommand_loop command clean with
  | Ok l => Forall (λ part, ¬ blank part) command
            ∧ l = clean ++ map TrimSpace command
  | Err err => err = ECommandBlankEntry ∧ Exists blank command
  end.
Proof.
  revert clean. induction command as [|part rest IH]; intros clean; simpl.
  - split; [constructor | by rewrite app_nil_r].
  - destruct (decide (TrimSpace part = [])) as [Hb | Hb].
    + split; [done | by left].
    + specialize (IH (clean ++ [TrimSpace part])).
      destruct (Registrar.validateCommand_loop rest (clean ++ [TrimSpace part]))
        as [l | err].
      * destruct IH as [Hall ->]. split; [by constructor |].
        by rewrite <- app_assoc.
      * destruct IH as [-> Hex]. split; [done | by right].
Qed.

(** [validateCommand] fails exactly on the empty sequence and on a sequence
    with a blank element; otherwise it returns the sequence trimmed
    element by element. *)
Lemma Registrar_validateCommand_spec command :
  match Registrar.validateCommand command with
  | Ok clean => command ≠ [] ∧ Forall (λ part, ¬ blank part) command
                ∧ clean = map TrimSpace command
  | Err err => (err = ECommandEmpty ∧ command = [])
               ∨ (err = ECommandBlankEntry ∧ Exists blank command)
  end.
Proof.
  unfold Registrar.validateCommand.
  destruct (decide (length command = 0%nat)) as [Hlen | Hlen].
  - left. by destruct command.
  - pose proof (Registrar_validateCommand_loop_spec command []) as H.
    destruct (Registrar.validateCommand_loop command []) as [l | err].
    + destruct H as [Hall ->]. split; [by intros -> | done].
    + by right.
Qed.

Lemma Registrar_validateCommand_ok command :
  command ≠ [] → Forall (λ part, ¬ blank part) command →
  Registrar.validateCommand command = Ok (map TrimSpace command).
Proof.
  intros Hne Hall.
  pose proof (Registrar_validateCommand_spec command) as H.
  destruct (Registrar.validateCommand command) as [l | err].
  - by destruct H as (_ & _ & ->).
  - destruct H as [[_ ->] | [_ Hex]]; [done |].
    apply Exists_exists in Hex. destruct Hex as (part & Hin & Hb).
    rewrite Forall_forall in Hall. by destruct (Hall part Hin).
Qed.

(** A validated command passes validation again, unchanged. *)
Lemma Registrar_validateCommand_idem command clean :
  Registrar.validateCommand command = Ok clean →
  Registrar.validateCommand clean = Ok clean.
Proof.
  intros E. pose proof (Registrar_validateCommand_spec command) as H.
  rewrite E in H. destruct H as (Hne & Hall & ->).
  rewrite Registrar_validateCommand_ok.
  - f_equal. rewrite <- list_fmap_compose. apply list_fmap_ext.
    intros _ part _. apply TrimSpace_idem.
  - by destruct command.
  - apply Forall_fmap. eapply Forall_impl; [exact Hall |].
    intros part Hb. simpl. by rewrite blank_TrimSpace.
Qed.

Lemma Registrar_validateEnv_ok env :
  Forall (λ entry, blank entry ∨ keyValue (TrimSpace entry)) env →
  Registrar.validateEnv env = Ok (keptEntries env).
Proof.
  intros Hall. pose proof (Registrar_validateEnv_spec env) as H.
  destruct (Registrar.validateEnv env) as [l | err].
  - by destruct H as [_ ->].
  - destruct H as (entry & _ & Hin & Hnb & Hnk).
    rewrite Forall_forall in Hall. by destruct (Hall entry Hin).
Qed.

Lemma keptEntries_fixed env :
  Forall (λ t, TrimSpace t = t ∧ t ≠ []) env → keptEntries env = env.
Proof.
  induction 1 as [|t env [Ht Hne] _ IH]; [done |].
  rewrite keptEntries_cons_kept by (unfold blank; congruence).
  by rewrite Ht, IH.
Qed.

Lemma keptEntries_trimmed env :
  Forall (λ t, TrimSpace t = t ∧ t ≠ []) (keptEntries env).
Proof.
  induction env as [|entry env IH]; [constructor |].
  destruct (decide (TrimSpace entry = [])) as [Hb | Hb].
  - by rewrite keptEntries_cons_blank.
  - rewrite keptEntries_cons_kept by done.
    constructor; [| done]. split; [apply TrimSpace_idem | done].
Qed.

(** A validated env list passes validation again, unchanged. *)
Lemma Registrar_validateEnv_idem env clean :
  Registrar.validateEnv env = Ok clean →
  Registrar.validateEnv clean = Ok clean.
Proof.
  intros E. pose proof (Registrar_validateEnv_spec env) as H.
  rewrite E in H. destruct H as [Hall ->].
  rewrite Registrar_validateEnv_ok.
  - f_equal. apply keptEntries_fixed, keptEntries_trimmed.
  - clear E. induction env as [|entry env IH]; [constructor |].
    inversion Hall as [|? ? Hentry Hrest]; subst.
    destruct (decide (TrimSpace entry = [])) as [Hb | Hb].
    + rewrite keptEntries_cons_blank by done. by apply IH.
    + rewrite keptEntries_cons_kept by done.
      constructor; [| by apply IH].
      right. rewrite TrimSpace_idem. by destruct Hentry.
Qed.

End Validators.

(** ** Serialising and parsing the config *)

Lemma decodeElements_strings (l backing : list gostring) :
  Verifier.decodeElements (map JString l) backing = Ok l.
Proof.
  revert backing. induction l as [|s l IH]; intros backing; simpl; [done |].
  by rewrite IH.
Qed.

(** An array of strings replaces whatever the slice held. *)
Lemma decodeStrings_strings (l : list gostring) (old : Verifier.slice) :
  l ≠ [] →
  Verifier.elements
  <$> Verifier.decodeStrings (JArray (map JString l)) old = Ok l.
Proof.
  destruct l as [|s l]; [done |]. intros _.
  unfold Verifier.decodeStrings.
  change (map JString (s :: l)) with (JString s :: map JString l).
  cbv beta iota.
  change (JString s :: map JString l) with (map JString (s :: l)).
  by rewrite decodeElements_strings.
Qed.

Lemma decodeMembers_app a b cfg :
  Verifier.decodeMembers (a ++ b) cfg
  = (cfg' ← Verifier.decodeMembers a cfg; Verifier.decodeMembers b cfg').
Proof.
  revert cfg. induction a as [|m a IH]; intros cfg; simpl; [done |].
  destruct (Verifier.decodeMember cfg m) as [cfg' | err]; simpl; [apply IH | done].
Qed.

Lemma decode_command cmd wd env at_ :
  ∃ decoded,
    Verifier.decodeMembers
      [(lit "command",
        if decide (cmd = []) then JNull else JArray (map JString cmd))]
      {| Verifier.command := Verifier.nilSlice; Verifier.working_dir := wd;
         Verifier.env := env; Verifier.updated_at := at_ |}
    = Ok {| Verifier.command := decoded; Verifier.working_dir := wd;
            Verifier.env := env; Verifier.updated_at := at_ |}
    ∧ Verifier.elements decoded = cmd.
Proof.
  destruct (decide (cmd = [])) as [-> | Hne].
  - by exists Verifier.nilSlice.
  - pose proof (decodeStrings_strings cmd Verifier.nilSlice Hne) as H.
    cbn [Verifier.decodeMembers Verifier.decodeMember].
    change (Verifier.equalFold (lit "command") "command") with true.
    cbv beta iota. cbn [Verifier.command].
    destruct (Verifier.decodeStrings _ _) as [decoded | err]; [| done].
    cbn in H. injection H as H. by exists decoded.
Qed.

Lemma decode_working_dir cmd wd env at_ :
  Verifier.decodeMembers (Registrar.stringMember "working_dir" wd)
    {| Verifier.command := cmd; Verifier.working_dir := [];
       Verifier.env := env; Verifier.updated_at := at_ |}
  = Ok {| Verifier.command := cmd; Verifier.working_dir := wd;
          Verifier.env := env; Verifier.updated_at := at_ |}.
Proof.
  unfold Registrar.stringMember.
  destruct (decide (wd = [])) as [-> | _]; reflexivity.
Qed.

Lemma decode_env cmd wd env at_ :
  ∃ decoded,
    Verifier.decodeMembers (Registrar.stringsMember "env" env)
      {| Verifier.command := cmd; Verifier.working_dir := wd;
         Verifier.env := Verifier.nilSlice; Verifier.updated_at := at_ |}
    = Ok {| Verifier.command := cmd; Verifier.working_dir := wd;
            Verifier.env := decoded; Verifier.updated_at := at_ |}
    ∧ Verifier.elements decoded = env.
Proof.
  unfold Registrar.stringsMember.
  destruct (decide (length env = 0%nat)) as [Hlen | Hlen].
  - exists Verifier.nilSlice. by destruct env.
  - assert (Hne : env ≠ []) by (by destruct env).
    pose proof (decodeStrings_strings env Verifier.nilSlice Hne) as H.
    cbn [Verifier.decodeMembers Verifier.decodeMember].
    change (Verifier.equalFold (lit "env") "command") with false.
    change (Verifier.equalFold (lit "env") "working_dir") with false.
    change (Verifier.equalFold (lit "env") "env") with true.
    cbv beta iota. cbn [Verifier.env].
    destruct (Verifier.decodeStrings _ _) as [decoded | err]; [| done].
    cbn in H. injection H as H. by exists decoded.
Qed.

Lemma decode_updated_at cmd wd env at_ :
  Verifier.decodeMembers (Registrar.stringMember "updated_at" at_)
    {| Verifier.command := cmd; Verifier.working_dir := wd;
       Verifier.env := env; Verifier.updated_at := [] |}
  = Ok {| Verifier.command := cmd; Verifier.working_dir := wd;
          Verifier.env := env; Verifier.updated_at := at_ |}.
Proof.
  unfold Registrar.stringMember.
  destruct (decide (at_ = [])) as [-> | _]; reflexivity.
Qed.

(** What the Registrar serialises, the Verifier parses back, field by
    field. *)
Lemma json_roundtrip cfg :
  Verifier.json_Unmarshal (JsonText (Registrar.marshalConfig cfg))
  = Ok (toVerifier cfg).
Proof.
  destruct cfg as [cmd wd env at_].
  unfold Registrar.marshalConfig, Verifier.json_Unmarshal, toVerifier.
  cbn [Registrar.Command Registrar.WorkingDir Registrar.Env Registrar.UpdatedAt].
  destruct (decode_command cmd [] Verifier.nilSlice []) as (c & Hc & <-).
  destruct (decode_env c wd env []) as (e & He & <-).
  rewrite decodeMembers_app, Hc. cbn [mbind result_bind].
  rewrite decodeMembers_app, decode_working_dir. cbn [mbind result_bind].
  rewrite decodeMembers_app, He. cbn [mbind result_bind].
  by rewrite decode_updated_at.
Qed.

(** ** The file system and [writeConfig] *)

Section FileSystem.

Implicit Types fs : filesystem.
Implicit Types name dir path oldpath newpath : gostring.

Lemma skipSeparators_suffix (r : gostring) : skipSeparators r `suffix_of` r.
Proof.
  induction r as [|c r IH]; simpl; [done |].
  destruct (IsPathSeparator c); [by apply suffix_cons_r | done].
Qed.

Lemma skipElement_suffix (r : gostring) : skipElement r `suffix_of` r.
Proof.
  induction r as [|c r IH]; simpl; [done |].
  destruct (IsPathSeparator c); [done | by apply suffix_cons_r].
Qed.

(** The parent is a proper prefix of the path. *)
Lemma mkdirParent_prefix path parent :
  mkdirParent path = Some parent →
  parent `prefix_of` path ∧ (length parent < length path)%nat.
Proof.
  unfold mkdirParent.
  pose proof (skipElement_suffix (skipSeparators (rev path))) as H1.
  pose proof (skipSeparators_suffix (rev path)) as H2.
  destruct (skipElement _) as [|c [|c' up]] eqn:E; [done.. |].
  intros [= <-].
  assert (H : (c :: c' :: up) `suffix_of` rev path) by (by etrans).
  destruct H as [k Hk].
  apply (f_equal (@rev rune)) in Hk. rewrite rev_involutive in Hk.
  rewrite rev_app_distr in Hk.
  change (c :: c' :: up) with ([c] ++ (c' :: up)) in Hk.
  rewrite rev_app_distr, <- app_assoc in Hk.
  split.
  - eexists. exact Hk.
  - rewrite Hk, !length_app, !length_rev. simpl. lia.
Qed.


(** The fuel is enough: more of it changes nothing. *)
Lemma parents_fuel fuel1 fuel2 path :
  (length path ≤ fuel1)%nat → (length path ≤ fuel2)%nat →
  parents fuel1 path = parents fuel2 path.
Proof.
  revert fuel2 path. induction fuel1 as [|fuel1 IH]; intros fuel2 path H1 H2.
  - destruct path; [| simpl in H1; lia]. by destruct fuel2.
  - destruct fuel2 as [|fuel2].
    { destruct path; [| simpl in H2; lia]. done. }
    simpl. destruct (mkdirParent path) as [parent|] eqn:E; [| done].
    apply mkdirParent_prefix in E as [_ Hl].
    f_equal. apply IH; lia.
Qed.

Lemma mkdirAll_fuel fuel1 fuel2 fails fs path :
  (length path ≤ fuel1)%nat → (length path ≤ fuel2)%nat →
  mkdirAll fuel1 fails fs path = mkdirAll fuel2 fails fs path.
Proof.
  revert fuel2 path. induction fuel1 as [|fuel1 IH]; intros fuel2 path H1 H2.
  - destruct path; [| simpl in H1; lia]. by destruct fuel2.
  - destruct fuel2 as [|fuel2].
    { destruct path; [| simpl in H2; lia]. done. }
    simpl. destruct (fs !! path) as [[d|]|]; [done.. |].
    destruct (mkdirParent path) as [parent|] eqn:E; [| done].
    apply mkdirParent_prefix in E as [_ Hl].
    rewrite (IH fuel2 parent) by lia. done.
Qed.

Lemma mkdirLast_spec (fails : bool) fs path fs' r :
  mkdirLast fails fs path = (fs', r) →
  (fs' = fs ∧ ((∃ err, r = Err err) ∨ fs !! path = Some Directory))
  ∨ (fs !! path = None ∧ fails = false
     ∧ fs' = <[path := Directory]> fs ∧ r = Ok tt).
Proof.
  unfold mkdirLast, os_Mkdir.
  destruct (fs !! path) as [[d|]|] eqn:E.
  - rewrite E. intros [= <- <-]. left. eauto.
  - rewrite E. intros [= <- <-]. left. eauto.
  - destruct fails.
    + rewrite E. intros [= <- <-]. left. eauto.
    + intros [= <- <-]. right. done.
Qed.

Lemma mkdirLast_change (fails : bool) fs fs1 chain path fs' r :
  (∀ name, fs1 !! name = fs !! name
           ∨ (fs !! name = None ∧ fs1 !! name = Some Directory
              ∧ name ∈ chain)) →
  mkdirLast fails fs1 path = (fs', r) →
  (∀ name, fs' !! name = fs !! name
           ∨ (fs !! name = None ∧ fs' !! name = Some Directory
              ∧ name ∈ path :: chain))
  ∧ (r = Ok tt → fs' !! path = Some Directory).
Proof.
  intros H1 [[-> Hr] | (Hnone & _ & -> & ->)]%mkdirLast_spec.
  - split.
    + intros name. destruct (H1 name) as [? | (? & ? & ?)]; [by left |].
      right. repeat split; [done.. |]. apply elem_of_cons; by right.
    + intros ->. by destruct Hr as [[err [=]] | Hr].
  - split; [| intros _; apply lookup_insert_eq].
    intros name. destruct (decide (name = path)) as [-> | Hne].
    + rewrite lookup_insert_eq.
      destruct (H1 path) as [H | (_ & H & _)]; [| congruence].
      right. rewrite <- H, Hnone. repeat split. apply elem_of_cons; by left.
    + rewrite lookup_insert_ne by done.
      destruct (H1 name) as [? | (? & ? & ?)]; [by left |].
      right. repeat split; [done.. |]. apply elem_of_cons; by right.
Qed.

(** What [mkdirAll] changes: it makes directories that were missing, at
    the path and above it, and on success the path is a directory. *)
Lemma mkdirAll_spec fuel fails fs path fs' r :
  mkdirAll fuel fails fs path = (fs', r) →
  (∀ name, fs' !! name = fs !! name
           ∨ (fs !! name = None ∧ fs' !! name = Some Directory
              ∧ name ∈ path :: parents fuel path))
  ∧ (r = Ok tt → fs' !! path = Some Directory).
Proof.
  revert path fs' r.
  induction fuel as [|fuel IH]; intros path fs' r; simpl.
  - destruct (fs !! path) as [[d|]|] eqn:E.
    + intros [= <- <-]. split; [by left | done].
    + intros [= <- <-]. split; [by left | done].
    + apply mkdirLast_change. by left.
  - destruct (fs !! path) as [[d|]|] eqn:E.
    + intros [= <- <-]. split; [by left | done].
    + intros [= <- <-]. split; [by left | done].
    + destruct (mkdirParent path) as [parent|] eqn:Ep.
      2:{ apply mkdirLast_change. by left. }
      destruct (mkdirAll fuel fails fs parent) as [fs1 r1] eqn:Hrec.
      apply IH in Hrec as [Hch _].
      destruct r1 as [[]|e1].
      * by apply mkdirLast_change.
      * intros [= <- <-]. split; [| done].
        intros name. destruct (Hch name) as [? | (? & ? & ?)]; [by left |].
        right. repeat split; [done.. |]. apply elem_of_cons; by right.
Qed.

Lemma os_MkdirAll_spec fails fs dir fs' r :
  os_MkdirAll fails fs dir = (fs', r) →
  (∀ name, fs' !! name = fs !! name
           ∨ (fs !! name = None ∧ fs' !! name = Some Directory
              ∧ name ∈ dir :: ancestors dir))
  ∧ (r = Ok tt → fs' !! dir = Some Directory).
Proof. apply mkdirAll_spec. Qed.

(** [os.MkdirAll] keeps what is there. *)
Lemma os_MkdirAll_keeps fails fs dir fs' r name info :
  os_MkdirAll fails fs dir = (fs', r) →
  fs !! name = Some info → fs' !! name = Some info.
Proof.
  intros [H _]%os_MkdirAll_spec Hname.
  destruct (H name) as [-> | (? & _)]; congruence.
Qed.

(** It makes no file. *)
Lemma os_MkdirAll_file fails fs dir fs' r name data :
  os_MkdirAll fails fs dir = (fs', r) →
  fs' !! name = Some (File data) → fs !! name = Some (File data).
Proof.
  intros [H _]%os_MkdirAll_spec Hname.
  destruct (H name) as [<- | (_ & ? & _)]; congruence.
Qed.


Lemma os_WriteFile_ok how fs name data fs' :
  os_WriteFile how fs name data = (fs', Ok tt) → fs' = <[name := File data]> fs.
Proof.
  unfold os_WriteFile. intros H.
  destruct (fs !! name) as [[d|]|]; destruct how; by inversion H.
Qed.

Lemma os_WriteFile_other how fs name data fs' r path :
  os_WriteFile how fs name data = (fs', r) → path ≠ name →
  fs' !! path = fs !! path.
Proof.
  unfold os_WriteFile. intros H Hne.
  destruct (fs !! name) as [[d|]|]; destruct how; injection H as <- _;
    by rewrite ?lookup_insert_ne.
Qed.

Lemma os_Rename_ok fails fs oldpath newpath fs' :
  os_Rename fails fs oldpath newpath = (fs', Ok tt) → oldpath ≠ newpath →
  ∃ src, fs !! oldpath = Some src ∧ fs' = <[newpath := src]> (delete oldpath fs).
Proof.
  unfold os_Rename. intros H Hne.
  destruct fails; [done |].
  destruct (fs !! oldpath) as [src|]; [| done].
  destruct (decide (oldpath = newpath)); [done |].
  exists src. split; [done |].
  destruct src, (fs !! newpath) as [[d|]|]; by inversion H.
Qed.

Lemma os_Rename_err fails fs oldpath newpath fs' err :
  os_Rename fails fs oldpath newpath = (fs', Err err) → fs' = fs.
Proof.
  unfold os_Rename. intros H.
  destruct fails; [by inversion H |].
  destruct (fs !! oldpath) as [src|]; [| by inversion H].
  destruct (decide (oldpath = newpath)); [done |].
  destruct src, (fs !! newpath) as [[d|]|]; by inversion H.
Qed.

(** An injected failure apart, a rename of a file fails only onto a
    directory. *)
Lemma os_Rename_file_err fs oldpath newpath data fs' err :
  os_Rename false fs oldpath newpath = (fs', Err err) →
  fs !! oldpath = Some (File data) → fs !! newpath = Some Directory.
Proof.
  unfold os_Rename. intros H Hold. rewrite Hold in H.
  destruct (decide (oldpath = newpath)); [done |].
  destruct (fs !! newpath) as [[d|]|]; by inversion H.
Qed.


Lemma os_Remove_spec (fails : bool) fs name fs' r :
  os_Remove fails fs name = (fs', r) →
  (fs' = fs ∧ ∃ err, r = Err err)
  ∨ (fs' = delete name fs ∧ r = Ok tt ∧ fails = false).
Proof.
  unfold os_Remove. destruct fails; [intros [= <- <-]; left; eauto |].
  destruct (fs !! name) as [[d|]|].
  - intros [= <- <-]. by right.
  - destruct (hasEntries fs name); intros [= <- <-]; [left; eauto | by right].
  - intros [= <- <-]. left. eauto.
Qed.

Lemma os_Remove_lookup (fails : bool) fs target fs' r name :
  os_Remove fails fs target = (fs', r) →
  fs' !! name = fs !! name ∨ (name = target ∧ fs' !! name = None).
Proof.
  intros [[-> _] | (-> & _)]%os_Remove_spec; [by left |].
  destruct (decide (name = target)) as [-> | Hne].
  - right. split; [done | apply lookup_delete_eq].
  - left. by apply lookup_delete_ne.
Qed.

(** A file is removed unless the removal is made to fail. *)
Lemma os_Remove_file (fails : bool) fs name data :
  fs !! name = Some (File data) →
  os_Remove fails fs name
  = if fails then (fs, Err EIO) else (delete name fs, Ok tt).
Proof. unfold os_Remove. by intros ->. Qed.

Lemma tmp_ne_path path : path ++ lit ".tmp" ≠ path.
Proof.
  intros H. apply (f_equal (@length rune)) in H.
  rewrite length_app in H. simpl in H. lia.
Qed.

(** A successful [writeConfig] leaves the serialised config at [path]. *)
Lemma writeConfig_ok (rt : process) (flt : faults) fs fs' path cfg :
  Registrar.writeConfig rt flt fs path cfg = (fs', Ok tt) →
  fs' !! path = Some (File (JsonText (Registrar.marshalConfig cfg))).
Proof.
  pose proof (tmp_ne_path path) as Hne.
  unfold Registrar.writeConfig, Registrar.json_MarshalIndent.
  destruct (os_MkdirAll _ _ _) as [fs1 [[]|e1]] eqn:Hmk; [| done].
  destruct (os_WriteFile _ _ _ _) as [fs2 [[]|e2]] eqn:Hwr; [| done].
  apply os_WriteFile_ok in Hwr. subst fs2.
  destruct (os_Rename (renameFails flt) _ _ _) as [fs3 [[]|e3]] eqn:Hrn.
  - intros [= <-]. apply os_Rename_ok in Hrn as (src & Hsrc & ->); [| done].
    rewrite lookup_insert_eq in Hsrc. injection Hsrc as <-.
    by rewrite lookup_insert_eq.
  - apply os_Rename_err in Hrn. subst fs3.
    destruct (os_Remove (removeDestFails flt) _ _) as [fs4 r4] eqn:Hrm.
    apply (os_Remove_lookup _ _ _ _ _ (path ++ lit ".tmp")) in Hrm
      as [Hrm | [? _]]; [| done].
    rewrite lookup_insert_eq in Hrm.
    destruct (os_Rename (retryFails flt) _ _ _) as [fs5 [[]|e5]] eqn:Hrn2.
    + intros [= <-]. apply os_Rename_ok in Hrn2 as (src & Hsrc & ->); [| done].
      rewrite lookup_insert_eq. congruence.
    + destruct (os_Remove (removeTempFails flt) _ _). done.
Qed.

End FileSystem.

(** ** Registration and loading *)

Section Registration.

Implicit Types fs : filesystem.
Implicit Types rt : process.
Implicit Types flt : faults.
Implicit Types path : gostring.

(** How a failed [writeConfig] leaves the config path and the temporary
    file. *)
Lemma writeConfig_err rt flt fs fs' path cfg err :
  Registrar.writeConfig rt flt fs path cfg = (fs', Err err) →
  match err with
  | EMkdir _ | EWriteTemp _ =>
      ∀ old, fs !! path = Some (File old) → fs' !! path = Some (File old)
  | EMoveConfig _ =>
      (removeTempFails flt = false → fs' !! (path ++ lit ".tmp") = None)
      ∧ ∀ old, fs !! path = Some (File old) →
               fs' !! path = if removeDestFails flt then Some (File old) else None
  | _ => False
  end.
Proof.
  pose proof (tmp_ne_path path) as Hne.
  unfold Registrar.writeConfig, Registrar.json_MarshalIndent.
  destruct (os_MkdirAll _ _ _) as [fs1 [[]|e1]] eqn:Hmk.
  2:{ intros [= <- <-]. intros old Hold. by eapply os_MkdirAll_keeps. }
  destruct (os_WriteFile _ _ _ _) as [fs2 [[]|e2]] eqn:Hwr.
  2:{ intros [= <- <-]. intros old Hold.
      rewrite (os_WriteFile_other _ _ _ _ _ _ path Hwr) by done.
      by eapply os_MkdirAll_keeps. }
  apply os_WriteFile_ok in Hwr. subst fs2.
  destruct (os_Rename (renameFails flt) _ _ _) as [fs3 [[]|e3]] eqn:Hrn; [done |].
  apply os_Rename_err in Hrn. subst fs3.
  destruct (os_Remove (removeDestFails flt) _ _) as [fs4 r4] eqn:Hrm.
  destruct (os_Rename (retryFails flt) _ _ _) as [fs5 [[]|e5]] eqn:Hrn2; [done |].
  apply os_Rename_err in Hrn2. subst fs5.
  destruct (os_Remove (removeTempFails flt) _ _) as [fs6 r6] eqn:Hrm2.
  intros [= <- <-]. split.
  - intros Hrt. rewrite Hrt in Hrm2.
    assert (Htmp : fs4 !! (path ++ lit ".tmp") = Some
              (File (JsonText (Registrar.marshalConfig cfg)))).
    { apply (os_Remove_lookup _ _ _ _ _ (path ++ lit ".tmp")) in Hrm
        as [-> | [? _]]; [apply lookup_insert_eq | done]. }
    rewrite (os_Remove_file _ _ _ _ Htmp) in Hrm2.
    injection Hrm2 as <- _. apply lookup_delete_eq.
  - intros old Hold.
    assert (Hfs6 : fs6 !! path = fs4 !! path).
    { by apply (os_Remove_lookup _ _ _ _ _ path) in Hrm2 as [-> | [? _]]. }
    rewrite Hfs6.
    assert (H1 : <[path ++ lit ".tmp"
                   := File (JsonText (Registrar.marshalConfig cfg))]> fs1 !! path
                 = Some (File old)).
    { rewrite lookup_insert_ne by done. by eapply os_MkdirAll_keeps. }
    rewrite (os_Remove_file _ _ _ _ H1) in Hrm.
    destruct (removeDestFails flt); injection Hrm as <- _; [done |].
    apply lookup_delete_eq.
Qed.

(** After a failure the config path holds no file but the one that was
    there. *)
Lemma writeConfig_err_file rt flt fs fs' path cfg err data :
  Registrar.writeConfig rt flt fs path cfg = (fs', Err err) →
  fs' !! path = Some (File data) → fs !! path = Some (File data).
Proof.
  pose proof (tmp_ne_path path) as Hne.
  unfold Registrar.writeConfig, Registrar.json_MarshalIndent.
  destruct (os_MkdirAll _ _ _) as [fs1 r1] eqn:Hmk.
  pose proof (os_MkdirAll_file _ _ _ _ _ path data Hmk) as H1.
  destruct r1 as [[]|e1]; [| intros [= <- <-]; done].
  destruct (os_WriteFile _ _ _ _) as [fs2 r2] eqn:Hwr.
  pose proof (os_WriteFile_other _ _ _ _ _ _ path Hwr) as H2.
  destruct r2 as [[]|e2]; [| intros [= <- <-]; rewrite H2 by done; done].
  destruct (os_Rename (renameFails flt) _ _ _) as [fs3 [[]|e3]] eqn:Hrn; [done |].
  apply os_Rename_err in Hrn. subst fs3.
  destruct (os_Remove (removeDestFails flt) _ _) as [fs4 r4] eqn:Hrm.
  destruct (os_Rename (retryFails flt) _ _ _) as [fs5 [[]|e5]] eqn:Hrn2; [done |].
  apply os_Rename_err in Hrn2. subst fs5.
  destruct (os_Remove (removeTempFails flt) _ _) as [fs6 r6] eqn:Hrm2.
  intros [= <- <-] H6.
  apply (os_Remove_lookup _ _ _ _ _ path) in Hrm2 as [Hrm2 | [? _]]; [| done].
  apply (os_Remove_lookup _ _ _ _ _ path) in Hrm as [Hrm | [_ Hrm]];
    [| congruence].
  apply H1. rewrite <- H2 by done. congruence.
Qed.

Lemma writeConfig_result rt flt fs path cfg :
  match Registrar.writeConfig rt flt fs path cfg with
  | (_, Ok _) => True
  | (_, Err err) => isIOError err = true
  end.
Proof.
  destruct (Registrar.writeConfig rt flt fs path cfg) as [fs' [[]|err]] eqn:E;
    [done |].
  apply writeConfig_err in E. by destruct err.
Qed.

Lemma configPath_eq rt : Verifier.configPath rt = Registrar.configPath rt.
Proof. reflexivity. Qed.

Lemma configPath_err rt err :
  Registrar.configPath rt = Err err → ∃ text, err = ESys text.
Proof.
  unfold Registrar.configPath.
  destruct (decide (TrimSpace (os_Getenv rt configEnvVar) = [])); simpl.
  - destruct (os_Getwd rt) as [cwd | text]; simpl; [| intros [= <-]; by eexists].
    destruct (filepath_Abs rt _) as [p | text]; simpl; [done |].
    intros [= <-]. by eexists.
  - destruct (filepath_Abs rt _) as [p | text]; simpl; [done |].
    intros [= <-]. by eexists.
Qed.

Lemma checks_ok rt fs args path cfg :
  Registrar.checks rt fs args = Ok (path, cfg) →
  Registrar.configPath rt = Ok path ∧ cfg = registeredConfig rt args
  ∧ Registrar.validateCommand (Registrar.registerArgs.Command args)
    = Ok (map TrimSpace (Registrar.registerArgs.Command args))
  ∧ Registrar.validateEnv (Registrar.registerArgs.Env args)
    = Ok (keptEntries (Registrar.registerArgs.Env args))
  ∧ workingDirOk fs (Registrar.registerArgs.WorkingDir args).
Proof.
  unfold Registrar.checks, registeredConfig, workingDirOk.
  pose proof (Registrar_validateCommand_spec (Registrar.registerArgs.Command args)) as Hc.
  pose proof (Registrar_validateEnv_spec (Registrar.registerArgs.Env args)) as He.
  destruct (Registrar.validateCommand _) as [command|]; [| done].
  destruct (Registrar.validateEnv _) as [env|]; [| done].
  destruct Hc as (_ & _ & ->). destruct He as [_ ->]. simpl.
  destruct (decide (Registrar.registerArgs.WorkingDir args = [])) as [Hwd | Hwd]; simpl.
  - destruct (Registrar.configPath rt) as [p|]; [| done]. simpl.
    intros [= <- <-]. repeat split; try done. by left.
  - unfold os_Stat.
    destruct (fs !! Registrar.registerArgs.WorkingDir args) as [[d|]|] eqn:Hst;
      simpl; try done.
    destruct (Registrar.configPath rt) as [p|]; [| done]. simpl.
    intros [= <- <-]. repeat split; try done. by right.
Qed.

(** A failure of the checks is the failure of [validateCommand], with one
    of its two errors, or another validation error, or the failure of
    [configPath]. *)
Lemma checks_err_cases rt fs args err :
  Registrar.checks rt fs args = Err err →
  (Registrar.validateCommand (Registrar.registerArgs.Command args) = Err err
   ∧ isCommandError err = true)
  ∨ (isCommandError err = false
     ∧ (isValidationError err = true ∨ Registrar.configPath rt = Err err)).
Proof.
  unfold Registrar.checks.
  pose proof (Registrar_validateCommand_spec (Registrar.registerArgs.Command args)) as Hc.
  pose proof (Registrar_validateEnv_spec (Registrar.registerArgs.Env args)) as He.
  destruct (Registrar.validateCommand _) as [command|e]; simpl.
  2:{ intros [= <-]. left. by destruct Hc as [[-> _] | [-> _]]. }
  destruct (Registrar.validateEnv _) as [env|e]; simpl.
  2:{ intros [= <-]. right. destruct He as (entry & -> & _). split; [done | by left]. }
  assert (Hpath : ∀ A (k : gostring → result A),
            (Registrar.configPath rt ≫= k) = Err err →
            (∃ p, Registrar.configPath rt = Ok p ∧ k p = Err err)
            ∨ (isCommandError err = false ∧ Registrar.configPath rt = Err err)).
  { intros A k. destruct (Registrar.configPath rt) as [p|e] eqn:Hp; simpl.
    - intros Hk. left. by exists p.
    - intros [= <-]. right. split; [| done].
      by destruct (configPath_err _ _ Hp) as [text ->]. }
  destruct (decide (Registrar.registerArgs.WorkingDir args = [])) as [Hwd | Hwd]; simpl.
  - intros H. apply Hpath in H as [(p & _ & Hk) | [Hce Hp]]; [done |].
    right. split; [done | by right].
  - unfold os_Stat.
    destruct (fs !! Registrar.registerArgs.WorkingDir args) as [[d|]|] eqn:Hst;
      simpl; try (intros [= <-]; right; split; [done | by left]).
    intros H. apply Hpath in H as [(p & _ & Hk) | [Hce Hp]]; [done |].
    right. split; [done | by right].
Qed.

Lemma checks_err rt fs args err :
  Registrar.checks rt fs args = Err err →
  isValidationError err = true ∨ Registrar.configPath rt = Err err.
Proof.
  intros H. destruct (checks_err_cases _ _ _ _ H) as [[_ Hce] | [_ Hrest]];
    [| done].
  left. by destruct err.
Qed.

(** A successful registration: the checks passed and [writeConfig] wrote
    the registered config. *)
Lemma register_ok_inv rt flt fs args fs' tool res :
  Registrar.register rt flt fs args = (fs', Ok (tool, res)) →
  ∃ path,
    Registrar.checks rt fs args = Ok (path, registeredConfig rt args)
    ∧ Registrar.writeConfig rt flt fs path (registeredConfig rt args) = (fs', Ok tt)
    ∧ Registrar.registerResult.ConfigPath res = path
    ∧ Registrar.registerResult.Command res
      = map TrimSpace (Registrar.registerArgs.Command args)
    ∧ Registrar.registerResult.WorkingDir res
      = Registrar.registerArgs.WorkingDir args
    ∧ Registrar.registerResult.Env res
      = keptEntries (Registrar.registerArgs.Env args)
    ∧ Registrar.registerResult.UpdatedAt res = time_Now rt
    ∧ IsError tool = false.
Proof.
  unfold Registrar.register.
  destruct (Registrar.checks rt fs args) as [[path cfg]|] eqn:Hch; [| done].
  destruct (checks_ok _ _ _ _ _ Hch) as (_ & -> & _).
  destruct (Registrar.writeConfig _ _ _ _ _) as [fs1 [[]|]] eqn:Hw; [| done].
  intros [= <- <- <-]. exists path. by repeat split.
Qed.

(** A failed registration failed in the checks, with the file system as it
    was, or in [writeConfig]. *)
Lemma register_err_inv rt flt fs args fs' err :
  Registrar.register rt flt fs args = (fs', Err err) →
  (Registrar.checks rt fs args = Err err ∧ fs' = fs)
  ∨ ∃ path,
      Registrar.checks rt fs args = Ok (path, registeredConfig rt args)
      ∧ Registrar.writeConfig rt flt fs path (registeredConfig rt args)
        = (fs', Err err).
Proof.
  unfold Registrar.register.
  destruct (Registrar.checks rt fs args) as [[path cfg]|] eqn:Hch.
  - destruct (checks_ok _ _ _ _ _ Hch) as (_ & -> & _).
    destruct (Registrar.writeConfig _ _ _ _ _) as [fs1 [[]|]] eqn:Hw; [done |].
    intros [= <- <-]. right. by exists path.
  - intros [= <- <-]. by left.
Qed.

End Registration.

Section Loading.

Implicit Types fs : filesystem.
Implicit Types rt : process.

(** [loadConfig] on a file holding a serialised config whose command and
    env are already validated: only the working directory is left to
    check. *)
Lemma loadConfig_serialised_eq rt fs path cfg :
  Verifier.configPath rt = Ok path →
  fs !! path = Some (File (JsonText (Registrar.marshalConfig cfg))) →
  Registrar.validateCommand (Registrar.Command cfg) = Ok (Registrar.Command cfg) →
  Registrar.validateEnv (Registrar.Env cfg) = Ok (Registrar.Env cfg) →
  Verifier.loadConfig rt fs
  = (_ ← (if decide (Registrar.WorkingDir cfg = []) then Ok tt
          else
            match os_Stat fs (Registrar.WorkingDir cfg) with
            | Err statErr => Err (EWorkingDirStat statErr)
            | Ok info =>
                if IsDir info then Ok tt
                else Err (EWorkingDirNotDir (Registrar.WorkingDir cfg))
            end);
     Ok (toVerifier cfg, path)).
Proof.
  intros Hpath Hfile Hcmd Henv. unfold Verifier.loadConfig.
  rewrite Hpath. cbn [mbind result_bind].
  unfold os_ReadFile. rewrite Hfile. cbn [wrapErr mbind result_bind].
  rewrite json_roundtrip. cbn [wrapErr mbind result_bind].
  rewrite Verifier_validateCommand_eq, Verifier_validateEnv_eq.
  destruct cfg as [command wd env at_]. unfold toVerifier.
  cbn [Registrar.Command Registrar.Env Registrar.WorkingDir Registrar.UpdatedAt
       Verifier.Command Verifier.Env Verifier.WorkingDir Verifier.UpdatedAt] in *.
  rewrite Hcmd, Henv. cbn [wrapErr mbind result_bind]. done.
Qed.

Lemma loadConfig_serialised rt fs path cfg :
  Verifier.configPath rt = Ok path →
  fs !! path = Some (File (JsonText (Registrar.marshalConfig cfg))) →
  Registrar.validateCommand (Registrar.Command cfg) = Ok (Registrar.Command cfg) →
  Registrar.validateEnv (Registrar.Env cfg) = Ok (Registrar.Env cfg) →
  workingDirOk fs (Registrar.WorkingDir cfg) →
  Verifier.loadConfig rt fs = Ok (toVerifier cfg, path).
Proof.
  intros Hpath Hfile Hcmd Henv Hwd.
  rewrite (loadConfig_serialised_eq _ _ _ _ Hpath Hfile Hcmd Henv).
  destruct (decide (Registrar.WorkingDir cfg = [])) as [E | Hne]; [done |].
  destruct Hwd as [E | Hdir]; [done |].
  unfold os_Stat. by rewrite Hdir.
Qed.

(** Whatever [loadConfig] returns from such a file is the serialised
    config. *)
Lemma loadConfig_serialised_inv rt fs path cfg loaded path' :
  Verifier.configPath rt = Ok path →
  fs !! path = Some (File (JsonText (Registrar.marshalConfig cfg))) →
  Registrar.validateCommand (Registrar.Command cfg) = Ok (Registrar.Command cfg) →
  Registrar.validateEnv (Registrar.Env cfg) = Ok (Registrar.Env cfg) →
  Verifier.loadConfig rt fs = Ok (loaded, path') →
  loaded = toVerifier cfg ∧ path' = path.
Proof.
  intros Hpath Hfile Hcmd Henv.
  rewrite (loadConfig_serialised_eq _ _ _ _ Hpath Hfile Hcmd Henv).
  destruct (decide (Registrar.WorkingDir cfg = [])) as [E | Hne];
    cbn [mbind result_bind]; [by intros [= <- <-] |].
  destruct (os_Stat fs (Registrar.WorkingDir cfg)) as [[d|]|];
    cbn [mbind result_bind IsDir]; try done. by intros [= <- <-].
Qed.

(** What a loaded config satisfies. *)
Lemma loadConfig_ok_inv rt fs cfg path :
  Verifier.loadConfig rt fs = Ok (cfg, path) →
  Verifier.configPath rt = Ok path
  ∧ Verifier.Command cfg ≠ []
  ∧ Forall (λ part, TrimSpace part = part ∧ part ≠ []) (Verifier.Command cfg)
  ∧ Forall (λ t, TrimSpace t = t ∧ t ≠ []) (Verifier.Env cfg)
  ∧ workingDirOk fs (Verifier.WorkingDir cfg).
Proof.
  unfold Verifier.loadConfig.
  destruct (Verifier.configPath rt) as [p|]; [| done]. cbn [mbind result_bind].
  destruct (os_ReadFile fs p) as [data|]; [| done]. cbn [wrapErr mbind result_bind].
  destruct (Verifier.json_Unmarshal data) as [raw|]; [| done].
  cbn [wrapErr mbind result_bind].
  rewrite Verifier_validateCommand_eq, Verifier_validateEnv_eq.
  pose proof (Registrar_validateCommand_spec (Verifier.Command raw)) as Hc.
  pose proof (Registrar_validateEnv_spec (Verifier.Env raw)) as He.
  destruct (Registrar.validateCommand _) as [command|]; [| done].
  destruct (Registrar.validateEnv _) as [env|]; [| done].
  cbn [wrapErr mbind result_bind].
  destruct Hc as (Hne & Hall & ->). destruct He as [_ ->].
  assert (Hprops :
    map TrimSpace (Verifier.Command raw) ≠ []
    ∧ Forall (λ part, TrimSpace part = part ∧ part ≠ [])
        (map TrimSpace (Verifier.Command raw))
    ∧ Forall (λ t, TrimSpace t = t ∧ t ≠ []) (keptEntries (Verifier.Env raw))).
  { split; [by destruct (Verifier.Command raw) |]. split.
    - apply Forall_fmap. eapply Forall_impl; [exact Hall |].
      intros part Hb. simpl. split; [apply TrimSpace_idem | exact Hb].
    - apply keptEntries_trimmed. }
  destruct Hprops as (H1 & H2 & H3).
  destruct (decide (Verifier.WorkingDir raw = [])) as [Hwd | Hwd].
  - cbn [mbind result_bind]. intros [= <- <-]. simpl.
    repeat split; try done. by left.
  - unfold os_Stat.
    destruct (fs !! Verifier.WorkingDir raw) as [[d|]|] eqn:Hst;
      cbn [mbind result_bind IsDir]; try done.
    intros [= <- <-]. simpl. repeat split; try done. by right.
Qed.

(** [loadConfig] never yields the error of [extra_args], nor a panic. *)
Lemma loadConfig_err rt fs err :
  Verifier.loadConfig rt fs = Err err →
  match err with
  | ESys _ | EReadConfig _ | EParseConfig _ | EConfigCommand _ | EConfigEnv _
  | EWorkingDirStat _ | EWorkingDirNotDir _ => True
  | _ => False
  end.
Proof.
  unfold Verifier.loadConfig.
  destruct (Verifier.configPath rt) as [p|e] eqn:Hp; cbn [mbind result_bind].
  2:{ intros [= <-]. rewrite configPath_eq in Hp.
      by destruct (configPath_err _ _ Hp) as [text ->]. }
  destruct (os_ReadFile fs p) as [data|]; cbn [wrapErr mbind result_bind];
    [| by intros [= <-]].
  destruct (Verifier.json_Unmarshal data) as [raw|];
    cbn [wrapErr mbind result_bind]; [| by intros [= <-]].
  destruct (Verifier.validateCommand _) as [command|];
    cbn [wrapErr mbind result_bind]; [| by intros [= <-]].
  destruct (Verifier.validateEnv _) as [env|];
    cbn [wrapErr mbind result_bind]; [| by intros [= <-]].
  destruct (decide (Verifier.WorkingDir raw = [])) as [Hwd | Hwd];
    cbn [mbind result_bind]; [done |].
  destruct (os_Stat fs (Verifier.WorkingDir raw)) as [[d|]|];
    cbn [mbind result_bind IsDir]; try done; by intros [= <-].
Qed.

End Loading.

(** ** Preparing the child process *)

Section Running.

Implicit Types fs : filesystem.
Implicit Types rt : process.
Implicit Types args : Verifier.runArgs.t.

(** The extra arguments as [run] uses them: rejected when some element is
    blank, trimmed otherwise; an empty list is let through. *)
Lemma extraArgs_spec (extra : list gostring) :
  match
    match Verifier.validateCommand extra with
    | Ok extraArgs => Ok extraArgs
    | Err err =>
        if (0 <? length extra)%nat then Err (EExtraArgs err) else Ok []
    end
  with
  | Ok extraArgs =>
      extraArgs = map TrimSpace extra ∧ Forall (λ part, ¬ blank part) extra
  | Err err =>
      err = EExtraArgs ECommandBlankEntry ∧ extra ≠ [] ∧ Exists blank extra
  end.
Proof.
  rewrite Verifier_validateCommand_eq.
  pose proof (Registrar_validateCommand_spec extra) as H.
  destruct (Registrar.validateCommand extra) as [l | err].
  - by destruct H as (_ & Hall & ->).
  - destruct H as [[-> ->] | [-> Hex]]; simpl.
    + split; [done | constructor].
    + destruct extra as [|part rest]; [by apply Exists_nil in Hex |].
      simpl. by repeat split.
Qed.

Lemma effectiveTimeout_code (timeoutSeconds : Z) :
  (if (timeoutSeconds <=? 0)%Z then Verifier.defaultTimeoutSeconds
   else timeoutSeconds) = effectiveTimeout timeoutSeconds.
Proof.
  unfold effectiveTimeout, Verifier.defaultTimeoutSeconds.
  destruct (Z.leb_spec timeoutSeconds 0), (Z.ltb_spec 0 timeoutSeconds); lia.
Qed.

Lemma effectiveTimeout_pos (timeoutSeconds : Z) :
  (0 <? effectiveTimeout timeoutSeconds)%Z = true.
Proof.
  unfold effectiveTimeout.
  destruct (Z.ltb_spec 0 timeoutSeconds) as [H | H]; [| done].
  by apply Z.ltb_lt.
Qed.

(** What [run] has prepared when it reaches [cmd.Start]. *)
Lemma prepare_ok_inv rt fs args cfg path cmdline (T : Z) (cmd : exec.Cmd) :
  Verifier.prepare rt fs args = Ok (cfg, path, cmdline, T, cmd) →
  Verifier.loadConfig rt fs = Ok (cfg, path)
  ∧ Forall (λ part, ¬ blank part) (Verifier.runArgs.ExtraArgs args)
  ∧ Verifier.validateEnv (Verifier.runArgs.Env args)
    = Ok (keptEntries (Verifier.runArgs.Env args))
  ∧ cmdline = Verifier.Command cfg
              ++ map TrimSpace (Verifier.runArgs.ExtraArgs args)
  ∧ T = effectiveTimeout (Verifier.runArgs.TimeoutSeconds args)
  ∧ exec.Args cmd = cmdline
  ∧ [exec.Path cmd] = take 1 cmdline
  ∧ exec.Dir cmd = Verifier.WorkingDir cfg
  ∧ childEnviron rt cmd
    = os_Environ rt ++ Verifier.Env cfg ++ keptEntries (Verifier.runArgs.Env args)
  ∧ exec.Timeout cmd = Some (wrap64 (T * 1000000000)).
Proof.
  unfold Verifier.prepare.
  destruct (Verifier.loadConfig rt fs) as [[cfg0 path0]|] eqn:Hload; [| done].
  cbn [mbind result_bind].
  pose proof (extraArgs_spec (Verifier.runArgs.ExtraArgs args)) as Hx.
  destruct (match Verifier.validateCommand (Verifier.runArgs.ExtraArgs args) with
            | Ok extraArgs => Ok extraArgs
            | Err err => _
            end) as [extraArgs|]; [| done].
  destruct Hx as [-> Hall]. cbn [mbind result_bind].
  rewrite Verifier_validateEnv_eq.
  pose proof (Registrar_validateEnv_spec (Verifier.runArgs.Env args)) as He.
  destruct (Registrar.validateEnv _) as [runEnv|]; [| done].
  destruct He as [_ ->]. cbn [mbind result_bind].
  rewrite effectiveTimeout_code, effectiveTimeout_pos.
  set (line := if (0 <? length (map TrimSpace (Verifier.runArgs.ExtraArgs args)))%nat
               then _ else _).
  assert (Hline : line = Verifier.Command cfg0
                         ++ map TrimSpace (Verifier.runArgs.ExtraArgs args)).
  { subst line. destruct (Verifier.runArgs.ExtraArgs args); simpl;
      [by rewrite app_nil_r | done]. }
  clearbody line. subst line.
  destruct (Verifier.Command cfg0 ++ _) as [|name rest] eqn:Hcmdline; [done |].
  intros [= <- <- <- <- <-]. rewrite Hcmdline.
  repeat split; try done.
  - simpl. by destruct (decide (Verifier.WorkingDir cfg0 = [])) as [-> |].
  - unfold childEnviron. simpl.
    destruct (Verifier.Env cfg0) as [|e0 env0] eqn:Hcfg;
      destruct (keptEntries (Verifier.runArgs.Env args)) as [|r0 run0] eqn:Hrun;
      simpl; rewrite ?app_nil_r, <- ?app_assoc; done.
Qed.

(** [run] reaches [cmd.Start] whenever the config loads, no extra argument
    is blank and the caller's env entries are blank or [KEY=VALUE]. *)
Lemma prepare_ok rt fs args cfg path :
  Verifier.loadConfig rt fs = Ok (cfg, path) →
  Forall (λ part, ¬ blank part) (Verifier.runArgs.ExtraArgs args) →
  Forall (λ entry, blank entry ∨ keyValue (TrimSpace entry))
    (Verifier.runArgs.Env args) →
  ∃ cmd,
    Verifier.prepare rt fs args
    = Ok (cfg, path,
          Verifier.Command cfg ++ map TrimSpace (Verifier.runArgs.ExtraArgs args),
          effectiveTimeout (Verifier.runArgs.TimeoutSeconds args), cmd).
Proof.
  intros Hload Hextra Henv. unfold Verifier.prepare.
  rewrite Hload. cbn [mbind result_bind].
  pose proof (extraArgs_spec (Verifier.runArgs.ExtraArgs args)) as Hx.
  destruct (match Verifier.validateCommand (Verifier.runArgs.ExtraArgs args) with
            | Ok extraArgs => Ok extraArgs
            | Err err => _
            end) as [extraArgs|].
  2:{ destruct Hx as (_ & _ & Hex). apply Exists_exists in Hex.
      destruct Hex as (part & Hin & Hb). rewrite Forall_forall in Hextra.
      by destruct (Hextra part Hin). }
  destruct Hx as [-> _]. cbn [mbind result_bind].
  rewrite Verifier_validateEnv_eq, (Registrar_validateEnv_ok _ Henv).
  cbn [mbind result_bind].
  rewrite effectiveTimeout_code, effectiveTimeout_pos.
  set (line := if (0 <? length (map TrimSpace (Verifier.runArgs.ExtraArgs args)))%nat
               then _ else _).
  assert (Hline : line = Verifier.Command cfg
                         ++ map TrimSpace (Verifier.runArgs.ExtraArgs args)).
  { subst line. destruct (Verifier.runArgs.ExtraArgs args); simpl;
      [by rewrite app_nil_r | done]. }
  clearbody line. subst line.
  destruct (loadConfig_ok_inv _ _ _ _ Hload) as (_ & Hne & _).
  destruct (Verifier.Command cfg) as [|name rest]; [done |].
  simpl. by eexists.
Qed.

(** Why [run] may fail before [cmd.Start]. *)
Lemma prepare_err_inv rt fs args err :
  Verifier.prepare rt fs args = Err err →
  Verifier.loadConfig rt fs = Err err
  ∨ (err = EExtraArgs ECommandBlankEntry
     ∧ Exists blank (Verifier.runArgs.ExtraArgs args))
  ∨ (∃ entry, err = EEnvEntry entry ∧ entry ∈ Verifier.runArgs.Env args
              ∧ ¬ blank entry ∧ ¬ keyValue (TrimSpace entry)).
Proof.
  unfold Verifier.prepare.
  destruct (Verifier.loadConfig rt fs) as [[cfg path]|] eqn:Hload;
    cbn [mbind result_bind]; [| intros [= <-]; by left].
  pose proof (extraArgs_spec (Verifier.runArgs.ExtraArgs args)) as Hx.
  destruct (match Verifier.validateCommand (Verifier.runArgs.ExtraArgs args) with
            | Ok extraArgs => Ok extraArgs
            | Err err => _
            end) as [extraArgs|]; cbn [mbind result_bind].
  2:{ intros [= <-]. right. left. by destruct Hx as (-> & _ & Hex). }
  destruct Hx as [-> _].
  rewrite Verifier_validateEnv_eq.
  pose proof (Registrar_validateEnv_spec (Verifier.runArgs.Env args)) as He.
  destruct (Registrar.validateEnv _) as [runEnv|]; cbn [mbind result_bind].
  2:{ intros [= <-]. right. right. exact He. }
  rewrite effectiveTimeout_code, effectiveTimeout_pos.
  set (line := if (0 <? length (map TrimSpace (Verifier.runArgs.ExtraArgs args)))%nat
               then _ else _).
  assert (Hline : line = Verifier.Command cfg
                         ++ map TrimSpace (Verifier.runArgs.ExtraArgs args)).
  { subst line. destruct (Verifier.runArgs.ExtraArgs args); simpl;
      [by rewrite app_nil_r | done]. }
  clearbody line. subst line.
  destruct (loadConfig_ok_inv _ _ _ _ Hload) as (_ & Hne & _).
  destruct (Verifier.Command cfg) as [|name rest]; [done |]. done.
Qed.

Lemma run_unfold rt (child : exec.Cmd → execution) fs args :
  Verifier.run rt child fs args =
  match Verifier.prepare rt fs args with
  | Err err => ([], Err err)
  | Ok (cfg, cfgPath, cmdline, timeoutSeconds, cmd) =>
      ([cmd], Ok (Verifier.finish cfg cfgPath cmdline timeoutSeconds (child cmd)))
  end.
Proof. reflexivity. Qed.

End Running.

(** ** The outcome of a run *)

Section RunOutcome.

Implicit Types fs : filesystem.
Implicit Types rt : process.
Implicit Types args : Verifier.runArgs.t.
Implicit Types cfg : Verifier.storedConfig.
Implicit Types ex : execution.

(** The result always reports the command line that was prepared. *)
Lemma finish_Command cfg path cmdline (T : Z) ex :
  Verifier.runResult.Command (Verifier.finish cfg path cmdline T ex).2 = cmdline.
Proof.
  unfold Verifier.finish.
  destruct (startErr ex); [done |].
  destruct (waitErr ex) as [[code | text]|], (deadlineExceeded ex),
    (processState ex); done.
Qed.

Lemma timeout_text_nonempty (T : Z) :
  lit "timed out after " ++ fmtInt T ++ lit " seconds" ≠ [].
Proof. done. Qed.

(** The outcome of a run that failed to start. *)
Lemma finish_start_failure cfg path cmdline (T : Z) ex text :
  startErr ex = Some text →
  Verifier.finish cfg path cmdline T ex =
  ({| IsError := true; Content := [text] |},
   {| Verifier.runResult.ConfigPath := path;
      Verifier.runResult.Command := cmdline;
      Verifier.runResult.WorkingDir := Verifier.WorkingDir cfg;
      Verifier.runResult.ExitCode := -1;
      Verifier.runResult.DurationMs := elapsedMs ex;
      Verifier.runResult.Stdout := stdout ex;
      Verifier.runResult.Stderr := stderr ex;
      Verifier.runResult.Success := false;
      Verifier.runResult.TimedOut := false;
      Verifier.runResult.Error := text;
      Verifier.runResult.UpdatedAt := Verifier.UpdatedAt cfg |}).
Proof. intros H. unfold Verifier.finish. by rewrite H. Qed.

(** The outcome of a run whose deadline passed before [Wait] returned. *)
Lemma finish_timed_out cfg path cmdline (T : Z) ex werr :
  startErr ex = None → waitErr ex = Some werr → deadlineExceeded ex = true →
  let res := (Verifier.finish cfg path cmdline T ex).2 in
  Verifier.runResult.TimedOut res = true
  ∧ Verifier.runResult.Success res = false
  ∧ Verifier.runResult.ExitCode res
    = match werr with ExitError code => code | WaitFailure _ => (-1)%Z end
  ∧ Verifier.runResult.Error res
    = lit "timed out after " ++ fmtInt T ++ lit " seconds".
Proof.
  intros Hs Hw Hd. unfold Verifier.finish. rewrite Hs, Hw, Hd.
  destruct werr as [code | text]; [done |].
  destruct (decide (lit "timed out after " ++ fmtInt T ++ lit " seconds" = []))
    as [E | _]; [by apply timeout_text_nonempty in E | done].
Qed.

(** The error flag of the tool response. *)
Lemma finish_error_flag cfg path cmdline (T : Z) ex :
  let '(tool, res) := Verifier.finish cfg path cmdline T ex in
  Verifier.runResult.ExitCode res = (-1)%Z →
  Verifier.runResult.Error res ≠ [] →
  IsError tool = true.
Proof.
  unfold Verifier.finish.
  destruct (startErr ex); [done |].
  destruct (waitErr ex) as [[code | text]|], (deadlineExceeded ex),
    (processState ex); simpl; intros Hc He;
    rewrite ?bool_decide_eq_true_2, ?bool_decide_eq_false_2 by done; done.
Qed.

Lemma lookupEnv_app (a b : list gostring) key :
  lookupEnv (a ++ b) key
  = match lookupEnv b key with
    | Some v => Some v
    | None => lookupEnv a key
    end.
Proof.
  induction a as [|entry a IH]; simpl.
  - by destruct (lookupEnv b key).
  - rewrite IH. by destruct (lookupEnv b key).
Qed.

End RunOutcome.

Lemma error_classes_disjoint err :
  isIOError err = true → isValidationError err = false.
Proof. by destruct err. Qed.

(** * The claims *)

(** The sample registration and the sample run, evaluated. *)
Lemma sample_registration :
  Registrar.register sample_rt no_faults sample_fs sample_args
  = (sample_fs_registered, Ok (sample_tool, sample_result)).
Proof. vm_compute. reflexivity. Defined.

Lemma sample_run_prepared :
  Verifier.prepare sample_rt sample_fs_registered sample_run_args
  = Ok (toVerifier sample_config, sample_path,
        [lit "go"; lit "test"; lit "./..."; lit "-run"; lit "TestLoad"], 30%Z,
        {| exec.Path := lit "go";
           exec.Args :=
             [lit "go"; lit "test"; lit "./..."; lit "-run"; lit "TestLoad"];
           exec.Dir := lit "/srv/app";
           exec.Env :=
             Some [lit "PATH=/usr/bin"; lit "LANG=C"; lit "LANG=en_US.UTF-8";
                   lit "GOFLAGS=-count=1"; lit "LANG=C.UTF-8"];
           exec.Timeout := Some 30000000000%Z |}).
Proof. vm_compute. reflexivity. Defined.

(** C1, as stated, fails.  A config of [make check] is on disk; a new
    registration writes its temporary file, both renames fail and the
    fallback has removed the destination in between: the registration
    returns the error of the move, and the config file that was there is
    gone. *)
Lemma register_rename_failure_deletes_config :
  old_fs !! sample_path
  = Some (File (JsonText (Registrar.marshalConfig old_config)))
  ∧ Registrar.register sample_rt rename_faults old_fs sample_args
    = (delete sample_path old_fs, Err (EMoveConfig EIO))
  ∧ isIOError (EMoveConfig EIO) = true
  ∧ delete sample_path old_fs !! sample_path = None.
Proof. vm_compute. repeat split; reflexivity. Qed.

(** The other half of what C1 promises: when the write of the temporary
    file stops half-way, the handler returns at once and the truncated
    temporary file stays on disk. *)
Example register_write_failure_leaves_temp :
  Registrar.register sample_rt write_faults old_fs sample_args
  = (<[ sample_path ++ lit ".tmp"
        := File (Truncated (Registrar.marshalConfig sample_config) 10) ]> old_fs,
     Err (EWriteTemp EIO)).
Proof. vm_compute. reflexivity. Qed.

(** C1, amended.  When the persistence step of a registration fails with an
    IOError: after a failed directory creation or temp-file write the
    config file that was on disk keeps its contents; after a rename whose
    retry failed too, the temporary file is gone whenever its removal went
    through, and the config file that was on disk either keeps its contents
    (the fallback removal of the destination failed) or no longer exists
    (it went through).  The config path never holds new or partial
    contents: whatever stood there before the call, a config file, a
    directory or nothing, a file found there after the failure is the file
    that was there before, with the contents it had. *)
Theorem register_persist_failure (rt : process) (flt : faults)
    (fs fs' : filesystem) (args : Registrar.registerArgs.t) (err : error)
    (path : gostring) :
  Registrar.register rt flt fs args = (fs', Err err) →
  Registrar.configPath rt = Ok path →
  isIOError err = true →
  match err with
  | EMoveConfig _ =>
      (removeTempFails flt = false → fs' !! (path ++ lit ".tmp") = None)
      ∧ ∀ old, fs !! path = Some (File old) →
               fs' !! path = if removeDestFails flt then Some (File old) else None
  | EMkdir _ | EWriteTemp _ =>
      ∀ old, fs !! path = Some (File old) → fs' !! path = Some (File old)
  | _ => True
  end
  ∧ ∀ data, fs' !! path = Some (File data) → fs !! path = Some (File data).
Proof.
  intros Hreg Hpath Hio.
  destruct (register_err_inv _ _ _ _ _ _ Hreg) as [[Hch ->] | (p & Hch & Hw)].
  - destruct (checks_err _ _ _ _ Hch) as [Hv | Hp].
    + rewrite (error_classes_disjoint _ Hio) in Hv. done.
    + congruence.
  - destruct (checks_ok _ _ _ _ _ Hch) as (Hp & _).
    assert (p = path) as -> by congruence.
    split.
    + apply writeConfig_err in Hw. by destruct err.
    + intros data. by eapply writeConfig_err_file.
Qed.

Lemma register_persist_failure_witness :
  delete sample_path old_fs !! (sample_path ++ lit ".tmp") = None
  ∧ delete sample_path old_fs !! sample_path = None.
Proof.
  pose proof (register_persist_failure sample_rt rename_faults old_fs
                (delete sample_path old_fs) sample_args (EMoveConfig EIO)
                sample_path) as H.
  cbv beta iota in H.
  destruct H as [[Htmp Hold] _].
  - vm_compute. reflexivity.
  - vm_compute. reflexivity.
  - reflexivity.
  - split.
    + apply Htmp. reflexivity.
    + apply (Hold (JsonText (Registrar.marshalConfig old_config))).
      vm_compute. reflexivity.
Defined.

(** C2.  After a successful registration the config file holds a document
    that parses to the registered config, whose command and env pass the
    Verifier's validation unchanged; a Verifier resolving the same path
    loads it from any file system that still holds the file as written
    and in which the working directory, if set, is a directory. *)
Theorem registered_config_loads (rtR rtV : process) (flt : faults)
    (fs fs' fs'' : filesystem) (args : Registrar.registerArgs.t)
    (tool : CallToolResult) (res : Registrar.registerResult.t) :
  Registrar.register rtR flt fs args = (fs', Ok (tool, res)) →
  Verifier.configPath rtV = Ok (Registrar.registerResult.ConfigPath res) →
  fs'' !! Registrar.registerResult.ConfigPath res
  = fs' !! Registrar.registerResult.ConfigPath res →
  workingDirOk fs'' (Registrar.registerArgs.WorkingDir args) →
  let cfg := toVerifier (registeredConfig rtR args) in
  (∃ data, os_ReadFile fs' (Registrar.registerResult.ConfigPath res) = Ok data
           ∧ Verifier.json_Unmarshal data = Ok cfg)
  ∧ Verifier.validateCommand (Verifier.Command cfg) = Ok (Verifier.Command cfg)
  ∧ Verifier.validateEnv (Verifier.Env cfg) = Ok (Verifier.Env cfg)
  ∧ Verifier.loadConfig rtV fs''
    = Ok (cfg, Registrar.registerResult.ConfigPath res).
Proof.
  intros Hreg Hpath Hsame Hwd cfg.
  destruct (register_ok_inv _ _ _ _ _ _ _ Hreg) as (path & Hch & Hw & Hp & _).
  rewrite Hp in *.
  destruct (checks_ok _ _ _ _ _ Hch) as (_ & _ & Hcmd & Henv & _).
  apply Registrar_validateCommand_idem in Hcmd.
  apply Registrar_validateEnv_idem in Henv.
  pose proof (writeConfig_ok _ _ _ _ _ _ Hw) as Hfile.
  split; [| split; [| split]].
  - exists (JsonText (Registrar.marshalConfig (registeredConfig rtR args))).
    unfold os_ReadFile. rewrite Hfile. split; [done | apply json_roundtrip].
  - by rewrite Verifier_validateCommand_eq.
  - by rewrite Verifier_validateEnv_eq.
  - apply loadConfig_serialised; try done. by rewrite Hsame.
Qed.

Lemma registered_config_loads_witness :
  Verifier.loadConfig sample_rt sample_fs_registered
  = Ok (toVerifier (registeredConfig sample_rt sample_args), sample_path).
Proof.
  refine (proj2 (proj2 (proj2
    (registered_config_loads sample_rt sample_rt no_faults sample_fs
       sample_fs_registered sample_fs_registered sample_args sample_tool
       sample_result sample_registration _ eq_refl _)))).
  - vm_compute. reflexivity.
  - right. vm_compute. reflexivity.
Defined.

(** C3.  After a successful registration, whatever command a run starts
    has as its command line the registered command followed by the
    caller's extra arguments, each trimmed, in the caller's order; its
    executable is the first element of the registered command; with no
    extra arguments the command line is the registered command; the result
    reports that same command line; and the run does start a command
    whenever the working directory still is one, no extra argument is
    blank and the caller's env is well-formed. *)
Theorem run_executes_registered_command (rtR rtV : process) (flt : faults)
    (fs fs' fs'' : filesystem) (args : Registrar.registerArgs.t)
    (tool : CallToolResult) (res : Registrar.registerResult.t)
    (child : exec.Cmd → execution) (rargs : Verifier.runArgs.t) :
  Registrar.register rtR flt fs args = (fs', Ok (tool, res)) →
  Verifier.configPath rtV = Ok (Registrar.registerResult.ConfigPath res) →
  fs'' !! Registrar.registerResult.ConfigPath res
  = fs' !! Registrar.registerResult.ConfigPath res →
  let stored := Registrar.registerResult.Command res in
  let extra := Verifier.runArgs.ExtraArgs rargs in
  let ran := Verifier.run rtV child fs'' rargs in
  stored = map TrimSpace (Registrar.registerArgs.Command args)
  ∧ (∀ cmd, cmd ∈ ran.1 →
       exec.Args cmd = stored ++ map TrimSpace extra
       ∧ [exec.Path cmd] = take 1 stored
       ∧ (extra = [] → exec.Args cmd = stored))
  ∧ (∀ tool' r, ran.2 = Ok (tool', r) →
       ∃ cmd, ran.1 = [cmd] ∧ Verifier.runResult.Command r = exec.Args cmd)
  ∧ (workingDirOk fs'' (Registrar.registerArgs.WorkingDir args) →
     Forall (λ part, ¬ blank part) extra →
     Forall (λ entry, blank entry ∨ keyValue (TrimSpace entry))
       (Verifier.runArgs.Env rargs) →
     ∃ cmd, ran.1 = [cmd]).
Proof.
  intros Hreg Hpath Hsame stored extra ran.
  destruct (register_ok_inv _ _ _ _ _ _ _ Hreg)
    as (path & Hch & Hw & Hp & Hstored & _).
  rewrite Hp in *.
  destruct (checks_ok _ _ _ _ _ Hch) as (_ & _ & Hcmd & Henv & _).
  pose proof (Registrar_validateCommand_spec (Registrar.registerArgs.Command args)) as Hne.
  rewrite Hcmd in Hne. destruct Hne as (Hne & _).
  apply Registrar_validateCommand_idem in Hcmd.
  apply Registrar_validateEnv_idem in Henv.
  pose proof (writeConfig_ok _ _ _ _ _ _ Hw) as Hfile. rewrite <- Hsame in Hfile.
  split; [exact Hstored |].
  subst ran. rewrite run_unfold.
  destruct (Verifier.prepare rtV fs'' rargs)
    as [[[[[cfg p] cmdline] T] cmd] | err] eqn:Hprep; simpl.
  - destruct (prepare_ok_inv _ _ _ _ _ _ _ _ Hprep)
      as (Hload & _ & _ & Hline & _ & Hargs & Hexe & _).
    destruct (loadConfig_serialised_inv _ _ _ _ _ _ Hpath Hfile Hcmd Henv Hload)
      as [-> ->].
    assert (Hcfg : Verifier.Command (toVerifier (registeredConfig rtR args)) = stored).
    { subst stored. by rewrite Hstored. }
    rewrite Hcfg in Hline.
    split; [| split].
    + intros c Hc. apply list_elem_of_singleton in Hc as ->.
      rewrite Hargs, Hexe, Hline. split; [done |]. split.
      * subst stored. rewrite Hstored.
        by destruct (Registrar.registerArgs.Command args).
      * intros Hex. subst extra. rewrite Hex. apply app_nil_r.
    + intros tool' r [= Hfin]. exists cmd. split; [done |].
      pose proof (finish_Command (toVerifier (registeredConfig rtR args)) path
                    cmdline T (child cmd)) as Hc.
      rewrite Hfin in Hc. simpl in Hc. by rewrite Hc, Hargs.
    + intros _ _ _. by exists cmd.
  - split; [| split].
    + intros c Hc. by apply not_elem_of_nil in Hc.
    + done.
    + intros Hwd Hextra Hrun.
      pose proof (loadConfig_serialised _ _ _ _ Hpath Hfile Hcmd Henv Hwd) as Hload.
      destruct (prepare_ok _ _ rargs _ _ Hload Hextra Hrun) as [c Hc].
      congruence.
Qed.

Lemma run_executes_registered_command_witness :
  ∃ cmd, (Verifier.run sample_rt killed_child sample_fs_registered
            sample_run_args).1 = [cmd].
Proof.
  assert (Hpath : Verifier.configPath sample_rt = Ok sample_path)
    by (vm_compute; reflexivity).
  assert (Hwd : workingDirOk sample_fs_registered
                  (Registrar.registerArgs.WorkingDir sample_args))
    by (right; vm_compute; reflexivity).
  assert (Hextra : Forall (λ part, ¬ blank part)
                     (Verifier.runArgs.ExtraArgs sample_run_args))
    by (repeat constructor; vm_compute; discriminate).
  assert (Henv : Forall (λ entry, blank entry ∨ keyValue (TrimSpace entry))
                   (Verifier.runArgs.Env sample_run_args)).
  { constructor; [| constructor].
    right. exists (lit "LANG"), (lit "C.UTF-8").
    split; [vm_compute; reflexivity |]. split; [discriminate | compute_done]. }
  exact (proj2 (proj2 (proj2
    (run_executes_registered_command sample_rt sample_rt no_faults sample_fs
       sample_fs_registered sample_fs_registered sample_args sample_tool
       sample_result killed_child sample_run_args sample_registration Hpath
       eq_refl))) Hwd Hextra Henv).
Defined.

(** C4.  A run whose process started and whose deadline passed before the
    process exited, so that [Wait] returned an error and the context of
    the run reports [DeadlineExceeded]: the timeout in force is the caller's [timeout_seconds]
    when positive and 600 otherwise; the result has [timed_out] set and
    [success] cleared, its exit code is the one the exit error of the
    killed process carries (-1 when [Wait] failed with any other error),
    and its error text is "timed out after N seconds", N being that
    timeout. *)
Theorem run_timeout_result (rt : process) (child : exec.Cmd → execution)
    (fs : filesystem) (args : Verifier.runArgs.t) (cfg : Verifier.storedConfig)
    (path : gostring) (cmdline : list gostring) (T : Z) (cmd : exec.Cmd)
    (werr : waitError) :
  Verifier.prepare rt fs args = Ok (cfg, path, cmdline, T, cmd) →
  startErr (child cmd) = None →
  waitErr (child cmd) = Some werr →
  deadlineExceeded (child cmd) = true →
  T = effectiveTimeout (Verifier.runArgs.TimeoutSeconds args)
  ∧ exec.Timeout cmd = Some (wrap64 (T * 1000000000))
  ∧ ∃ tool res,
      Verifier.run rt child fs args = ([cmd], Ok (tool, res))
      ∧ Verifier.runResult.TimedOut res = true
      ∧ Verifier.runResult.Success res = false
      ∧ Verifier.runResult.ExitCode res
        = match werr with ExitError code => code | WaitFailure _ => (-1)%Z end
      ∧ Verifier.runResult.Error res
        = lit "timed out after " ++ fmtInt T ++ lit " seconds".
Proof.
  intros Hprep Hs Hw Hd.
  destruct (prepare_ok_inv _ _ _ _ _ _ _ _ Hprep)
    as (_ & _ & _ & _ & HT & _ & _ & _ & _ & Htimeout).
  split; [done |]. split; [done |].
  rewrite run_unfold, Hprep.
  pose proof (finish_timed_out cfg path cmdline T (child cmd) werr Hs Hw Hd) as H.
  destruct (Verifier.finish cfg path cmdline T (child cmd)) as [tool res].
  by exists tool, res.
Qed.

Lemma run_timeout_result_witness :
  ∃ tool res,
    Verifier.run sample_rt killed_child sample_fs_registered sample_run_args
    = ([{| exec.Path := lit "go";
           exec.Args :=
             [lit "go"; lit "test"; lit "./..."; lit "-run"; lit "TestLoad"];
           exec.Dir := lit "/srv/app";
           exec.Env :=
             Some [lit "PATH=/usr/bin"; lit "LANG=C"; lit "LANG=en_US.UTF-8";
                   lit "GOFLAGS=-count=1"; lit "LANG=C.UTF-8"];
           exec.Timeout := Some 30000000000%Z |}], Ok (tool, res))
    ∧ Verifier.runResult.TimedOut res = true
    ∧ Verifier.runResult.Success res = false
    ∧ Verifier.runResult.ExitCode res = (-1)%Z
    ∧ Verifier.runResult.Error res
      = lit "timed out after " ++ fmtInt 30 ++ lit " seconds".
Proof.
  exact (proj2 (proj2
    (run_timeout_result sample_rt killed_child sample_fs_registered
       sample_run_args _ _ _ _ _ (ExitError (-1)) sample_run_prepared
       eq_refl eq_refl eq_refl))).
Defined.

(** C5.  A run whose process fails to start returns normally, with a tool
    response flagged as an error that carries the error text, and a result
    with exit code -1, [success] and [timed_out] cleared and that text,
    non-empty as the texts of the runtime's errors are, as its error. *)
Theorem run_start_failure (rt : process) (child : exec.Cmd → execution)
    (fs : filesystem) (args : Verifier.runArgs.t) (cfg : Verifier.storedConfig)
    (path : gostring) (cmdline : list gostring) (T : Z) (cmd : exec.Cmd)
    (text : gostring) :
  Verifier.prepare rt fs args = Ok (cfg, path, cmdline, T, cmd) →
  startErr (child cmd) = Some text →
  text ≠ [] →
  ∃ tool res,
    Verifier.run rt child fs args = ([cmd], Ok (tool, res))
    ∧ IsError tool = true
    ∧ Content tool = [text]
    ∧ Verifier.runResult.ExitCode res = (-1)%Z
    ∧ Verifier.runResult.Success res = false
    ∧ Verifier.runResult.TimedOut res = false
    ∧ Verifier.runResult.Error res = text
    ∧ Verifier.runResult.Error res ≠ [].
Proof.
  intros Hprep Hs Hne.
  rewrite run_unfold, Hprep, (finish_start_failure _ _ _ _ _ _ Hs).
  eexists _, _. split; [reflexivity |]. by repeat split.
Qed.

Lemma run_start_failure_witness :
  ∃ tool res,
    Verifier.run sample_rt missing_child sample_fs_registered sample_run_args
    = ([{| exec.Path := lit "go";
           exec.Args :=
             [lit "go"; lit "test"; lit "./..."; lit "-run"; lit "TestLoad"];
           exec.Dir := lit "/srv/app";
           exec.Env :=
             Some [lit "PATH=/usr/bin"; lit "LANG=C"; lit "LANG=en_US.UTF-8";
                   lit "GOFLAGS=-count=1"; lit "LANG=C.UTF-8"];
           exec.Timeout := Some 30000000000%Z |}], Ok (tool, res))
    ∧ IsError tool = true
    ∧ Content tool = [lit "exec: no such file or directory"]
    ∧ Verifier.runResult.ExitCode res = (-1)%Z
    ∧ Verifier.runResult.Success res = false
    ∧ Verifier.runResult.TimedOut res = false
    ∧ Verifier.runResult.Error res = lit "exec: no such file or directory"
    ∧ Verifier.runResult.Error res ≠ [].
Proof.
  apply (run_start_failure sample_rt missing_child sample_fs_registered
           sample_run_args _ _ _ _ _ _ sample_run_prepared eq_refl).
  discriminate.
Defined.

(** C6.  The environment of the child of a run is the parent's environment,
    then the env entries of the loaded config, then the caller's kept
    entries, in that order; since the last entry of a key wins, a caller
    entry overrides a config entry, which overrides an inherited one; and
    the config entries are those of the registration, as validated, in
    their order. *)
Theorem run_child_environment (rt : process) (fs : filesystem)
    (args : Verifier.runArgs.t) (cfg : Verifier.storedConfig) (path : gostring)
    (cmdline : list gostring) (T : Z) (cmd : exec.Cmd) :
  Verifier.prepare rt fs args = Ok (cfg, path, cmdline, T, cmd) →
  let runEnv := keptEntries (Verifier.runArgs.Env args) in
  Verifier.loadConfig rt fs = Ok (cfg, path)
  ∧ Verifier.validateEnv (Verifier.runArgs.Env args) = Ok runEnv
  ∧ childEnviron rt cmd = os_Environ rt ++ Verifier.Env cfg ++ runEnv
  ∧ (∀ key,
       lookupEnv (childEnviron rt cmd) key
       = match lookupEnv runEnv key with
         | Some v => Some v
         | None =>
             match lookupEnv (Verifier.Env cfg) key with
             | Some v => Some v
             | None => lookupEnv (os_Environ rt) key
             end
         end)
  ∧ (∀ (rtR : process) (flt : faults) (fs0 fs1 : filesystem)
       (rargs : Registrar.registerArgs.t) (tool : CallToolResult)
       (res : Registrar.registerResult.t),
       Registrar.register rtR flt fs0 rargs = (fs1, Ok (tool, res)) →
       Registrar.registerResult.ConfigPath res = path →
       fs !! path = fs1 !! path →
       Verifier.Env cfg = Registrar.registerResult.Env res
       ∧ Verifier.Env cfg = keptEntries (Registrar.registerArgs.Env rargs)).
Proof.
  intros Hprep runEnv.
  destruct (prepare_ok_inv _ _ _ _ _ _ _ _ Hprep)
    as (Hload & _ & Hrun & _ & _ & _ & _ & _ & Henv & _).
  split; [done |]. split; [done |]. split; [done |]. split.
  - intros key. rewrite Henv, !lookupEnv_app. fold runEnv.
    by destruct (lookupEnv runEnv key), (lookupEnv (Verifier.Env cfg) key).
  - intros rtR flt fs0 fs1 rargs tool res Hreg Hp Hsame.
    destruct (register_ok_inv _ _ _ _ _ _ _ Hreg)
      as (p & Hch & Hw & Hp' & _ & _ & Hres & _).
    assert (p = path) as -> by congruence.
    destruct (checks_ok _ _ _ _ _ Hch) as (_ & _ & Hc & He & _).
    apply Registrar_validateCommand_idem in Hc.
    apply Registrar_validateEnv_idem in He.
    pose proof (writeConfig_ok _ _ _ _ _ _ Hw) as Hfile. rewrite <- Hsame in Hfile.
    destruct (loadConfig_ok_inv _ _ _ _ Hload) as (Hpath & _).
    destruct (loadConfig_serialised_inv _ _ _ _ _ _ Hpath Hfile Hc He Hload)
      as [-> _].
    by rewrite Hres.
Qed.

Lemma run_child_environment_witness :
  lookupEnv
    [lit "PATH=/usr/bin"; lit "LANG=C"; lit "LANG=en_US.UTF-8";
     lit "GOFLAGS=-count=1"; lit "LANG=C.UTF-8"] (lit "LANG")
  = match lookupEnv (keptEntries (Verifier.runArgs.Env sample_run_args))
            (lit "LANG") with
    | Some v => Some v
    | None =>
        match lookupEnv (Verifier.Env (toVerifier sample_config)) (lit "LANG") with
        | Some v => Some v
        | None => lookupEnv (os_Environ sample_rt) (lit "LANG")
        end
    end.
Proof.
  exact (proj1 (proj2 (proj2 (proj2
    (run_child_environment sample_rt sample_fs_registered sample_run_args
       _ _ _ _ _ sample_run_prepared)))) (lit "LANG")).
Defined.

(** C7.  The env validator, which is the same function in both programs
    and is the one applied by [register], by [run] to its own [env]
    argument and by [loadConfig]: it drops the entries that are blank
    after trimming; it succeeds exactly when every other entry, trimmed,
    splits at its first ['='] into a non-empty key and a value, and then
    returns those entries, each as its whole trimmed string, in their
    order; otherwise it fails with a validation error naming an offending
    entry, and so does the operation that called it. *)
Theorem validateEnv_contract (env : list gostring) :
  Verifier.validateEnv env = Registrar.validateEnv env
  ∧ match Registrar.validateEnv env with
    | Ok clean =>
        Forall (λ entry, blank entry ∨ keyValue (TrimSpace entry)) env
        ∧ clean = keptEntries env
    | Err err =>
        isValidationError err = true
        ∧ (∃ entry, err = EEnvEntry entry ∧ entry ∈ env
                    ∧ ¬ blank entry ∧ ¬ keyValue (TrimSpace entry))
        ∧ (∀ (rt : process) (flt : faults) (fs : filesystem)
             (command : list gostring) (dir : gostring),
             command ≠ [] → Forall (λ part, ¬ blank part) command →
             Registrar.register rt flt fs
               {| Registrar.registerArgs.Command := command;
                  Registrar.registerArgs.WorkingDir := dir;
                  Registrar.registerArgs.Env := env |}
             = (fs, Err err))
        ∧ (∀ (rt : process) (child : exec.Cmd → execution) (fs : filesystem)
             (args : Verifier.runArgs.t) (cfg : Verifier.storedConfig)
             (path : gostring),
             Verifier.runArgs.Env args = env →
             Verifier.loadConfig rt fs = Ok (cfg, path) →
             Forall (λ part, ¬ blank part) (Verifier.runArgs.ExtraArgs args) →
             Verifier.run rt child fs args = ([], Err err))
        ∧ (∀ (rt : process) (fs : filesystem) (path : gostring) (data : bytes)
             (raw : Verifier.storedConfig) (command : list gostring),
             Verifier.configPath rt = Ok path →
             os_ReadFile fs path = Ok data →
             Verifier.json_Unmarshal data = Ok raw →
             Verifier.Env raw = env →
             Verifier.validateCommand (Verifier.Command raw) = Ok command →
             Verifier.loadConfig rt fs = Err (EConfigEnv err))
    end.
Proof.
  split; [apply Verifier_validateEnv_eq |].
  pose proof (Registrar_validateEnv_spec env) as Hspec.
  destruct (Registrar.validateEnv env) as [clean | err] eqn:Hv; [done |].
  split; [by destruct Hspec as (entry & -> & _) |].
  split; [done |]. split; [| split].
  - intros rt flt fs command dir Hne Hall.
    unfold Registrar.register, Registrar.checks. simpl.
    by rewrite (Registrar_validateCommand_ok _ Hne Hall), Hv.
  - intros rt child fs args cfg path Henv Hload Hall.
    rewrite run_unfold. unfold Verifier.prepare.
    rewrite Hload. cbn [mbind result_bind].
    pose proof (extraArgs_spec (Verifier.runArgs.ExtraArgs args)) as Hx.
    destruct (match Verifier.validateCommand (Verifier.runArgs.ExtraArgs args) with
              | Ok extraArgs => Ok extraArgs
              | Err err => _
              end) as [extraArgs|].
    2:{ destruct Hx as (_ & _ & Hex). apply Exists_exists in Hex.
        destruct Hex as (part & Hin & Hb). rewrite Forall_forall in Hall.
        by destruct (Hall part Hin). }
    cbn [mbind result_bind].
    by rewrite Henv, Verifier_validateEnv_eq, Hv.
  - intros rt fs path data raw command Hpath Hread Hparse Henv Hcmd.
    unfold Verifier.loadConfig.
    rewrite Hpath. cbn [mbind result_bind].
    rewrite Hread. cbn [wrapErr mbind result_bind].
    rewrite Hparse. cbn [wrapErr mbind result_bind].
    rewrite Hcmd. cbn [wrapErr mbind result_bind].
    by rewrite Henv, Verifier_validateEnv_eq, Hv.
Qed.

(** C8, as stated, fails in one direction: a registration with a
    well-formed command fails with a validation error when an env entry is
    not [KEY=VALUE]. *)
Lemma register_env_failure_with_valid_command :
  Registrar.register sample_rt no_faults sample_fs bad_env_args
  = (sample_fs, Err (EEnvEntry (lit "VERBOSE")))
  ∧ isValidationError (EEnvEntry (lit "VERBOSE")) = true
  ∧ Registrar.registerArgs.Command bad_env_args = [lit "go"; lit "test"]
  ∧ TrimSpace (lit "go") = lit "go" ∧ TrimSpace (lit "test") = lit "test".
Proof. vm_compute. repeat split; reflexivity. Qed.

(** C8, amended.  [register] fails with one of the two command errors
    exactly when the command sequence is empty or has an element that is
    blank after trimming; whenever it fails with a validation error, of the
    command or of anything else, no file is written; on success the
    persisted command is the input trimmed element by element, length and
    order kept, and the result echoes it. *)
Theorem register_command_contract (rt : process) (flt : faults)
    (fs : filesystem) (args : Registrar.registerArgs.t) :
  let command := Registrar.registerArgs.Command args in
  ((∃ fs' err, Registrar.register rt flt fs args = (fs', Err err)
               ∧ isCommandError err = true)
   ↔ command = [] ∨ Exists blank command)
  ∧ (∀ fs' err, Registrar.register rt flt fs args = (fs', Err err) →
                isValidationError err = true → fs' = fs)
  ∧ (∀ fs' tool res,
       Registrar.register rt flt fs args = (fs', Ok (tool, res)) →
       ∃ cfg,
         fs' !! Registrar.registerResult.ConfigPath res
         = Some (File (JsonText (Registrar.marshalConfig cfg)))
         ∧ Registrar.Command cfg = map TrimSpace command
         ∧ Registrar.registerResult.Command res = map TrimSpace command
         ∧ length (Registrar.Command cfg) = length command).
Proof.
  intros command. split; [| split].
  - pose proof (Registrar_validateCommand_spec command) as Hspec. split.
    + intros (fs' & err & Hreg & Hce).
      destruct (register_err_inv _ _ _ _ _ _ Hreg) as [[Hch _] | (p & _ & Hw)].
      * destruct (checks_err_cases _ _ _ _ Hch) as [[Hv _] | [Hn _]];
          [| congruence].
        fold command in Hv. rewrite Hv in Hspec.
        destruct Hspec as [[_ ->] | [_ Hex]]; [by left | by right].
      * apply writeConfig_err in Hw. by destruct err.
    + intros Hbad.
      assert (∃ err, Registrar.validateCommand command = Err err
                     ∧ isCommandError err = true) as (err & Hv & Hce).
      { destruct (Registrar.validateCommand command) as [clean | e].
        - destruct Hspec as (Hne & Hall & _). destruct Hbad as [-> | Hex]; [done |].
          apply Exists_exists in Hex. destruct Hex as (part & Hin & Hb).
          rewrite Forall_forall in Hall. by destruct (Hall part Hin).
        - exists e. split; [done |].
          by destruct Hspec as [[-> _] | [-> _]]. }
      exists fs, err. split; [| done].
      unfold Registrar.register, Registrar.checks. fold command. by rewrite Hv.
  - intros fs' err Hreg Hv.
    destruct (register_err_inv _ _ _ _ _ _ Hreg) as [[_ ->] | (p & _ & Hw)];
      [done |].
    pose proof (writeConfig_result rt flt fs p (registeredConfig rt args)) as Hio.
    rewrite Hw in Hio. by rewrite (error_classes_disjoint _ Hio) in Hv.
  - intros fs' tool res Hreg.
    destruct (register_ok_inv _ _ _ _ _ _ _ Hreg)
      as (path & Hch & Hw & Hp & Hcmd & _).
    exists (registeredConfig rt args). rewrite Hp.
    split; [by eapply writeConfig_ok |].
    split; [done |]. split; [done |]. simpl. by rewrite length_map.
Qed.

(** C9.  Every result that [run] returns with exit code -1 and a non-empty
    error text comes with a tool response flagged as an error, whether the
    process failed to start, was killed at its deadline, or [Wait] failed
    otherwise. *)
Theorem run_error_flag (rt : process) (child : exec.Cmd → execution)
    (fs : filesystem) (args : Verifier.runArgs.t) (cmds : list exec.Cmd)
    (tool : CallToolResult) (res : Verifier.runResult.t) :
  Verifier.run rt child fs args = (cmds, Ok (tool, res)) →
  Verifier.runResult.ExitCode res = (-1)%Z →
  Verifier.runResult.Error res ≠ [] →
  IsError tool = true.
Proof.
  rewrite run_unfold.
  destruct (Verifier.prepare rt fs args)
    as [[[[[cfg p] cmdline] T] cmd] | err]; [| done].
  intros [= _ Hfin].
  pose proof (finish_error_flag cfg p cmdline T (child cmd)) as H.
  by rewrite Hfin in H.
Qed.

Lemma run_error_flag_witness :
  IsError
    {| IsError := true;
       Content := [lit "Test run timed out after " ++ fmtInt 30
                   ++ lit " seconds."] |} = true.
Proof.
  apply (run_error_flag sample_rt killed_child sample_fs_registered
           sample_run_args
           (Verifier.run sample_rt killed_child sample_fs_registered
              sample_run_args).1
           _
           {| Verifier.runResult.ConfigPath := sample_path;
              Verifier.runResult.Command :=
                [lit "go"; lit "test"; lit "./..."; lit "-run"; lit "TestLoad"];
              Verifier.runResult.WorkingDir := lit "/srv/app";
              Verifier.runResult.ExitCode := -1;
              Verifier.runResult.DurationMs := 30001;
              Verifier.runResult.Stdout := lit "=== RUN   TestLoad";
              Verifier.runResult.Stderr := [];
              Verifier.runResult.Success := false;
              Verifier.runResult.TimedOut := true;
              Verifier.runResult.Error :=
                lit "timed out after " ++ fmtInt 30 ++ lit " seconds";
              Verifier.runResult.UpdatedAt := lit "2026-01-01T00:00:00Z" |}).
  - vm_compute. reflexivity.
  - reflexivity.
  - discriminate.
Defined.

(** C10.  With no extra arguments, [run] never fails with the error of
    [extra_args], although the validator it calls rejects the empty
    sequence; whenever the config loads and the caller's env is well-formed
    it starts exactly the stored command and reports it. *)
Theorem run_without_extra_args (rt : process) (child : exec.Cmd → execution)
    (fs : filesystem) (args : Verifier.runArgs.t) :
  Verifier.runArgs.ExtraArgs args = [] →
  let ran := Verifier.run rt child fs args in
  Verifier.validateCommand (Verifier.runArgs.ExtraArgs args) = Err ECommandEmpty
  ∧ (∀ cause, ran.2 ≠ Err (EExtraArgs cause))
  ∧ (∀ cfg path,
       Verifier.loadConfig rt fs = Ok (cfg, path) →
       Forall (λ entry, blank entry ∨ keyValue (TrimSpace entry))
         (Verifier.runArgs.Env args) →
       ∃ cmd tool res,
         ran = ([cmd], Ok (tool, res))
         ∧ exec.Args cmd = Verifier.Command cfg
         ∧ Verifier.runResult.Command res = Verifier.Command cfg).
Proof.
  intros Hextra ran. split; [by rewrite Hextra |]. split.
  - intros cause. subst ran. rewrite run_unfold.
    destruct (Verifier.prepare rt fs args)
      as [[[[[cfg p] cmdline] T] cmd] | err] eqn:Hprep; [done |].
    simpl. intros [= ->].
    destruct (prepare_err_inv _ _ _ _ Hprep) as [Hload | [[_ Hex] | Henv]].
    + by apply loadConfig_err in Hload.
    + rewrite Hextra in Hex. by apply Exists_nil in Hex.
    + by destruct Henv as (entry & ? & _).
  - intros cfg path Hload Henv.
    assert (Hall : Forall (λ part, ¬ blank part) (Verifier.runArgs.ExtraArgs args))
      by (rewrite Hextra; constructor).
    destruct (prepare_ok _ _ args _ _ Hload Hall Henv) as [cmd Hprep].
    rewrite Hextra, app_nil_r in Hprep.
    destruct (prepare_ok_inv _ _ _ _ _ _ _ _ Hprep)
      as (_ & _ & _ & _ & _ & Hargs & _).
    subst ran. rewrite run_unfold, Hprep.
    pose proof (finish_Command cfg path (Verifier.Command cfg)
                  (effectiveTimeout (Verifier.runArgs.TimeoutSeconds args))
                  (child cmd)) as Hc.
    destruct (Verifier.finish _ _ _ _ _) as [tool res].
    by exists cmd, tool, res.
Qed.

Lemma run_without_extra_args_witness :
  ∃ cmd tool res,
    Verifier.run sample_rt killed_child sample_fs_registered plain_run_args
    = ([cmd], Ok (tool, res))
    ∧ exec.Args cmd = [lit "go"; lit "test"; lit "./..."]
    ∧ Verifier.runResult.Command res = [lit "go"; lit "test"; lit "./..."].
Proof.
  refine (proj2 (proj2
    (run_without_extra_args sample_rt killed_child sample_fs_registered
       plain_run_args eq_refl)) (toVerifier sample_config) sample_path _ _).
  - vm_compute. reflexivity.
  - constructor.
Defined.

(** ** Evaluations *)

(** Trimming removes Unicode white space at both ends, the no-break space
    included, and nothing inside. *)
Example TrimSpace_sample :
  TrimSpace ([0xA0; 9] ++ lit "go  test" ++ [10; 0x3000]) = lit "go  test".
Proof. reflexivity. Qed.

(** Blank entries vanish, the value may be empty or hold further ['=']. *)
Example validateEnv_keeps :
  Registrar.validateEnv [lit " A=b=c "; lit "   "; lit "B="; []]
  = Ok [lit "A=b=c"; lit "B="].
Proof. reflexivity. Qed.

Example validateEnv_no_separator :
  Verifier.validateEnv [lit "A=1"; lit "VERBOSE"] = Err (EEnvEntry (lit "VERBOSE")).
Proof. reflexivity. Qed.

Example validateEnv_empty_key :
  Verifier.validateEnv [lit " =1"] = Err (EEnvEntry (lit " =1")).
Proof. reflexivity. Qed.

Example validateCommand_blank_entry :
  Registrar.validateCommand [lit "go"; lit "  "] = Err ECommandBlankEntry.
Proof. reflexivity. Qed.

(** A config file that is not a registration's: the key in upper case, a
    padded element, an unknown key. *)
Example loadConfig_hand_written :
  Verifier.loadConfig sample_rt
    (<[ sample_path :=
          File (JsonText (JObject
            [(lit "COMMAND", JArray [JString (lit " make "); JString (lit "check")]);
             (lit "comment", JBool true)])) ]> sample_fs)
  = Ok ({| Verifier.Command := [lit "make"; lit "check"];
            Verifier.WorkingDir := [];
            Verifier.Env := [];
            Verifier.UpdatedAt := [] |}, sample_path).
Proof. vm_compute. reflexivity. Qed.

(** A truncated config file does not parse. *)
Example loadConfig_truncated :
  Verifier.loadConfig sample_rt
    (<[ sample_path := File (Truncated (Registrar.marshalConfig sample_config) 10) ]>
       sample_fs)
  = Err (EParseConfig Verifier.syntaxError).
Proof. vm_compute. reflexivity. Qed.

(** A run without ever registering fails in the load. *)
Example run_without_config :
  Verifier.run sample_rt killed_child sample_fs plain_run_args
  = ([], Err (EReadConfig ENOENT)).
Proof. vm_compute. reflexivity. Qed.

(** [int64] wrap-around of the timeout: ten thousand million seconds is
    a negative duration. *)
Example timeout_overflow : wrap64 (10000000000 * 1000000000) = (-8446744073709551616)%Z.
Proof. reflexivity. Qed.

(** * Further properties *)

(** ** The validators, further *)

Section ValidatorsFurther.

Implicit Types command env clean : list gostring.

Lemma TrimSpace_trimmed (s : gostring) : trimmed (TrimSpace s).
Proof.
  intros r [Hh | Hl].
  - destruct (TrimSpace s) as [|a t] eqn:E; [done |].
    injection Hh as ->. by eapply TrimSpace_head.
  - unfold TrimSpace, TrimRight in Hl.
    destruct (TrimLeft (rev (TrimLeft s))) as [|a u] eqn:E; [done |].
    simpl in Hl. rewrite last_snoc in Hl. injection Hl as <-.
    by eapply TrimLeft_head.
Qed.

Lemma keptEntries_keyValue env :
  Forall (λ entry, blank entry ∨ keyValue (TrimSpace entry)) env →
  Forall keyValue (keptEntries env).
Proof.
  induction 1 as [|entry env Hentry _ IH]; [constructor |].
  destruct (decide (TrimSpace entry = [])) as [Hb | Hb].
  - by rewrite keptEntries_cons_blank.
  - rewrite keptEntries_cons_kept by done.
    constructor; [| done]. by destruct Hentry.
Qed.

Lemma keptEntries_app (pre post : list gostring) :
  keptEntries (pre ++ post) = keptEntries pre ++ keptEntries post.
Proof. unfold keptEntries. by rewrite map_app, filter_app. Qed.

(** The env loop runs through a well-formed prefix. *)
Lemma Registrar_validateEnv_loop_app pre rest clean :
  Forall (λ entry, blank entry ∨ keyValue (TrimSpace entry)) pre →
  Registrar.validateEnv_loop (pre ++ rest) clean
  = Registrar.validateEnv_loop rest (clean ++ keptEntries pre).
Proof.
  intros Hpre. revert clean.
  induction Hpre as [|entry pre Hentry _ IH]; intros clean.
  - by rewrite app_nil_r.
  - simpl. destruct (decide (TrimSpace entry = [])) as [Hb | Hb].
    + rewrite IH. by rewrite keptEntries_cons_blank.
    + destruct Hentry as [Hblank | Hkv]; [done |].
      apply envEntry_test in Hkv. rewrite Hkv, IH.
      rewrite keptEntries_cons_kept by done. by rewrite <- app_assoc.
Qed.

(** What the validators return is trimmed and well-formed. *)
Lemma Registrar_validateCommand_trimmed command clean :
  Registrar.validateCommand command = Ok clean →
  Forall (λ part, part ≠ [] ∧ trimmed part) clean.
Proof.
  intros Hv. pose proof (Registrar_validateCommand_spec command) as Hspec.
  rewrite Hv in Hspec. destruct Hspec as (_ & Hall & ->).
  apply Forall_fmap. eapply Forall_impl; [exact Hall |].
  intros part Hb. simpl. split; [exact Hb | apply TrimSpace_trimmed].
Qed.

Lemma Registrar_validateEnv_wellformed env clean :
  Registrar.validateEnv env = Ok clean →
  Forall (λ t, t ≠ [] ∧ trimmed t ∧ keyValue t) clean.
Proof.
  intros Hv. pose proof (Registrar_validateEnv_spec env) as Hspec.
  rewrite Hv in Hspec. destruct Hspec as [Hall ->].
  pose proof (keptEntries_trimmed env) as Ht.
  pose proof (keptEntries_keyValue env Hall) as Hk.
  rewrite Forall_forall in Ht, Hk. apply Forall_forall.
  intros t Hin. destruct (Ht t Hin) as [Hfix Hne].
  split; [done |]. split; [| by apply Hk].
  rewrite <- Hfix. apply TrimSpace_trimmed.
Qed.

End ValidatorsFurther.

(** X1.  A command that [validateCommand] returns has as many elements as
    the one given, none of them empty and none with white space at either
    end, and both programs' [validateCommand] return it unchanged. *)
Theorem validateCommand_fixed_point (command clean : list gostring) :
  Registrar.validateCommand command = Ok clean →
  length clean = length command
  ∧ Forall (λ part, part ≠ [] ∧ trimmed part) clean
  ∧ Registrar.validateCommand clean = Ok clean
  ∧ Verifier.validateCommand clean = Ok clean.
Proof.
  intros Hv. pose proof (Registrar_validateCommand_spec command) as Hspec.
  rewrite Hv in Hspec. destruct Hspec as (_ & Hall & ->).
  split; [by rewrite length_map |]. split.
  - exact (Registrar_validateCommand_trimmed _ _ Hv).
  - split; exact (Registrar_validateCommand_idem _ _ Hv).
Qed.

Lemma validateCommand_fixed_point_witness :
  length [lit "go"; lit "test"] = length [lit " go "; lit "test "]
  ∧ Forall (λ part, part ≠ [] ∧ trimmed part) [lit "go"; lit "test"]
  ∧ Registrar.validateCommand [lit "go"; lit "test"] = Ok [lit "go"; lit "test"]
  ∧ Verifier.validateCommand [lit "go"; lit "test"] = Ok [lit "go"; lit "test"].
Proof.
  apply (validateCommand_fixed_point [lit " go "; lit "test "]). reflexivity.
Defined.

(** X2.  [validateEnv] stops at the first entry, in list order, that is
    neither blank nor [KEY=VALUE]: the error carries that entry as it was
    given, untrimmed, whatever follows it. *)
Theorem validateEnv_first_offender (pre post : list gostring) (entry : gostring) :
  Forall (λ e, blank e ∨ keyValue (TrimSpace e)) pre →
  ¬ blank entry →
  ¬ keyValue (TrimSpace entry) →
  Registrar.validateEnv (pre ++ entry :: post) = Err (EEnvEntry entry)
  ∧ Verifier.validateEnv (pre ++ entry :: post) = Err (EEnvEntry entry).
Proof.
  intros Hpre Hnb Hnk.
  assert (H : Registrar.validateEnv (pre ++ entry :: post) = Err (EEnvEntry entry)).
  { unfold Registrar.validateEnv.
    destruct (decide (length (pre ++ entry :: post) = 0%nat)) as [Hlen | _].
    { rewrite length_app in Hlen. simpl in Hlen. lia. }
    rewrite (Registrar_validateEnv_loop_app _ _ _ Hpre). simpl.
    destruct (decide (TrimSpace entry = [])) as [Hb | _]; [done |].
    destruct (negb (length (SplitN2 (TrimSpace entry)) =? 2)%nat
              || bool_decide (SplitN2 (TrimSpace entry) !! 0%nat = Some []))
      eqn:Htest; [done |].
    by apply envEntry_test in Htest. }
  split; [done | by rewrite Verifier_validateEnv_eq].
Qed.

Lemma validateEnv_first_offender_witness :
  Registrar.validateEnv ([lit "A=1"; lit "  "] ++ lit " =x " :: [lit "VERBOSE"])
  = Err (EEnvEntry (lit " =x "))
  ∧ Verifier.validateEnv ([lit "A=1"; lit "  "] ++ lit " =x " :: [lit "VERBOSE"])
    = Err (EEnvEntry (lit " =x ")).
Proof.
  apply validateEnv_first_offender.
  - constructor; [| constructor; [| constructor]].
    + right. exists (lit "A"), (lit "1").
      split; [reflexivity |]. split; [discriminate | compute_done].
    + left. reflexivity.
  - discriminate.
  - intros (key & value & Ht & Hne & Hk).
    destruct key as [|r key]; [done |].
    vm_compute in Ht. injection Ht as <- _.
    apply Hk. apply elem_of_cons. by left.
Defined.

(** X3.  An env list that [validateEnv] returns is a sub-list of the
    trimmed input, never longer than it; each of its entries is non-empty,
    has no white space at either end and is [KEY=VALUE] with a non-empty
    key; and both programs' [validateEnv] return it unchanged. *)
Theorem validateEnv_fixed_point (env clean : list gostring) :
  Registrar.validateEnv env = Ok clean →
  clean `sublist_of` map TrimSpace env
  ∧ (length clean ≤ length env)%nat
  ∧ Forall (λ t, t ≠ [] ∧ trimmed t ∧ keyValue t) clean
  ∧ Registrar.validateEnv clean = Ok clean
  ∧ Verifier.validateEnv clean = Ok clean.
Proof.
  intros Hv. pose proof (Registrar_validateEnv_spec env) as Hspec.
  rewrite Hv in Hspec. destruct Hspec as [Hall ->].
  assert (Hsub : keptEntries env `sublist_of` map TrimSpace env)
    by apply sublist_filter.
  split; [done |]. split.
  - apply sublist_length in Hsub. by rewrite length_map in Hsub.
  - split.
    + exact (Registrar_validateEnv_wellformed _ _ Hv).
    + split; exact (Registrar_validateEnv_idem _ _ Hv).
Qed.

Lemma validateEnv_fixed_point_witness :
  [lit "A=b=c"; lit "B="] `sublist_of` map TrimSpace [lit " A=b=c "; lit "   "; lit "B="]
  ∧ (length [lit "A=b=c"; lit "B="] ≤ length [lit " A=b=c "; lit "   "; lit "B="])%nat
  ∧ Forall (λ t, t ≠ [] ∧ trimmed t ∧ keyValue t) [lit "A=b=c"; lit "B="]
  ∧ Registrar.validateEnv [lit "A=b=c"; lit "B="] = Ok [lit "A=b=c"; lit "B="]
  ∧ Verifier.validateEnv [lit "A=b=c"; lit "B="] = Ok [lit "A=b=c"; lit "B="].
Proof.
  apply (validateEnv_fixed_point [lit " A=b=c "; lit "   "; lit "B="]).
  reflexivity.
Defined.

(** ** Persisting, further *)

Section PersistingFurther.

Implicit Types fs : filesystem.
Implicit Types rt : process.
Implicit Types flt : faults.
Implicit Types path name dir : gostring.









End PersistingFurther.




(** X6.  The two programs declare the same persisted record.  Serialising
    a config never fails; the document is an object of one to four
    members, [command] first, in which an optional field that is empty is
    left out rather than written as an empty string or array; and the
    Verifier parses back, field for field, whatever config the Registrar
    serialises. *)
Theorem storedConfig_roundtrip (cfg : Registrar.storedConfig) :
  Registrar.json_MarshalIndent cfg = Ok (JsonText (Registrar.marshalConfig cfg))
  ∧ (∃ members, Registrar.marshalConfig cfg = JObject members
                ∧ (1 ≤ length members ≤ 4)%nat
                ∧ (∃ v, head members = Some (lit "command", v))
                ∧ (∀ key v, (key, v) ∈ tail members →
                            v ≠ JString [] ∧ v ≠ JArray []))
  ∧ Verifier.json_Unmarshal (JsonText (Registrar.marshalConfig cfg))
    = Ok (toVerifier cfg).
Proof.
  split; [done |]. split; [| apply json_roundtrip].
  destruct cfg as [command wd env at_].
  unfold Registrar.marshalConfig, Registrar.stringMember, Registrar.stringsMember.
  cbn [Registrar.Command Registrar.WorkingDir Registrar.Env Registrar.UpdatedAt].
  eexists. split; [reflexivity |].
  destruct (decide (wd = [])) as [-> | Hwd];
    destruct (decide (length env = 0%nat)) as [Hlen | Henv];
    destruct (decide (at_ = [])) as [-> | Hat];
    (split; [simpl; lia |]);
    (split; [by eexists |]);
    intros key v Hin; simpl in Hin;
    repeat (apply elem_of_cons in Hin as [Hin | Hin];
            [injection Hin as ? ?; subst; split; try congruence;
             try (intros [=]; congruence);
             try (intros [=]; destruct env; done) |]);
    by apply not_elem_of_nil in Hin.
Qed.

(** ** Loading and running, further *)

(** X7.  Whatever config [loadConfig] returns, from a registration or from
    a file written by hand, keeps the invariants of the persisted record:
    it was read from a regular file at the resolved config path, its
    command is non-empty with every element non-empty and free of
    surrounding white space, every env entry is a trimmed [KEY=VALUE], and
    the working directory is unset or an existing directory. *)
Theorem loadConfig_invariants (rt : process) (fs : filesystem)
    (cfg : Verifier.storedConfig) (path : gostring) :
  Verifier.loadConfig rt fs = Ok (cfg, path) →
  Verifier.configPath rt = Ok path
  ∧ (∃ data, fs !! path = Some (File data))
  ∧ Verifier.Command cfg ≠ []
  ∧ Forall (λ part, part ≠ [] ∧ trimmed part) (Verifier.Command cfg)
  ∧ Forall (λ t, t ≠ [] ∧ trimmed t ∧ keyValue t) (Verifier.Env cfg)
  ∧ workingDirOk fs (Verifier.WorkingDir cfg).
Proof.
  unfold Verifier.loadConfig.
  destruct (Verifier.configPath rt) as [p|]; [| done]. cbn [mbind result_bind].
  unfold os_ReadFile.
  destruct (fs !! p) as [[data|]|] eqn:Hfile; [| done | done].
  cbn [wrapErr mbind result_bind].
  destruct (Verifier.json_Unmarshal data) as [raw|]; [| done].
  cbn [wrapErr mbind result_bind].
  pose proof (Registrar_validateCommand_trimmed (Verifier.Command raw)) as Hc.
  pose proof (Registrar_validateEnv_wellformed (Verifier.Env raw)) as He.
  pose proof (Registrar_validateCommand_spec (Verifier.Command raw)) as Hne.
  change (Verifier.validateCommand (Verifier.Command raw))
    with (Registrar.validateCommand (Verifier.Command raw)).
  change (Verifier.validateEnv (Verifier.Env raw))
    with (Registrar.validateEnv (Verifier.Env raw)).
  destruct (Registrar.validateCommand _) as [command|]; [| done].
  destruct (Registrar.validateEnv _) as [env|]; [| done].
  cbn [wrapErr mbind result_bind].
  pose proof (Hc command eq_refl) as Hcmd.
  pose proof (He env eq_refl) as Henv.
  destruct Hne as (Hne & _ & ->).
  assert (Hnonempty : map TrimSpace (Verifier.Command raw) ≠ [])
    by (by destruct (Verifier.Command raw)).
  destruct (decide (Verifier.WorkingDir raw = [])) as [Hwd | Hwd].
  - cbn [mbind result_bind]. intros [= <- <-]. simpl.
    repeat split; try done; [by eexists | by left].
  - unfold os_Stat.
    destruct (fs !! Verifier.WorkingDir raw) as [[d|]|] eqn:Hst;
      cbn [mbind result_bind IsDir]; try done.
    intros [= <- <-]. simpl. repeat split; try done; [by eexists | by right].
Qed.

Lemma loadConfig_invariants_witness :
  Verifier.configPath sample_rt = Ok sample_path
  ∧ (∃ data, sample_fs_registered !! sample_path = Some (File data))
  ∧ Verifier.Command (toVerifier sample_config) ≠ []
  ∧ Forall (λ part, part ≠ [] ∧ trimmed part)
      (Verifier.Command (toVerifier sample_config))
  ∧ Forall (λ t, t ≠ [] ∧ trimmed t ∧ keyValue t)
      (Verifier.Env (toVerifier sample_config))
  ∧ workingDirOk sample_fs_registered
      (Verifier.WorkingDir (toVerifier sample_config)).
Proof.
  apply (loadConfig_invariants sample_rt sample_fs_registered).
  vm_compute. reflexivity.
Defined.

(** X8.  What [run] fails with.  It never panics: the command line it
    indexes is never empty.  It returns an error in three cases only, in
    this order: the config does not load, and the error is that of
    [loadConfig], unwrapped; the config loads and the extra arguments, not
    empty, hold a blank one; the config loads, no extra argument is blank
    and an env entry of the call is neither blank nor [KEY=VALUE]. *)
Theorem run_errors (rt : process) (child : exec.Cmd → execution)
    (fs : filesystem) (args : Verifier.runArgs.t) (err : error) :
  (Verifier.run rt child fs args).2 = Err err →
  err ≠ EPanic
  ∧ (Verifier.loadConfig rt fs = Err err
     ∨ ((∃ loaded, Verifier.loadConfig rt fs = Ok loaded)
        ∧ ((err = EExtraArgs ECommandBlankEntry
            ∧ Verifier.runArgs.ExtraArgs args ≠ []
            ∧ Exists blank (Verifier.runArgs.ExtraArgs args))
           ∨ (Forall (λ part, ¬ blank part) (Verifier.runArgs.ExtraArgs args)
              ∧ ∃ entry,
                  err = EEnvEntry entry
                  ∧ entry ∈ Verifier.runArgs.Env args
                  ∧ ¬ blank entry ∧ ¬ keyValue (TrimSpace entry))))).
Proof.
  rewrite run_unfold.
  destruct (Verifier.prepare rt fs args)
    as [[[[[cfg p] cmdline] T] cmd] | e] eqn:Hprep; [done |].
  simpl. intros [= ->]. revert Hprep. unfold Verifier.prepare.
  destruct (Verifier.loadConfig rt fs) as [[cfg path]|] eqn:Hload;
    cbn [mbind result_bind].
  2:{ intros [= <-]. split; [| by left].
      intros ->. by apply loadConfig_err in Hload. }
  pose proof (extraArgs_spec (Verifier.runArgs.ExtraArgs args)) as Hx.
  destruct (match Verifier.validateCommand (Verifier.runArgs.ExtraArgs args) with
            | Ok extraArgs => Ok extraArgs
            | Err err => _
            end) as [extraArgs|]; cbn [mbind result_bind].
  2:{ intros [= <-]. destruct Hx as (-> & Hne & Hex). split; [done |].
      right. split; [by eexists |]. by left. }
  destruct Hx as [-> Hall].
  rewrite Verifier_validateEnv_eq.
  pose proof (Registrar_validateEnv_spec (Verifier.runArgs.Env args)) as He.
  destruct (Registrar.validateEnv _) as [runEnv|]; cbn [mbind result_bind].
  2:{ intros [= <-]. destruct He as (entry & -> & He). split; [done |].
      right. split; [by eexists |]. right. split; [done |]. by exists entry. }
  rewrite effectiveTimeout_code, effectiveTimeout_pos.
  set (line := if (0 <? length (map TrimSpace (Verifier.runArgs.ExtraArgs args)))%nat
               then _ else _).
  assert (Hline : line = Verifier.Command cfg
                         ++ map TrimSpace (Verifier.runArgs.ExtraArgs args)).
  { subst line. destruct (Verifier.runArgs.ExtraArgs args); simpl;
      [by rewrite app_nil_r | done]. }
  clearbody line. subst line.
  destruct (loadConfig_ok_inv _ _ _ _ Hload) as (_ & Hne & _).
  destruct (Verifier.Command cfg) as [|name rest]; [done |]. done.
Qed.

Lemma run_errors_witness :
  EEnvEntry (lit "VERBOSE") ≠ EPanic
  ∧ (Verifier.loadConfig sample_rt sample_fs_registered
     = Err (EEnvEntry (lit "VERBOSE"))
     ∨ ((∃ loaded, Verifier.loadConfig sample_rt sample_fs_registered = Ok loaded)
        ∧ ((EEnvEntry (lit "VERBOSE") = EExtraArgs ECommandBlankEntry
            ∧ [lit "-v"] ≠ []
            ∧ Exists blank [lit "-v"])
           ∨ (Forall (λ part, ¬ blank part) [lit "-v"]
              ∧ ∃ entry,
                  EEnvEntry (lit "VERBOSE") = EEnvEntry entry
                  ∧ entry ∈ [lit "CI=1"; lit "VERBOSE"; lit "=x"]
                  ∧ ¬ blank entry ∧ ¬ keyValue (TrimSpace entry))))).
Proof.
  apply (run_errors sample_rt killed_child sample_fs_registered
           {| Verifier.runArgs.ExtraArgs := [lit "-v"];
              Verifier.runArgs.TimeoutSeconds := 0;
              Verifier.runArgs.Env := [lit "CI=1"; lit "VERBOSE"; lit "=x"] |}).
  vm_compute. reflexivity.
Defined.

(** X9.  Every result [run] returns is consistent: [success] implies exit
    code 0, no timeout, no error text and no error flag; [timed_out]
    implies failure and a non-empty error text; an error flag implies
    failure; and the result carries the path and command of the run and
    the working directory and timestamp of the config. *)
Theorem run_result_consistent (rt : process) (child : exec.Cmd → execution)
    (fs : filesystem) (args : Verifier.runArgs.t) (cmds : list exec.Cmd)
    (tool : CallToolResult) (res : Verifier.runResult.t) :
  Verifier.run rt child fs args = (cmds, Ok (tool, res)) →
  (Verifier.runResult.Success res = true →
   Verifier.runResult.ExitCode res = 0%Z
   ∧ Verifier.runResult.TimedOut res = false
   ∧ Verifier.runResult.Error res = []
   ∧ IsError tool = false)
  ∧ (Verifier.runResult.TimedOut res = true →
     Verifier.runResult.Success res = false
     ∧ Verifier.runResult.Error res ≠ [])
  ∧ (IsError tool = true → Verifier.runResult.Success res = false)
  ∧ ∃ cfg cmd,
      Verifier.loadConfig rt fs = Ok (cfg, Verifier.runResult.ConfigPath res)
      ∧ cmds = [cmd]
      ∧ Verifier.runResult.Command res = exec.Args cmd
      ∧ Verifier.runResult.WorkingDir res = Verifier.WorkingDir cfg
      ∧ Verifier.runResult.WorkingDir res = exec.Dir cmd
      ∧ Verifier.runResult.UpdatedAt res = Verifier.UpdatedAt cfg.
Proof.
  rewrite run_unfold.
  destruct (Verifier.prepare rt fs args)
    as [[[[[cfg p] cmdline] T] cmd] | err] eqn:Hprep; [| done].
  intros [= <- Hfin].
  destruct (prepare_ok_inv _ _ _ _ _ _ _ _ Hprep)
    as (Hload & _ & _ & _ & _ & Hargs & _ & Hdir & _).
  revert Hfin. unfold Verifier.finish.
  destruct (startErr (child cmd)) as [text|].
  - intros [= <- <-]. simpl. repeat split; try done.
    exists cfg, cmd. by repeat split.
  - destruct (waitErr (child cmd)) as [[code | text]|],
      (deadlineExceeded (child cmd)), (processState (child cmd)) as [state|];
      simpl; intros [= <- <-]; simpl.
    all: repeat match goal with
                | |- context [decide (?x = ?y)] => destruct (decide (x = y))
                end; simpl.
    all: split; [try done; intros _; repeat split; try done;
                 rewrite ?andb_false_r; try done |].
    all: try (by subst).
    all: split; [try done; intros _; by split |].
    all: split; [try done; rewrite ?andb_false_r; try done |].
    all: try (exists cfg, cmd; by repeat split).
Qed.

Lemma sample_killed_run :
  Verifier.run sample_rt killed_child sample_fs_registered sample_run_args
  = ([sample_cmd], Ok (killed_tool, killed_result)).
Proof. vm_compute. reflexivity. Defined.

Lemma run_result_consistent_witness :
  Verifier.runResult.Success killed_result = false
  ∧ Verifier.runResult.Error killed_result ≠ [].
Proof.
  apply (proj1 (proj2 (run_result_consistent _ _ _ _ _ _ _ sample_killed_run))).
  reflexivity.
Defined.

(** X10.  A run that completes, with no timeout: when [Wait] succeeds or
    returns an exit error while the deadline has not passed, the result
    carries the exit code, succeeds exactly when [Wait] succeeded with exit
    code 0, has no error text and is not timed out, and the tool response
    is not flagged as an error, whatever the exit code: a failing test is a
    result, not a tool error. *)
Theorem run_completion (rt : process) (child : exec.Cmd → execution)
    (fs : filesystem) (args : Verifier.runArgs.t) (cfg : Verifier.storedConfig)
    (path : gostring) (cmdline : list gostring) (T : Z) (cmd : exec.Cmd)
    (code : Z) :
  Verifier.prepare rt fs args = Ok (cfg, path, cmdline, T, cmd) →
  startErr (child cmd) = None →
  (waitErr (child cmd) = None ∧ processState (child cmd) = Some code)
  ∨ (waitErr (child cmd) = Some (ExitError code)
     ∧ deadlineExceeded (child cmd) = false) →
  ∃ tool res,
    Verifier.run rt child fs args = ([cmd], Ok (tool, res))
    ∧ Verifier.runResult.ExitCode res = code
    ∧ (Verifier.runResult.Success res = true
       ↔ waitErr (child cmd) = None ∧ code = 0%Z)
    ∧ Verifier.runResult.TimedOut res = false
    ∧ Verifier.runResult.Error res = []
    ∧ IsError tool = false
    ∧ Content tool
      = [lit "Test run finished with exit code " ++ fmtInt code ++ lit "."].
Proof.
  intros Hprep Hs Hcase. rewrite run_unfold, Hprep. unfold Verifier.finish.
  rewrite Hs.
  destruct Hcase as [[Hw Hp] | [Hw Hd]]; rewrite Hw, ?Hp, ?Hd.
  - destruct (decide (code = 0%Z)) as [-> | Hne]; eexists _, _;
      (split; [reflexivity |]); simpl; repeat split; try done;
      rewrite ?andb_false_r; try done; by intros [_ ?].
  - eexists _, _. split; [reflexivity |]. simpl.
    repeat split; try done; rewrite ?andb_false_r; try done; by intros [? _].
Qed.

Lemma run_completion_witness :
  ∃ tool res,
    Verifier.run sample_rt failing_child sample_fs_registered sample_run_args
    = ([sample_cmd], Ok (tool, res))
    ∧ Verifier.runResult.ExitCode res = 1%Z
    ∧ (Verifier.runResult.Success res = true
       ↔ waitErr (failing_child sample_cmd) = None ∧ 1%Z = 0%Z)
    ∧ Verifier.runResult.TimedOut res = false
    ∧ Verifier.runResult.Error res = []
    ∧ IsError tool = false
    ∧ Content tool
      = [lit "Test run finished with exit code " ++ fmtInt 1 ++ lit "."].
Proof.
  apply (run_completion sample_rt failing_child sample_fs_registered
           sample_run_args _ _ _ _ sample_cmd 1%Z sample_run_prepared eq_refl).
  right. split; reflexivity.
Defined.

(** X11.  A run whose process started but whose [Wait] fails with an error
    that is not an exit error, the deadline not having passed: the result
    has exit code -1 and that error's text, and since the handler tells
    this case from a failed start by nothing else, the tool response is
    flagged as an error and its summary reads "Test run failed to
    start". *)
Theorem run_wait_failure (rt : process) (child : exec.Cmd → execution)
    (fs : filesystem) (args : Verifier.runArgs.t) (cfg : Verifier.storedConfig)
    (path : gostring) (cmdline : list gostring) (T : Z) (cmd : exec.Cmd)
    (text : gostring) :
  Verifier.prepare rt fs args = Ok (cfg, path, cmdline, T, cmd) →
  startErr (child cmd) = None →
  waitErr (child cmd) = Some (WaitFailure text) →
  deadlineExceeded (child cmd) = false →
  text ≠ [] →
  ∃ tool res,
    Verifier.run rt child fs args = ([cmd], Ok (tool, res))
    ∧ Verifier.runResult.ExitCode res = (-1)%Z
    ∧ Verifier.runResult.Success res = false
    ∧ Verifier.runResult.TimedOut res = false
    ∧ Verifier.runResult.Error res = text
    ∧ IsError tool = true
    ∧ Content tool = [lit "Test run failed to start: " ++ text].
Proof.
  intros Hprep Hs Hw Hd Hne. rewrite run_unfold, Hprep. unfold Verifier.finish.
  rewrite Hs, Hw, Hd. eexists _, _. split; [reflexivity |]. simpl.
  rewrite (bool_decide_eq_false_2 _ Hne). by repeat split.
Qed.

Lemma run_wait_failure_witness :
  ∃ tool res,
    Verifier.run sample_rt broken_pipe_child sample_fs_registered sample_run_args
    = ([sample_cmd], Ok (tool, res))
    ∧ Verifier.runResult.ExitCode res = (-1)%Z
    ∧ Verifier.runResult.Success res = false
    ∧ Verifier.runResult.TimedOut res = false
    ∧ Verifier.runResult.Error res = lit "read |0: file already closed"
    ∧ IsError tool = true
    ∧ Content tool
      = [lit "Test run failed to start: " ++ lit "read |0: file already closed"].
Proof.
  apply (run_wait_failure sample_rt broken_pipe_child sample_fs_registered
           sample_run_args _ _ _ _ sample_cmd _ sample_run_prepared
           eq_refl eq_refl eq_refl).
  discriminate.
Defined.

Lemma wrap64_id (z : Z) :
  (- 2 ^ 63 ≤ z < 2 ^ 63)%Z → wrap64 z = z.
Proof.
  intros Hz. unfold wrap64. rewrite Z.mod_small by lia. lia.
Qed.

Lemma wrap64_range (z : Z) : (- 2 ^ 63 ≤ wrap64 z < 2 ^ 63)%Z.
Proof.
  unfold wrap64.
  pose proof (Z.mod_pos_bound (z + 2 ^ 63) (2 ^ 64)) as H. lia.
Qed.

(** X12.  The timeout of a run, in seconds, is always positive: the
    caller's when positive, 600 otherwise.  The duration given to the
    context is that many nanoseconds as long as it fits an [int64], that
    is up to 9223372036 seconds; just beyond, up to 18446744073 seconds,
    the multiplication wraps to a negative duration, a deadline already
    passed. *)
Theorem run_timeout_duration (rt : process) (fs : filesystem)
    (args : Verifier.runArgs.t) (cfg : Verifier.storedConfig) (path : gostring)
    (cmdline : list gostring) (T : Z) (cmd : exec.Cmd) :
  Verifier.prepare rt fs args = Ok (cfg, path, cmdline, T, cmd) →
  let given := Verifier.runArgs.TimeoutSeconds args in
  (0 < T)%Z
  ∧ ((0 < given)%Z → T = given)
  ∧ ((given ≤ 0)%Z → T = 600%Z ∧ exec.Timeout cmd = Some 600000000000%Z)
  ∧ ((T ≤ maxTimeoutSeconds)%Z → exec.Timeout cmd = Some (T * 1000000000)%Z)
  ∧ ((maxTimeoutSeconds < T ≤ 18446744073)%Z →
     ∃ d, exec.Timeout cmd = Some d ∧ (d < 0)%Z).
Proof.
  intros Hprep given.
  destruct (prepare_ok_inv _ _ _ _ _ _ _ _ Hprep)
    as (_ & _ & _ & _ & HT & _ & _ & _ & _ & Htimeout).
  fold given in HT. unfold effectiveTimeout in HT.
  unfold maxTimeoutSeconds.
  destruct (Z.ltb_spec 0 given) as [Hpos | Hnonpos]; subst T.
  - split; [done |]. split; [done |]. split; [lia |]. split.
    + intros Hmax. rewrite Htimeout. f_equal. apply wrap64_id. lia.
    + intros Hbig. eexists. split; [exact Htimeout |].
      unfold wrap64.
      replace ((given * 1000000000 + 2 ^ 63) mod 2 ^ 64)%Z
        with (given * 1000000000 + 2 ^ 63 - 2 ^ 64)%Z; [lia |].
      apply Z.mod_unique with (q := 1%Z); lia.
  - split; [done |]. split; [lia |]. split; [by rewrite Htimeout |].
    split; [intros _; by rewrite Htimeout | lia].
Qed.

Lemma run_timeout_duration_witness :
  (0 < 30)%Z
  ∧ exec.Timeout sample_cmd = Some (30 * 1000000000)%Z.
Proof.
  pose proof (run_timeout_duration sample_rt sample_fs_registered
                sample_run_args _ _ _ _ _ sample_run_prepared) as H.
  cbv zeta in H. destruct H as (H0 & _ & _ & Hfit & _).
  split; [exact H0 |]. apply Hfit. unfold maxTimeoutSeconds. lia.
Defined.

(** ** The working directory *)

(** X13.  [register] rejects a working directory that is set but is not
    an existing directory, the command and env being well-formed: with the
    error of the failed [Stat] when nothing is there, with "not a
    directory" when a file is, and in both cases before anything is
    written. *)
Theorem register_rejects_working_dir (rt : process) (flt : faults)
    (fs : filesystem) (args : Registrar.registerArgs.t) :
  let dir := Registrar.registerArgs.WorkingDir args in
  dir ≠ [] →
  fs !! dir ≠ Some Directory →
  Registrar.registerArgs.Command args ≠ [] →
  Forall (λ part, ¬ blank part) (Registrar.registerArgs.Command args) →
  Forall (λ entry, blank entry ∨ keyValue (TrimSpace entry))
    (Registrar.registerArgs.Env args) →
  ∃ err,
    Registrar.register rt flt fs args = (fs, Err err)
    ∧ isValidationError err = true
    ∧ (fs !! dir = None → err = EWorkingDirStat ENOENT)
    ∧ (∀ data, fs !! dir = Some (File data) → err = EWorkingDirNotDir dir).
Proof.
  intros dir Hset Hnot Hne Hcmd Henv.
  unfold Registrar.register, Registrar.checks. fold dir.
  rewrite (Registrar_validateCommand_ok _ Hne Hcmd).
  rewrite (Registrar_validateEnv_ok _ Henv). cbn [mbind result_bind].
  destruct (decide (dir = [])) as [| _]; [done |].
  unfold os_Stat. destruct (fs !! dir) as [[data|]|] eqn:Hdir;
    cbn [mbind result_bind IsDir]; [| done |]; eexists;
    (split; [reflexivity |]); (split; [reflexivity |]); split; done.
Qed.

Lemma register_rejects_working_dir_witness :
  ∃ err,
    Registrar.register sample_rt no_faults ∅ sample_args = (∅, Err err)
    ∧ isValidationError err = true
    ∧ ((∅ : filesystem) !! lit "/srv/app" = None → err = EWorkingDirStat ENOENT)
    ∧ (∀ data, (∅ : filesystem) !! lit "/srv/app" = Some (File data) →
               err = EWorkingDirNotDir (lit "/srv/app")).
Proof.
  apply (register_rejects_working_dir sample_rt no_faults ∅ sample_args).
  - discriminate.
  - discriminate.
  - discriminate.
  - repeat constructor; vm_compute; discriminate.
  - constructor; [| constructor; [| constructor]].
    + right. exists (lit "LANG"), (lit "en_US.UTF-8").
      split; [vm_compute; reflexivity |]. split; [discriminate | compute_done].
    + left. vm_compute. reflexivity.
    + right. exists (lit "GOFLAGS"), (lit "-count=1").
      split; [vm_compute; reflexivity |]. split; [discriminate | compute_done].
    + constructor.
Defined.

(** X14.  The working directory is checked again at load time: when the
    directory of a successful registration is gone, or replaced by a file,
    by the time of a run, and the config file is as the Registrar left
    it, [loadConfig] fails with the working-directory error and the run
    returns that error without starting anything. *)
Theorem run_after_working_dir_removed (rtR rtV : process) (flt : faults)
    (fs fs' fs'' : filesystem) (args : Registrar.registerArgs.t)
    (tool : CallToolResult) (res : Registrar.registerResult.t) :
  Registrar.register rtR flt fs args = (fs', Ok (tool, res)) →
  Verifier.configPath rtV = Ok (Registrar.registerResult.ConfigPath res) →
  fs'' !! Registrar.registerResult.ConfigPath res
  = fs' !! Registrar.registerResult.ConfigPath res →
  let dir := Registrar.registerArgs.WorkingDir args in
  dir ≠ [] →
  fs'' !! dir ≠ Some Directory →
  fs !! dir = Some Directory
  ∧ ∃ err,
      Verifier.loadConfig rtV fs'' = Err err
      ∧ (fs'' !! dir = None → err = EWorkingDirStat ENOENT)
      ∧ (∀ data, fs'' !! dir = Some (File data) → err = EWorkingDirNotDir dir)
      ∧ ∀ child rargs, Verifier.run rtV child fs'' rargs = ([], Err err).
Proof.
  intros Hreg Hpath Hsame dir Hset Hgone.
  destruct (register_ok_inv _ _ _ _ _ _ _ Hreg) as (path & Hch & Hw & Hp & _).
  rewrite Hp in *.
  destruct (checks_ok _ _ _ _ _ Hch) as (_ & _ & Hcmd & Henv & Hwd).
  apply Registrar_validateCommand_idem in Hcmd.
  apply Registrar_validateEnv_idem in Henv.
  pose proof (writeConfig_ok _ _ _ _ _ _ Hw) as Hfile. rewrite <- Hsame in Hfile.
  split; [by destruct Hwd |].
  pose proof (loadConfig_serialised_eq _ _ _ _ Hpath Hfile Hcmd Henv) as Hload.
  cbn [registeredConfig Registrar.WorkingDir] in Hload. fold dir in Hload.
  destruct (decide (dir = [])) as [| _]; [done |].
  unfold os_Stat in Hload.
  assert (∃ err, Verifier.loadConfig rtV fs'' = Err err
                 ∧ (fs'' !! dir = None → err = EWorkingDirStat ENOENT)
                 ∧ (∀ data, fs'' !! dir = Some (File data) →
                            err = EWorkingDirNotDir dir))
    as (err & Herr & Hnone & Hfile').
  { destruct (fs'' !! dir) as [[data|]|] eqn:Hdir;
      cbn [mbind result_bind IsDir] in Hload; [| done |];
      eexists; (split; [exact Hload |]); split; done. }
  exists err. repeat split; try done.
  intros child rargs. rewrite run_unfold. unfold Verifier.prepare.
  by rewrite Herr.
Qed.

Lemma run_after_working_dir_removed_witness :
  sample_fs !! lit "/srv/app" = Some Directory
  ∧ ∃ err,
      Verifier.loadConfig sample_rt (delete (lit "/srv/app") sample_fs_registered)
      = Err err
      ∧ (delete (lit "/srv/app") sample_fs_registered !! lit "/srv/app" = None →
         err = EWorkingDirStat ENOENT)
      ∧ (∀ data,
           delete (lit "/srv/app") sample_fs_registered !! lit "/srv/app"
           = Some (File data) →
           err = EWorkingDirNotDir (lit "/srv/app"))
      ∧ ∀ child rargs,
          Verifier.run sample_rt child
            (delete (lit "/srv/app") sample_fs_registered) rargs
          = ([], Err err).
Proof.
  apply (run_after_working_dir_removed sample_rt sample_rt no_faults sample_fs
           sample_fs_registered (delete (lit "/srv/app") sample_fs_registered)
           sample_args sample_tool sample_result sample_registration).
  - vm_compute. reflexivity.
  - vm_compute. reflexivity.
  - discriminate.
  - vm_compute. discriminate.
Defined.

(** ** The launcher *)

Section LauncherFacts.

Implicit Types rt : process.
Implicit Types fs : filesystem.

(** Two small offsets from one base never wrap to the same [int]. *)
Lemma wrap64_offsets (base i j : Z) :
  (0 ≤ i < 2 ^ 64)%Z → (0 ≤ j < 2 ^ 64)%Z →
  wrap64 (base + i) = wrap64 (base + j) → i = j.
Proof.
  unfold wrap64. intros Hi Hj H.
  assert (Hm : ((base + i + 2 ^ 63) mod 2 ^ 64
                = (base + j + 2 ^ 63) mod 2 ^ 64)%Z) by lia.
  pose proof (Z.div_mod (base + i + 2 ^ 63) (2 ^ 64)) as Di.
  pose proof (Z.div_mod (base + j + 2 ^ 63) (2 ^ 64)) as Dj.
  assert (2 ^ 64 ≠ 0)%Z as Hnz by lia.
  specialize (Di Hnz). specialize (Dj Hnz). rewrite Hm in Di.
  set (qi := ((base + i + 2 ^ 63) / 2 ^ 64)%Z) in *.
  set (qj := ((base + j + 2 ^ 63) / 2 ^ 64)%Z) in *.
  assert (i - j = 2 ^ 64 * (qi - qj))%Z as Hd by lia.
  assert (qi - qj = 0)%Z by nia. lia.
Qed.

Lemma portFor_offset (name : gostring) (base : Z) :
  isInt base →
  ∃ i, (0 ≤ i ≤ 5)%Z ∧ Launcher.portFor name base = wrap64 (base + i)
       ∧ (name ∈ serverNames → serverNames !! Z.to_nat i = Some name)
       ∧ (name ∉ serverNames → i = 0%Z).
Proof.
  intros Hb. unfold Launcher.portFor, serverNames.
  repeat match goal with
         | |- context [decide (name = ?l)] => destruct (decide (name = l)) as [-> | ?]
         end.
  - exists 0%Z. rewrite Z.add_0_r, wrap64_id by exact Hb.
    split; [lia |]. split; [done |]. split; [done | done].
  - exists 1%Z. split; [lia |]. split; [done |]. split; [done |].
    intros Hn. destruct Hn. rewrite !elem_of_cons. tauto.
  - exists 2%Z. split; [lia |]. split; [done |]. split; [done |].
    intros Hn. destruct Hn. rewrite !elem_of_cons. tauto.
  - exists 3%Z. split; [lia |]. split; [done |]. split; [done |].
    intros Hn. destruct Hn. rewrite !elem_of_cons. tauto.
  - exists 4%Z. split; [lia |]. split; [done |]. split; [done |].
    intros Hn. destruct Hn. rewrite !elem_of_cons. tauto.
  - exists 5%Z. split; [lia |]. split; [done |]. split; [done |].
    intros Hn. destruct Hn. rewrite !elem_of_cons. tauto.
  - exists 0%Z. rewrite Z.add_0_r, wrap64_id by exact Hb.
    split; [lia |]. split; [done |]. split; [| done].
    rewrite !elem_of_cons. intros H.
    repeat (destruct H as [H | H]; [done |]). by apply not_elem_of_nil in H.
Qed.

(** The start loop: the children started are those of a prefix of the
    specs, each of which started; the loop ends early exactly at a spec
    whose child does not start. *)
Lemma startAll_spec rt (starts : exec.Cmd → bool)
    (specs : list Launcher.procSpec) (procs : list exec.Cmd) :
  Forall (λ spec, Launcher.cmd spec ≠ []) specs →
  ∃ (before : list Launcher.procSpec) (cmds : list exec.Cmd),
    (Launcher.startAll rt starts specs procs).1 = procs ++ cmds
    ∧ map Some cmds = map (Launcher.command rt) before
    ∧ Forall (λ cmd, starts cmd = true) cmds
    ∧ match (Launcher.startAll rt starts specs procs).2 with
      | None => before = specs
      | Some fatal =>
          ∃ spec after cmd,
            specs = before ++ spec :: after
            ∧ fatal = FatalStart (Launcher.name spec)
            ∧ Launcher.command rt spec = Some cmd ∧ starts cmd = false
      end.
Proof.
  intros Hall. revert procs.
  induction Hall as [|spec specs Hne _ IH]; intros procs; simpl.
  - exists [], []. by rewrite app_nil_r.
  - destruct (Launcher.command rt spec) as [cmd|] eqn:Hcmd.
    2:{ unfold Launcher.command in Hcmd.
        by destruct (Launcher.cmd spec). }
    destruct (starts cmd) eqn:Hs.
    + destruct (IH (procs ++ [cmd])) as (before & cmds & H1 & H2 & H3 & H4).
      exists (spec :: before), (cmd :: cmds).
      rewrite H1, <- app_assoc. simpl. rewrite Hcmd, H2.
      split; [done |]. split; [done |]. split; [by constructor |].
      destruct (Launcher.startAll rt starts specs (procs ++ [cmd])).2
        as [fatal|].
      * destruct H4 as (s & after & c & -> & -> & Hc & Hf).
        by exists s, after, c.
      * by rewrite H4.
    + exists [], []. simpl. rewrite app_nil_r.
      split; [done |]. split; [done |]. split; [constructor |].
      by exists spec, specs, cmd.
Qed.

Lemma lookupEnv_last (env : list gostring) (key value : gostring) :
  eq_sign ∉ key →
  lookupEnv (env ++ [key ++ eq_sign :: value]) key = Some value.
Proof.
  intros Hk. rewrite lookupEnv_app. simpl. rewrite (cutEq_app _ _ Hk).
  by destruct (decide (key = key)).
Qed.

(** No spec of [main] has an empty command. *)
Lemma specs_shape_cmd rt (host : gostring) (basePort : Z)
    (tavilyKey context7Key githubToken githubPath repoRoot : gostring) :
  Forall (λ spec, Launcher.cmd spec ≠ [])
    (Launcher.specs rt host basePort tavilyKey context7Key githubToken
       githubPath repoRoot).
Proof.
  unfold Launcher.specs.
  repeat apply Forall_cons_2; try apply Forall_nil_2; try done.
  cbn [Launcher.cmd]. unfold Launcher.context7Command.
  by destruct (decide (context7Key = [])).
Qed.

End LauncherFacts.

(** X15.  [portFor] gives the six servers six different ports, the base
    port and the five after it in the order the servers are started,
    wrapping around as Go's [int] does; any other name gets the base port,
    that of the first server. *)
Theorem portFor_distinct (base : Z) :
  isInt base →
  (∀ i name, serverNames !! i = Some name →
             Launcher.portFor name base = wrap64 (base + Z.of_nat i)
             ∧ ((base + 5 < 2 ^ 63)%Z →
                Launcher.portFor name base = (base + Z.of_nat i)%Z))
  ∧ (∀ name1 name2, name1 ∈ serverNames → name2 ∈ serverNames →
                    Launcher.portFor name1 base = Launcher.portFor name2 base →
                    name1 = name2)
  ∧ (∀ name, name ∉ serverNames → Launcher.portFor name base = base).
Proof.
  intros Hb. split; [| split].
  - intros i name Hi.
    assert (i < 6)%nat by (apply lookup_lt_Some in Hi; exact Hi).
    assert (Hport : Launcher.portFor name base = wrap64 (base + Z.of_nat i)).
    { do 6 (destruct i as [|i]; [injection Hi as <-; try reflexivity;
                                   simpl; by rewrite Z.add_0_r, wrap64_id |]).
      simpl in H. lia. }
    split; [exact Hport |].
    intros Hfree. rewrite Hport. apply wrap64_id. unfold isInt in Hb. lia.
  - intros name1 name2 H1 H2 Heq.
    destruct (portFor_offset name1 base Hb) as (i & Hi & Pi & Ni & _).
    destruct (portFor_offset name2 base Hb) as (j & Hj & Pj & Nj & _).
    rewrite Pi, Pj in Heq. apply wrap64_offsets in Heq; [| lia | lia].
    subst j. specialize (Ni H1). specialize (Nj H2). congruence.
  - intros name Hname.
    destruct (portFor_offset name base Hb) as (i & _ & Pi & _ & Hz).
    rewrite Pi, (Hz Hname), Z.add_0_r. by apply wrap64_id.
Qed.

Lemma portFor_distinct_witness :
  Launcher.portFor (lit "test-verifier") 7010 = wrap64 (7010 + Z.of_nat 4)
  ∧ ((7010 + 5 < 2 ^ 63)%Z →
     Launcher.portFor (lit "test-verifier") 7010 = (7010 + Z.of_nat 4)%Z).
Proof.
  assert (Hb : isInt 7010) by (unfold isInt; lia).
  exact (proj1 (portFor_distinct 7010 Hb) 4%nat (lit "test-verifier") eq_refl).
Defined.

(** X16.  The six specs of [main] are the six servers in the order of
    their names; each command line is the proxy invocation, bound to the
    host and to the very port [portFor] reports for that server, followed
    by a non-empty server command, so that taking its first element never
    panics; and the key of Context7 is passed on its command line, as
    [--api-key], exactly when it is not empty. *)
Theorem specs_shape (rt : process) (host : gostring) (basePort : Z)
    (tavilyKey context7Key githubToken githubPath repoRoot : gostring) :
  let specs := Launcher.specs rt host basePort tavilyKey context7Key
                 githubToken githubPath repoRoot in
  map Launcher.name specs = serverNames
  ∧ Forall (λ spec,
      ∃ server,
        Launcher.cmd spec
        = proxyPrefix host (Launcher.portFor (Launcher.name spec) basePort)
          ++ server
        ∧ server ≠ []
        ∧ is_Some (Launcher.command rt spec)) specs
  ∧ (∀ spec, specs !! 1%nat = Some spec →
       Launcher.cmd spec
       = proxyPrefix host (wrap64 (basePort + 1))
         ++ [lit "pnpm"; lit "dlx"; lit "@upstash/context7-mcp"]
         ++ (if decide (context7Key = []) then []
             else [lit "--api-key"; context7Key])
       ∧ Launcher.env spec = []).
Proof.
  intros specs. subst specs. unfold Launcher.specs. split; [reflexivity |].
  split.
  - repeat apply Forall_cons_2; try apply Forall_nil_2.
    all: unfold Launcher.command, Launcher.context7Command, proxyPrefix;
      cbn [Launcher.cmd Launcher.name];
      try destruct (decide (context7Key = [])); eexists;
      (split; [reflexivity |]); split; done.
  - intros spec [= <-]. cbn [Launcher.cmd Launcher.env].
    unfold Launcher.context7Command, proxyPrefix.
    by destruct (decide (context7Key = [])).
Qed.

(** X17.  Each child of the launcher runs in the launcher's environment
    followed by the entries of its spec, so that the Tavily key and the
    GitHub token in force, from a flag or from the environment, are what
    the Tavily and GitHub children see under [TAVILY_API_KEY] and
    [GITHUB_PERSONAL_ACCESS_TOKEN], overriding inherited values; and the
    Verifier and the Registrar both see, under [TEST_VERIFIER_CONFIG], the
    one config path computed from the repository root. *)
Theorem launcher_child_environment (rt : process) (host : gostring)
    (basePort : Z)
    (tavilyKey context7Key githubToken githubPath repoRoot : gostring) :
  let specs := Launcher.specs rt host basePort tavilyKey context7Key
                 githubToken githubPath repoRoot in
  let sees (i : nat) (key : gostring) : option gostring :=
    spec ← specs !! i;
    cmd ← Launcher.command rt spec;
    lookupEnv (childEnviron rt cmd) key in
  Forall (λ spec,
    ∃ cmd, Launcher.command rt spec = Some cmd
           ∧ childEnviron rt cmd = os_Environ rt ++ Launcher.env spec
           ∧ ∀ key, is_Some (lookupEnv (os_Environ rt) key) →
                    is_Some (lookupEnv (childEnviron rt cmd) key)) specs
  ∧ sees 0%nat (lit "TAVILY_API_KEY") = Some tavilyKey
  ∧ sees 3%nat (lit "GITHUB_PERSONAL_ACCESS_TOKEN") = Some githubToken
  ∧ sees 4%nat configEnvVar = Some (Launcher.testVerifierConfigPath rt repoRoot)
  ∧ sees 5%nat configEnvVar = Some (Launcher.testVerifierConfigPath rt repoRoot).
Proof.
  intros specs sees.
  assert (Hcmd : Forall (λ spec, ∃ cmd, Launcher.command rt spec = Some cmd
                          ∧ childEnviron rt cmd = os_Environ rt ++ Launcher.env spec)
                   specs).
  { pose proof (specs_shape_cmd rt host basePort tavilyKey context7Key
                  githubToken githubPath repoRoot) as Hne.
    fold specs in Hne. eapply Forall_impl; [exact Hne |].
    intros spec Hs. simpl in Hs. unfold Launcher.command.
    destruct (Launcher.cmd spec) as [|exe rest]; [done |]. by eexists. }
  split.
  - eapply Forall_impl; [exact Hcmd |].
    intros spec (cmd & Hc & He). exists cmd. split; [done |]. split; [done |].
    intros key [v Hv]. rewrite He, lookupEnv_app, Hv.
    by destruct (lookupEnv (Launcher.env spec) key).
  - subst sees specs. unfold Launcher.specs, Launcher.testVerifierEnv.
    cbn [lookup list_lookup mbind option_bind Launcher.command Launcher.cmd
         Launcher.env childEnviron exec.Env].
    repeat split.
    + apply (lookupEnv_last _ (lit "TAVILY_API_KEY")). compute_done.
    + apply (lookupEnv_last _ (lit "GITHUB_PERSONAL_ACCESS_TOKEN")). compute_done.
    + apply (lookupEnv_last _ configEnvVar). compute_done.
    + apply (lookupEnv_last _ configEnvVar). compute_done.
Qed.

(** X18.  How [main] ends.  It stops for missing keys, before anything
    else, exactly when the Tavily key or the GitHub token in force (the
    flag when given, else the environment, the token falling back from
    [GITHUB_PERSONAL_ACCESS_TOKEN] to [GITHUB_API_KEY]) is empty, and for a
    missing GitHub binary exactly when the keys are there and
    [githubBinary] finds nothing; in both cases no child was started.  It
    never panics on a spec.  When a child does not start, the children
    before it, in the order of the specs, were started and are left
    running: they are neither interrupted nor killed.  Otherwise all six
    children are started, and on shutdown each is interrupted, then after
    two seconds each is killed, in the order they were started. *)
Theorem main_endings (rt : process) (pf : platform) (fs : filesystem)
    (fl : flags) (starts : exec.Cmd → bool) :
  let tavilyKey := default (os_Getenv rt (lit "TAVILY_API_KEY")) (flag_tavily fl) in
  let githubToken := default (Launcher.githubEnvToken rt) (flag_github fl) in
  let specs :=
    Launcher.specs rt (default (lit "127.0.0.1") (flag_host fl))
      (default 7010%Z (flag_port fl)) tavilyKey
      (default (os_Getenv rt (lit "CONTEXT7_API_KEY")) (flag_context7 fl))
      githubToken (Launcher.githubBinary rt pf fs)
      (Launcher.resolveRepoRoot rt pf fs) in
  let ran := Launcher.main rt pf fs fl starts in
  (Launcher.githubEnvToken rt
   = if decide (os_Getenv rt (lit "GITHUB_PERSONAL_ACCESS_TOKEN") = [])
     then os_Getenv rt (lit "GITHUB_API_KEY")
     else os_Getenv rt (lit "GITHUB_PERSONAL_ACCESS_TOKEN"))
  ∧ (ran.2 = FatalMissingKeys ↔ tavilyKey = [] ∨ githubToken = [])
  ∧ (ran.2 = FatalNoGithubBinary
     ↔ tavilyKey ≠ [] ∧ githubToken ≠ [] ∧ Launcher.githubBinary rt pf fs = [])
  ∧ (ran.2 = FatalMissingKeys ∨ ran.2 = FatalNoGithubBinary → ran.1 = [])
  ∧ ran.2 ≠ IndexPanic
  ∧ (∀ name, ran.2 = FatalStart name →
       ∃ before spec after cmd cmds,
         specs = before ++ spec :: after
         ∧ name = Launcher.name spec
         ∧ Launcher.command rt spec = Some cmd ∧ starts cmd = false
         ∧ map Some cmds = map (Launcher.command rt) before
         ∧ Forall (λ c, starts c = true) cmds
         ∧ ran.1 = map EvStart cmds)
  ∧ (ran.2 = ShutDown →
       ∃ cmds,
         map Some cmds = map (Launcher.command rt) specs
         ∧ length cmds = 6%nat
         ∧ Forall (λ c, starts c = true) cmds
         ∧ ran.1 = map EvStart cmds ++ map EvInterrupt cmds ++ [EvSleep 2]
                   ++ map EvKill cmds).
Proof.
  intros tavilyKey githubToken specs ran. split; [reflexivity |].
  subst ran. unfold Launcher.main.
  fold tavilyKey githubToken.
  destruct (decide (tavilyKey = [])) as [Ht | Ht].
  { rewrite (bool_decide_eq_true_2 _ Ht). cbn [orb fst snd].
    repeat split; try done; try tauto. }
  rewrite (bool_decide_eq_false_2 _ Ht). cbn [orb].
  destruct (decide (githubToken = [])) as [Hg | Hg].
  { rewrite (bool_decide_eq_true_2 _ Hg). cbn [fst snd].
    repeat split; try done; try tauto. }
  rewrite (bool_decide_eq_false_2 _ Hg).
  destruct (decide (Launcher.githubBinary rt pf fs = [])) as [Hb | Hb].
  { cbn [fst snd]. repeat split; try done; try tauto. }
  fold specs.
  pose proof (specs_shape_cmd rt (default (lit "127.0.0.1") (flag_host fl))
                (default 7010%Z (flag_port fl)) tavilyKey
                (default (os_Getenv rt (lit "CONTEXT7_API_KEY")) (flag_context7 fl))
                githubToken (Launcher.githubBinary rt pf fs)
                (Launcher.resolveRepoRoot rt pf fs)) as Hne.
  fold specs in Hne.
  destruct (startAll_spec rt starts specs [] Hne)
    as (before & cmds & Hprocs & Hcmds & Hstarted & Hend).
  destruct (Launcher.startAll rt starts specs []) as [procs [fatal|]];
    cbn [fst snd app] in *; subst procs.
  - destruct Hend as (spec & after & cmd & Hspecs & -> & Hc & Hf).
    split; [split; [done | tauto] |]. split; [split; [done | tauto] |].
    split; [by intros [? | ?] |]. split; [done |]. split; [| done].
    intros name [= <-]. by exists before, spec, after, cmd, cmds.
  - subst before.
    split; [split; [done | tauto] |]. split; [split; [done | tauto] |].
    split; [by intros [? | ?] |]. split; [done |]. split; [done |].
    intros _. exists cmds. split; [done |]. split; [| done].
    apply (f_equal length) in Hcmds. rewrite !length_map in Hcmds.
    rewrite Hcmds. reflexivity.
Qed.

Section RepoRoot.

Implicit Types rt : process.
Implicit Types fs : filesystem.

Lemma resolveRepoRoot_loop_spec rt fs (cands : list gostring) :
  match Launcher.resolveRepoRoot_loop rt fs cands with
  | Some dir =>
      ∃ pre post, cands = pre ++ dir :: post ∧ dir ≠ []
                  ∧ holdsServers rt fs dir = true
                  ∧ Forall (λ d, d = [] ∨ holdsServers rt fs d = false) pre
  | None => Forall (λ d, d = [] ∨ holdsServers rt fs d = false) cands
  end.
Proof.
  induction cands as [|dir cands IH]; simpl; [constructor |].
  destruct (decide (dir = [])) as [-> | Hne].
  - destruct (Launcher.resolveRepoRoot_loop rt fs cands) as [found|].
    + destruct IH as (pre & post & -> & Hf & Hh & Hpre).
      exists ([] :: pre), post. repeat split; try done.
      constructor; [by left | done].
    + constructor; [by left | done].
  - fold (holdsServers rt fs dir).
    destruct (holdsServers rt fs dir) eqn:Hh.
    + exists [], cands. by repeat split.
    + destruct (Launcher.resolveRepoRoot_loop rt fs cands) as [found|].
      * destruct IH as (pre & post & -> & Hf & Hh' & Hpre).
        exists (dir :: pre), post. repeat split; try done.
        constructor; [by right | done].
      * constructor; [by right | done].
Qed.

Lemma candidates_length rt (pf : platform) :
  (length (Launcher.candidates rt pf) ≤ 2)%nat.
Proof.
  unfold Launcher.candidates.
  destruct (os_Executable pf) as [exe|]; [destruct (decide (exe = [])) |];
    destruct (os_Getwd rt) as [cwd|]; try destruct (decide (cwd = []));
    simpl; lia.
Qed.

End RepoRoot.

(** X19.  [resolveRepoRoot] has at most two candidates, the folder of the
    executable before the working directory.  It returns the first
    non-empty candidate that holds both server folders, each an existing
    directory, when there is one; otherwise it falls back on its first
    candidate, whatever that holds, and on the empty string when it has
    none. *)
Theorem resolveRepoRoot_choice (rt : process) (pf : platform) (fs : filesystem) :
  let cands := Launcher.candidates rt pf in
  let root := Launcher.resolveRepoRoot rt pf fs in
  (length cands ≤ 2)%nat
  ∧ (∀ dir, holdsServers rt fs dir = true
            ↔ fs !! filepath_Join rt [dir; lit "test-verifier-mcp"] = Some Directory
              ∧ fs !! filepath_Join rt [dir; lit "test-registrar-mcp"]
                = Some Directory)
  ∧ (∀ pre dir post,
       cands = pre ++ dir :: post →
       dir ≠ [] → holdsServers rt fs dir = true →
       Forall (λ d, d = [] ∨ holdsServers rt fs d = false) pre →
       root = dir)
  ∧ (Forall (λ d, d = [] ∨ holdsServers rt fs d = false) cands →
     root = default [] (head cands))
  ∧ (root = [] ∨ root ∈ cands).
Proof.
  intros cands root.
  split; [apply candidates_length |]. split.
  { intros dir. unfold holdsServers, Launcher.dirExists, os_Stat.
    destruct (fs !! filepath_Join rt [dir; lit "test-verifier-mcp"]) as [[d|]|];
      destruct (fs !! filepath_Join rt [dir; lit "test-registrar-mcp"])
        as [[d'|]|]; simpl; split; try done; by intros [? ?]. }
  pose proof (resolveRepoRoot_loop_spec rt fs cands) as Hloop.
  subst root. unfold Launcher.resolveRepoRoot. fold cands.
  destruct (Launcher.resolveRepoRoot_loop rt fs cands) as [found|].
  - destruct Hloop as (pre & post & Hc & Hf & Hh & Hpre).
    split; [| split].
    + intros pre' dir post' Hc' Hd Hhd Hpre'.
      rewrite Hc in Hc'. clear Hc.
      revert pre' Hc' Hpre'. induction Hpre as [|d pre Hd0 _ IH];
        intros pre' Hc' Hpre'.
      * destruct pre' as [|d' pre']; simpl in Hc'; [congruence |].
        injection Hc' as <- _. inversion Hpre' as [|? ? [? | ?] _]; congruence.
      * destruct pre' as [|d' pre']; simpl in Hc'.
        -- injection Hc' as <- _. destruct Hd0; congruence.
        -- injection Hc' as <- Hc'. inversion Hpre'; subst. by eapply IH.
    + intros Hall. rewrite Hc in Hall.
      apply Forall_app in Hall as [_ Hall].
      inversion Hall as [|? ? [? | ?] _]; congruence.
    + right. rewrite Hc. apply elem_of_app. right. apply elem_of_cons. by left.
  - split; [| split].
    + intros pre dir post Hc Hd Hh _. rewrite Hc in Hloop.
      apply Forall_app in Hloop as [_ Hloop].
      inversion Hloop as [|? ? [? | ?] _]; congruence.
    + intros _. by destruct cands.
    + destruct cands as [|first rest]; [by left |].
      right. apply elem_of_cons. by left.
Qed.

(** X20.  The servers the launcher starts agree on the config file: the
    entry it gives both carries the path it computed, and two processes
    that read that path from [TEST_VERIFIER_CONFIG] resolve the same
    config path, whatever their working directories, even unreadable
    ones, provided the path is not blank and their [filepath.Abs] agree on
    it, as they do on an absolute path. *)
Theorem launched_servers_share_config (rtL rtR rtV : process)
    (repoRoot : gostring) :
  let path := Launcher.testVerifierConfigPath rtL repoRoot in
  lookupEnv (Launcher.testVerifierEnv rtL repoRoot) configEnvVar = Some path
  ∧ (os_Getenv rtR configEnvVar = path →
     os_Getenv rtV configEnvVar = path →
     TrimSpace path ≠ [] →
     filepath_Abs rtR (TrimSpace path) = filepath_Abs rtV (TrimSpace path) →
     Registrar.configPath rtR = sys (filepath_Abs rtR (TrimSpace path))
     ∧ Verifier.configPath rtV = Registrar.configPath rtR).
Proof.
  intros path. split.
  - unfold Launcher.testVerifierEnv. fold path.
    apply (lookupEnv_last [] configEnvVar). compute_done.
  - intros HR HV Hne Habs.
    unfold Registrar.configPath, Verifier.configPath. rewrite HR, HV.
    destruct (decide (TrimSpace path = [])) as [| _]; [done |].
    cbn [mbind result_bind]. rewrite <- Habs.
    by destruct (filepath_Abs rtR (TrimSpace path)).
Qed.

(** ** Evaluations of the launcher *)

(** The sample launch: the executable lives in [/opt/tools], which holds
    no server folder, so the root is the working directory; all six
    children start, and the shutdown interrupts and kills them. *)
Example sample_launch :
  let cmds := omap (Launcher.command launcher_rt) sample_specs in
  Launcher.resolveRepoRoot launcher_rt sample_platform launcher_fs = lit "/srv/app"
  ∧ length cmds = 6%nat
  ∧ Launcher.main launcher_rt sample_platform launcher_fs no_flags (λ _, true)
    = (map EvStart cmds ++ map EvInterrupt cmds ++ [EvSleep 2]
       ++ map EvKill cmds, ShutDown).
Proof. vm_compute. repeat split; reflexivity. Qed.

(** When the playwright proxy does not start, the two children before it
    stay as they were started. *)
Example sample_launch_failure :
  Launcher.main launcher_rt sample_platform launcher_fs no_flags playwright_fails
  = (map EvStart (omap (Launcher.command launcher_rt) (take 2 sample_specs)),
     FatalStart (lit "playwright")).
Proof. vm_compute. reflexivity. Qed.

(** Without the GitHub token nothing is started, whatever else is there. *)
Example sample_launch_without_token :
  Launcher.main sample_rt sample_platform launcher_fs
    {| flag_tavily := Some (lit "tvly-1"); flag_context7 := None;
       flag_github := None; flag_host := None; flag_port := None |}
    (λ _, true)
  = ([], FatalMissingKeys).
Proof. vm_compute. reflexivity. Qed.

(** ** Registration and loading, end to end *)



(** X22.  [loadConfig] normalises what it reads: from a config file that
    parses, by whatever hand it was written, with a non-empty command free
    of blank elements, env entries blank or [KEY=VALUE] and a working
    directory unset or existing, it returns the command trimmed element by
    element, the env entries trimmed with the blank ones dropped, and the
    working directory and timestamp as they are in the file. *)
Theorem loadConfig_normalises (rt : process) (fs : filesystem)
    (path : gostring) (data : bytes) (raw : Verifier.storedConfig) :
  Verifier.configPath rt = Ok path →
  fs !! path = Some (File data) →
  Verifier.json_Unmarshal data = Ok raw →
  Verifier.Command raw ≠ [] →
  Forall (λ part, ¬ blank part) (Verifier.Command raw) →
  Forall (λ entry, blank entry ∨ keyValue (TrimSpace entry)) (Verifier.Env raw) →
  workingDirOk fs (Verifier.WorkingDir raw) →
  Verifier.loadConfig rt fs
  = Ok ({| Verifier.Command := map TrimSpace (Verifier.Command raw);
           Verifier.WorkingDir := Verifier.WorkingDir raw;
           Verifier.Env := keptEntries (Verifier.Env raw);
           Verifier.UpdatedAt := Verifier.UpdatedAt raw |}, path).
Proof.
  intros Hpath Hfile Hparse Hne Hcmd Henv Hwd. unfold Verifier.loadConfig.
  rewrite Hpath. cbn [mbind result_bind].
  unfold os_ReadFile. rewrite Hfile. cbn [wrapErr mbind result_bind].
  rewrite Hparse. cbn [wrapErr mbind result_bind].
  rewrite Verifier_validateCommand_eq, Verifier_validateEnv_eq.
  rewrite (Registrar_validateCommand_ok _ Hne Hcmd).
  rewrite (Registrar_validateEnv_ok _ Henv). cbn [wrapErr mbind result_bind].
  destruct (decide (Verifier.WorkingDir raw = [])) as [E | E]; [done |].
  destruct Hwd as [E' | Hd]; [done |].
  unfold os_Stat. by rewrite Hd.
Qed.

Lemma loadConfig_normalises_witness :
  Verifier.loadConfig sample_rt
    (<[ sample_path :=
          File (JsonText (JObject
            [(lit "COMMAND", JArray [JString (lit " make "); JString (lit "check")]);
             (lit "env", JArray [JString (lit " CI=1 "); JString (lit " ")]);
             (lit "comment", JBool true)])) ]> sample_fs)
  = Ok ({| Verifier.Command := map TrimSpace [lit " make "; lit "check"];
           Verifier.WorkingDir := [];
           Verifier.Env := keptEntries [lit " CI=1 "; lit " "];
           Verifier.UpdatedAt := [] |}, sample_path).
Proof.
  apply (loadConfig_normalises sample_rt _ sample_path
           (JsonText (JObject
              [(lit "COMMAND", JArray [JString (lit " make "); JString (lit "check")]);
               (lit "env", JArray [JString (lit " CI=1 "); JString (lit " ")]);
               (lit "comment", JBool true)]))
           {| Verifier.Command := [lit " make "; lit "check"];
              Verifier.WorkingDir := [];
              Verifier.Env := [lit " CI=1 "; lit " "];
              Verifier.UpdatedAt := [] |}).
  - vm_compute. reflexivity.
  - vm_compute. reflexivity.
  - vm_compute. reflexivity.
  - discriminate.
  - repeat constructor; vm_compute; discriminate.
  - constructor; [| constructor; [| constructor]].
    + right. exists (lit "CI"), (lit "1").
      split; [vm_compute; reflexivity |]. split; [discriminate | compute_done].
    + left. vm_compute. reflexivity.
  - by left.
Defined.

(** ** Evaluations of the file system and of the decoder *)

(** Below a regular file no directory can be made: the registration fails
    at [os.MkdirAll] and nothing is written. *)
Example writeConfig_below_regular_file :
  let fs : filesystem :=
    <[ lit "/srv/app/notes" := File (JsonText JNull) ]> sample_fs in
  Registrar.writeConfig sample_rt no_faults fs
    (lit "/srv/app/notes/sub/command.json") sample_config
  = (fs, Err (EMkdir ENOTDIR)).
Proof. vm_compute. reflexivity. Qed.

(** The missing directories above the config file are all made. *)
Example writeConfig_makes_ancestors :
  Registrar.writeConfig sample_rt no_faults sample_fs
    (lit "/srv/app/a/b/command.json") sample_config
  = (<[ lit "/srv/app/a/b/command.json"
        := File (JsonText (Registrar.marshalConfig sample_config)) ]>
       (<[ lit "/srv/app/a/b" := Directory ]>
          (<[ lit "/srv/app/a" := Directory ]> sample_fs)),
     Ok tt).
Proof. vm_compute. reflexivity. Qed.

(** When the second of them cannot be made, the first stays. *)
Example writeConfig_mkdir_failure :
  Registrar.writeConfig sample_rt
    {| mkdirFails := λ dir, bool_decide (dir = lit "/srv/app/a/b");
       tempWrite := WriteCompletes; renameFails := false;
       removeDestFails := false; retryFails := false;
       removeTempFails := false |}
    sample_fs (lit "/srv/app/a/b/command.json") sample_config
  = (<[ lit "/srv/app/a" := Directory ]> sample_fs, Err (EMkdir EIO)).
Proof. vm_compute. reflexivity. Qed.

(** A directory at the config path that holds an entry is not removed by
    the fallback: the retry fails as the rename did, whose error is
    returned, and the temporary file is removed. *)
Example writeConfig_onto_full_directory :
  let fs : filesystem :=
    <[ sample_path ++ lit "/old" := File (JsonText JNull) ]>
      (<[ sample_path := Directory ]>
         (<[ lit "/srv/app/.test-verifier" := Directory ]> sample_fs)) in
  Registrar.writeConfig sample_rt no_faults fs sample_path sample_config
  = (fs, Err (EMoveConfig EISDIR)).
Proof. vm_compute. reflexivity. Qed.

(** A repeated key decodes into the field that is there: [null] resets the
    slice, and the load then fails on the empty command. *)
Example loadConfig_repeated_key_null :
  Verifier.loadConfig sample_rt
    (<[ sample_path :=
          File (JsonText (JObject
            [(lit "command", JArray [JString (lit "a")]);
             (lit "command", JNull)])) ]> sample_fs)
  = Err (EConfigCommand ECommandEmpty).
Proof. vm_compute. reflexivity. Qed.

(** A [null] element keeps what the backing array holds at its index, from
    an earlier value of the key. *)
Example json_Unmarshal_repeated_key_elements :
  Verifier.Command
  <$> Verifier.json_Unmarshal (JsonText (JObject
        [(lit "command", JArray [JString (lit "a"); JString (lit "b")]);
         (lit "command", JArray [JNull])]))
  = Ok [lit "a"]
  ∧ Verifier.Command
    <$> Verifier.json_Unmarshal (JsonText (JObject
          [(lit "command", JArray [JString (lit "a"); JString (lit "b")]);
           (lit "command", JArray [JString (lit "c")]);
           (lit "command", JArray [JString (lit "d"); JNull; JNull])]))
    = Ok [lit "d"; lit "b"; []]
  ∧ Verifier.Command
    <$> Verifier.json_Unmarshal (JsonText (JObject
          [(lit "command", JArray [JString (lit "a"); JString (lit "b")]);
           (lit "command", JArray []);
           (lit "command", JArray [JNull])]))
    = Ok [[]].
Proof. vm_compute. repeat split; reflexivity. Qed.

(** Keys are folded over Unicode: the Kelvin sign matches the [k] of
    [working_dir]. *)
Example json_Unmarshal_folds_keys :
  Verifier.WorkingDir
  <$> Verifier.json_Unmarshal (JsonText (JObject
        [(lit "Command", JArray [JString (lit "make")]);
         (lit "WOR" ++ [0x212A] ++ lit "ING_DIR", JString (lit "/srv/app"))]))
  = Ok (lit "/srv/app").
Proof. vm_compute. reflexivity. Qed.
